(** * ResampleScope core algorithms (c_reference/rscope_shim.c)

    A shallow embedding of the C shim and the properties of its
    specification.

    Conventions of the embedding:
    - a C [int] is a [Z]; [/] is [Z.quot] and [%] is [Z.rem] (truncation
      towards zero, remainder with the sign of the dividend).  Signed
      overflow is undefined in C.  The [int] expression of the shim that a
      caller can drive out of range is the index [y * stride + x] of a
      read: an index above [INT_MAX] is no [int] value, and [load] has no
      result for it.  The analyzers pass [x], [y] and [stride] that are
      not negative, so the product is in range when the index is; the
      other [int] expressions (loop counters, [count], the row of a
      strip) are bounded by an index that is read or by [w];
    - a [uint8_t] is a [Z] in [0, 256); a [uint8_t*] buffer is a [list Z];
    - a [double] is a binary64 primitive [float]; [+ - * /], [fabs] and the
      comparisons are the IEEE 754 operations of [PrimFloat], each one
      rounded to nearest on its own (no fused multiply-add, no extended
      precision);
    - [pow] comes from libm, which is not part of the repository: it is a
      field of the class [Libm];
    - an access outside a buffer is undefined behaviour: [load] and [store]
      return [None] there, and every function that touches memory lives in
      the [option] monad;
    - the output arrays are the caller's: a function takes them as lists
      and returns them updated. *)

From Stdlib Require Import ZArith List Bool Lia Floats.
From stdpp Require Import base option list sorting.

Local Open Scope Z_scope.

(* Decimal literals are rounded to the nearest binary64, as a C compiler
   rounds them. *)
Set Warnings "-inexact-float".

(** ** Constants *)

Definition DOTIMG_SRC_WIDTH : Z := 557.
Definition DOTIMG_HPIXELSPAN : Z := 25.
Definition DOTIMG_NUMSTRIPS : Z := DOTIMG_HPIXELSPAN.
Definition DOTIMG_HCENTER : Z := (DOTIMG_HPIXELSPAN - 1) ÷ 2.
Definition DOTIMG_STRIPHEIGHT : Z := 11.
Definition DOTIMG_VCENTER : Z := (DOTIMG_STRIPHEIGHT - 1) ÷ 2.
Definition DOTIMG_SRC_HEIGHT : Z := DOTIMG_NUMSTRIPS * DOTIMG_STRIPHEIGHT.
Definition DOTIMG_DST_WIDTH : Z := DOTIMG_SRC_WIDTH - 2.
Definition DOTIMG_DST_HEIGHT : Z := DOTIMG_SRC_HEIGHT.

Definition LINEIMG_SRC_WIDTH : Z := 15.
Definition LINEIMG_SRC_HEIGHT : Z := 15.
Definition LINEIMG_DST_WIDTH : Z := 555.
Definition LINEIMG_DST_HEIGHT : Z := LINEIMG_SRC_HEIGHT.

Definition DARK : Z := 50.
Definition BRIGHT : Z := 250.

(** ** Memory and control *)

(** The largest [int] (32 bits). *)
Definition INT_MAX : Z := 2147483647.

(** [buf[idx]] as an rvalue, for an index computed in [int]: an index
    above [INT_MAX] stands for an overflow of that computation. *)
Definition load {A} (buf : list A) (idx : Z) : option A :=
  if (idx <? 0) || (INT_MAX <? idx) then None else buf !! Z.to_nat idx.

(** [buf[idx] = v]. *)
Definition store {A} (buf : list A) (idx : Z) (v : A) : option (list A) :=
  if (0 <=? idx) && (idx <? Z.of_nat (length buf))
  then Some (<[Z.to_nat idx := v]> buf)
  else None.

(** [memset(buf, c, n)]: the first [n] bytes become [(unsigned char)c]. *)
Definition memset (buf : list Z) (c n : Z) : option (list Z) :=
  if (0 <=? n) && (n <=? Z.of_nat (length buf))
  then Some (replicate (Z.to_nat n) (c `mod` 256) ++ drop (Z.to_nat n) buf)
  else None.

(** [for (i = lo; i < hi; i += step) body], for a body that leaves [i] and
    [hi] alone.  The loop runs on fuel; running out of it is [None], like
    an error of the body. *)
Fixpoint c_for {S} (fuel : nat) (i hi step : Z)
    (body : Z → S → option S) (s : S) : option S :=
  if i <? hi then
    match fuel with
    | O => None
    | Datatypes.S fuel' =>
        s' ← body i s; c_for fuel' (i + step) hi step body s'
    end
  else Some s.

(** Fuel that is enough for every positive [step]. *)
Definition for_range {S} (lo hi step : Z) (body : Z → S → option S) (s : S)
    : option S :=
  c_for (Z.to_nat (hi - lo)) lo hi step body s.

(** The values the loop variable takes: [lo, lo+step, ...] below [hi]. *)
Definition range_step (lo hi step : Z) : list Z :=
  (λ n, lo + step * Z.of_nat n) <$> seq 0 (Z.to_nat ((hi - lo + step - 1) `div` step)).

(** Left fold in the [option] monad. *)
Fixpoint foldlM {S A} (f : A → S → option S) (l : list A) (s : S) : option S :=
  match l with
  | [] => Some s
  | a :: l' => s' ← f a s; foldlM f l' s'
  end.

(** ** Pattern generation *)

(** The body of the two loops of [rs_generate_dot_pattern]. *)
Definition dot_pattern_body (j i : Z) (buf : list Z) : option (list Z) :=
  if (j `rem` DOTIMG_STRIPHEIGHT =? DOTIMG_VCENTER)
     && (DOTIMG_HCENTER <=? i)
     && (i <? DOTIMG_SRC_WIDTH - DOTIMG_HCENTER)
  then
    let strip := j ÷ DOTIMG_STRIPHEIGHT in
    let val := (i - strip) `rem` DOTIMG_HPIXELSPAN in
    if val =? DOTIMG_HCENTER
    then store buf (j * DOTIMG_SRC_WIDTH + i) BRIGHT
    else Some buf
  else Some buf.

Definition rs_generate_dot_pattern (buf : list Z) : option (list Z) :=
  buf ← memset buf DARK (DOTIMG_SRC_WIDTH * DOTIMG_SRC_HEIGHT);
  for_range 0 DOTIMG_SRC_HEIGHT 1 (λ j buf,
    for_range 0 DOTIMG_SRC_WIDTH 1 (λ i buf, dot_pattern_body j i buf) buf) buf.

(** The same generator with the remainder of [i - strip] taken as the
    mathematical modulus (never negative) instead of C's [%]. *)
Definition dot_pattern_body_floor_mod (j i : Z) (buf : list Z) : option (list Z) :=
  if (j `rem` DOTIMG_STRIPHEIGHT =? DOTIMG_VCENTER)
     && (DOTIMG_HCENTER <=? i)
     && (i <? DOTIMG_SRC_WIDTH - DOTIMG_HCENTER)
  then
    let strip := j ÷ DOTIMG_STRIPHEIGHT in
    let val := (i - strip) `mod` DOTIMG_HPIXELSPAN in
    if val =? DOTIMG_HCENTER
    then store buf (j * DOTIMG_SRC_WIDTH + i) BRIGHT
    else Some buf
  else Some buf.

Definition rs_generate_dot_pattern_floor_mod (buf : list Z) : option (list Z) :=
  buf ← memset buf DARK (DOTIMG_SRC_WIDTH * DOTIMG_SRC_HEIGHT);
  for_range 0 DOTIMG_SRC_HEIGHT 1 (λ j buf,
    for_range 0 DOTIMG_SRC_WIDTH 1 (λ i buf, dot_pattern_body_floor_mod j i buf) buf) buf.

Definition rs_generate_line_pattern (buf : list Z) : option (list Z) :=
  let middle := LINEIMG_SRC_WIDTH ÷ 2 in
  buf ← memset buf DARK (LINEIMG_SRC_WIDTH * LINEIMG_SRC_HEIGHT);
  for_range 0 LINEIMG_SRC_HEIGHT 1 (λ j buf,
    store buf (j * LINEIMG_SRC_WIDTH + middle) BRIGHT) buf.

(** ** Doubles *)

(** libm, as far as the shim uses it. *)
Class Libm := { pow : float → float → float }.

(** [(double)z] for an [int] or [uint8_t] [z] (exact below 2^53). *)
Definition of_int (z : Z) : float :=
  if z <? 0 then (- of_uint63 (Uint63.of_Z (- z)))%float
  else of_uint63 (Uint63.of_Z z).

(** ** sRGB conversion *)

Section Sampler.
Context `{Libm}.

Definition c_srgb_to_linear (v_srgb : float) : float :=
  if (v_srgb <=? 0.04045)%float then (v_srgb / 12.92)%float
  else pow ((v_srgb + 0.055) / 1.055)%float 2.4%float.

Definition read_pixel (buf : list Z) (stride x y srgb : Z) : option float :=
  b ← load buf (y * stride + x);
  let raw := of_int b in
  if negb (srgb =? 0) then
    let srgb50_lin := c_srgb_to_linear (50.0 / 255.0)%float in
    let srgb250_lin := c_srgb_to_linear (250.0 / 255.0)%float in
    let v_lin := c_srgb_to_linear (raw / 255.0)%float in
    Some ((v_lin - srgb50_lin) * ((250.0 - 50.0) / (srgb250_lin - srgb50_lin)) + 50.0)%float
  else Some raw.

(** ** Dot analysis (downscale) *)

(** The output arrays and the running [count]. *)
Record dot_out := DotOut {
  dot_offsets : list float;
  dot_weights : list float;
  dot_count : Z
}.

Definition zero_point (scale_factor : float) (w k : Z) : float :=
  (scale_factor * (of_int k + 0.5 - of_int DOTIMG_SRC_WIDTH / 2.0)
   + of_int w / 2.0 - 0.5)%float.

(** Body of the loop over [k]; the state is [offset]. *)
Definition nearest_step (scale_factor : float) (w dstpos k : Z) (offset : float)
    : option float :=
  let zp := zero_point scale_factor w k in
  let tmp_offset := (of_int dstpos - zp)%float in
  Some (if (abs tmp_offset <? abs offset)%float then tmp_offset else offset).

(** Body of the loop over [row]; the state is [tot]. *)
Definition strip_sum_step (resized : list Z) (w srgb strip dstpos row : Z)
    (tot : float) : option float :=
  let y := DOTIMG_STRIPHEIGHT * strip + row in
  v ← read_pixel resized w dstpos y srgb;
  Some (tot + (v - 50.0))%float.

(** Body of the loop over [dstpos]. *)
Definition analyze_dot_column (resized : list Z) (w srgb : Z)
    (scale_factor : float) (strip dstpos : Z) (st : dot_out) : option dot_out :=
  offset ← for_range (DOTIMG_HCENTER + strip) (DOTIMG_SRC_WIDTH - DOTIMG_HCENTER)
             DOTIMG_HPIXELSPAN (nearest_step scale_factor w dstpos) 10000.0%float;
  if (scale_factor * of_int DOTIMG_HCENTER <? abs offset)%float then Some st
  else
    tot ← for_range 0 DOTIMG_STRIPHEIGHT 1
            (strip_sum_step resized w srgb strip dstpos) 0.0%float;
    let weight := (tot / 200.0)%float in
    let '(offset, weight) :=
      if (scale_factor <? 1.0)%float then (offset, (weight / scale_factor)%float)
      else ((offset / scale_factor)%float, weight) in
    offsets ← store (dot_offsets st) (dot_count st) offset;
    weights ← store (dot_weights st) (dot_count st) weight;
    Some (DotOut offsets weights (dot_count st + 1)).

(** Returns [scale_factor] with the output arrays and [*out_count]. *)
Definition rs_analyze_dot (resized : list Z) (w h srgb : Z)
    (offsets weights : list float) : option (float * dot_out) :=
  let scale_factor := (of_int w / of_int DOTIMG_SRC_WIDTH)%float in
  st ← for_range 0 DOTIMG_NUMSTRIPS 1 (λ strip st,
         for_range 0 w 1 (λ dstpos st,
           analyze_dot_column resized w srgb scale_factor strip dstpos st) st)
       (DotOut offsets weights 0);
  Some (scale_factor, st).

(** ** Line analysis (upscale) *)

(** The output arrays and the running [tot]. *)
Record line_state := LineState {
  line_offsets : list float;
  line_weights : list float;
  line_tot : float
}.

(** The scanline read for column [i]. *)
Definition line_row (h scanline i : Z) : Z :=
  if 3 <=? h then
    let y := scanline + (i `rem` 3) - 1 in
    let y := if y <? 0 then 0 else y in
    let y := if h <=? y then h - 1 else y in
    y
  else scanline.

(** Body of the loop over [i]. *)
Definition analyze_line_column (resized : list Z) (w h srgb : Z)
    (scale_factor : float) (scanline i : Z) (st : line_state) : option line_state :=
  let y := line_row h scanline i in
  v ← read_pixel resized w i y srgb;
  let weight := ((v - 50.0) / 200.0)%float in
  let tot := (line_tot st + weight)%float in
  let offset := (0.5 + of_int i - of_int w / 2.0)%float in
  let '(offset, weight) :=
    if (scale_factor <? 1.0)%float then (offset, (weight / scale_factor)%float)
    else ((offset / scale_factor)%float, weight) in
  offsets ← store (line_offsets st) i offset;
  weights ← store (line_weights st) i weight;
  Some (LineState offsets weights tot).

(** The result of [rs_analyze_line]: the value returned, the two output
    arrays and [*out_area]. *)
Record line_out := LineOut {
  out_scale_factor : float;
  out_offsets : list float;
  out_weights : list float;
  out_area : float
}.

Definition rs_analyze_line (resized : list Z) (w h srgb : Z)
    (offsets weights : list float) : option line_out :=
  let scale_factor := (of_int w / of_int LINEIMG_SRC_WIDTH)%float in
  let scanline := h ÷ 2 in
  st ← for_range 0 w 1
         (analyze_line_column resized w h srgb scale_factor scanline)
         (LineState offsets weights 0.0%float);
  Some (LineOut scale_factor (line_offsets st) (line_weights st)
          (line_tot st / scale_factor)%float).

End Sampler.

(** ** Dimension queries *)

Definition rs_dot_src_width : Z := DOTIMG_SRC_WIDTH.
Definition rs_dot_src_height : Z := DOTIMG_SRC_HEIGHT.
Definition rs_dot_dst_width : Z := DOTIMG_DST_WIDTH.
Definition rs_dot_dst_height : Z := DOTIMG_DST_HEIGHT.
Definition rs_line_src_width : Z := LINEIMG_SRC_WIDTH.
Definition rs_line_src_height : Z := LINEIMG_SRC_HEIGHT.
Definition rs_line_dst_width : Z := LINEIMG_DST_WIDTH.
Definition rs_line_dst_height : Z := LINEIMG_DST_HEIGHT.

(** * Closed forms

    What the loops compute, as functions on lists; the properties below
    relate them to the code. *)

(** The test of [rs_generate_dot_pattern], with C's operators. *)
Definition dot_is_bright (i j : Z) : bool :=
  (j `rem` DOTIMG_STRIPHEIGHT =? DOTIMG_VCENTER)
  && (DOTIMG_HCENTER <=? i)
  && (i <? DOTIMG_SRC_WIDTH - DOTIMG_HCENTER)
  && ((i - j ÷ DOTIMG_STRIPHEIGHT) `rem` DOTIMG_HPIXELSPAN =? DOTIMG_HCENTER).

(** The raster while the loops run: the pixels before linear position [n]
    are final, the others are still dark. *)
Definition dot_painted (len : nat) (n : Z) (buf : list Z) : Prop :=
  length buf = len ∧
  ∀ p, 0 ≤ p < DOTIMG_SRC_WIDTH * DOTIMG_SRC_HEIGHT →
    buf !! Z.to_nat p =
      Some (if (p <? n) && dot_is_bright (p `mod` DOTIMG_SRC_WIDTH) (p `div` DOTIMG_SRC_WIDTH)
            then BRIGHT else DARK).

(** The line raster while the loop runs: the rows before [j] are final,
    the others are still dark. *)
Definition line_painted (len : nat) (j : Z) (buf : list Z) : Prop :=
  length buf = len ∧
  ∀ p, 0 ≤ p < LINEIMG_SRC_WIDTH * LINEIMG_SRC_HEIGHT →
    buf !! Z.to_nat p =
      Some (if (p `div` LINEIMG_SRC_WIDTH <? j)
               && (p `mod` LINEIMG_SRC_WIDTH =? LINEIMG_SRC_WIDTH ÷ 2)
            then BRIGHT else DARK).

Section ClosedForms.
Context `{Libm}.

(** The value [read_pixel] returns for an access inside the buffer. *)
Definition pixel (buf : list Z) (stride x y srgb : Z) : float :=
  default 0%float (read_pixel buf stride x y srgb).

(** The rescale branch shared by the two analyzers, on a pair
    (offset, weight). *)
Definition rescale (scale_factor : float) (s : float * float) : float * float :=
  if (scale_factor <? 1.0)%float then (s.1, (s.2 / scale_factor)%float)
  else ((s.1 / scale_factor)%float, s.2).

(** The source columns of the dots of a strip. *)
Definition dot_centers (strip : Z) : list Z :=
  range_step (DOTIMG_HCENTER + strip) (DOTIMG_SRC_WIDTH - DOTIMG_HCENTER)
    DOTIMG_HPIXELSPAN.

(** [tmp_offset] for the dot at source column [k]. *)
Definition candidate_offset (scale_factor : float) (w dstpos k : Z) : float :=
  (of_int dstpos - zero_point scale_factor w k)%float.

(** [offset] after the loop over [k]. *)
Definition nearest_offset (scale_factor : float) (w strip dstpos : Z) : float :=
  fold_left (λ offset k,
      let tmp_offset := (of_int dstpos - zero_point scale_factor w k)%float in
      if (abs tmp_offset <? abs offset)%float then tmp_offset else offset)
    (dot_centers strip) 10000.0%float.

(** The test that skips a destination column. *)
Definition dot_skipped (scale_factor : float) (w strip dstpos : Z) : bool :=
  (scale_factor * of_int DOTIMG_HCENTER
   <? abs (nearest_offset scale_factor w strip dstpos))%float.

(** [tot] after the loop over [row]. *)
Definition strip_tot (buf : list Z) (w srgb strip dstpos : Z) : float :=
  fold_left (λ tot row,
      (tot + (pixel buf w dstpos (DOTIMG_STRIPHEIGHT * strip + row) srgb - 50.0))%float)
    (seqZ 0 DOTIMG_STRIPHEIGHT) 0.0%float.

(** Offset and weight of a column before the rescale branch. *)
Definition dot_pre_sample (buf : list Z) (w srgb : Z) (scale_factor : float)
    (strip dstpos : Z) : float * float :=
  (nearest_offset scale_factor w strip dstpos,
   (strip_tot buf w srgb strip dstpos / 200.0)%float).

(** What a column contributes to the output. *)
Definition dot_sample (buf : list Z) (w srgb : Z) (scale_factor : float)
    (strip dstpos : Z) : option (float * float) :=
  if dot_skipped scale_factor w strip dstpos then None
  else Some (rescale scale_factor (dot_pre_sample buf w srgb scale_factor strip dstpos)).

(** The samples of the first [n] columns of a strip, and of the first [m]
    strips. *)
Definition dot_strip_samples (buf : list Z) (w srgb : Z) (scale_factor : float)
    (strip n : Z) : list (float * float) :=
  omap (dot_sample buf w srgb scale_factor strip) (seqZ 0 n).

Definition dot_samples (buf : list Z) (w srgb : Z) (scale_factor : float) (m : Z)
    : list (float * float) :=
  seqZ 0 m ≫= λ strip, dot_strip_samples buf w srgb scale_factor strip w.

(** The output of the dot analyzer once the samples [E] are stored. *)
Definition emitted (offsets weights : list float) (E : list (float * float)) : dot_out :=
  DotOut (E.*1 ++ drop (length E) offsets) (E.*2 ++ drop (length E) weights)
    (Z.of_nat (length E)).

(** Offset and weight of a column of the line image before the rescale
    branch. *)
Definition line_pre_sample (buf : list Z) (w h srgb i : Z) : float * float :=
  ((0.5 + of_int i - of_int w / 2.0)%float,
   ((pixel buf w i (line_row h (h ÷ 2) i) srgb - 50.0) / 200.0)%float).

(** [tot] after the first [n] columns. *)
Definition line_total (buf : list Z) (w h srgb n : Z) : float :=
  fold_left (λ tot i, (tot + (line_pre_sample buf w h srgb i).2)%float)
    (seqZ 0 n) 0.0%float.

Definition line_samples (buf : list Z) (w h srgb : Z) (scale_factor : float) (n : Z)
    : list (float * float) :=
  (λ i, rescale scale_factor (line_pre_sample buf w h srgb i)) <$> seqZ 0 n.

(** The pre-rescale samples of the columns that are not skipped, for the
    first [m] strips, in the order of the loops. *)
Definition dot_pre_samples (buf : list Z) (w srgb : Z) (scale_factor : float) (m : Z)
    : list (float * float) :=
  seqZ 0 m ≫= λ strip,
    omap (λ dstpos,
        if dot_skipped scale_factor w strip dstpos then None
        else Some (dot_pre_sample buf w srgb scale_factor strip dstpos))
      (seqZ 0 w).

(** The (strip, column) pairs that are not skipped, for the first [m]
    strips, in the order of the loops. *)
Definition dot_positions (scale_factor : float) (w m : Z) : list (Z * Z) :=
  seqZ 0 m ≫= λ strip,
    (λ dstpos, (strip, dstpos))
      <$> filter (λ dstpos, dot_skipped scale_factor w strip dstpos = false) (seqZ 0 w).

(** Strip-major order: by strip, then by column within a strip. *)
Definition strip_major (p q : Z * Z) : Prop :=
  p.1 < q.1 ∨ (p.1 = q.1 ∧ p.2 < q.2).

End ClosedForms.

(** ** Rounding *)

(** The record after [k] right shifts of [M]: the quotient, the bit shifted
    out last and whether the bits shifted out before it are all zero. *)
Definition shifted (M : Z) (k : Z) (mrs : shr_record) : Prop :=
  ∃ t, 0 ≤ t < 2 ^ (k - 1)
     ∧ M = shr_m mrs * 2 ^ k + (if shr_r mrs then 2 ^ (k - 1) else 0) + t
     ∧ (shr_s mrs = false ↔ t = 0).

(** Zero or finite: neither NaN nor an infinity. *)
Definition SFis_zero_or_finite (x : spec_float) : bool :=
  match x with S754_zero _ | S754_finite _ _ _ => true | _ => false end.

(** ** Instances of libm *)

(** A libm without [pow]: a use of [pow] poisons the result with NaN.  It
    stands for libm in evaluations with [srgb = 0], which never call
    [pow]. *)
Definition libm_no_pow : Libm := {| pow := λ _ _, nan |}.

(** A libm for evaluations with [srgb] set.  The shim calls [pow] with the
    exponent 2.4 only: [x^2.4] is [x^2] times the fifth root of [x^2],
    and the root is computed by Newton's iteration from 1.  It is an
    approximation of [pow], as every libm is. *)
Fixpoint fifth_root_newton (n : nat) (a r : float) : float :=
  match n with
  | O => r
  | S n' => fifth_root_newton n' a ((4 * r + a / (r * r * r * r)) / 5)%float
  end.

Definition pow_12_5 (x : float) : float :=
  (x * x * fifth_root_newton 64 (x * x) 1)%float.

Definition libm_newton : Libm :=
  {| pow x y := if (y =? 2.4)%float then pow_12_5 x else nan |}.

(** ** Whole images *)

(** The dot image and the line image as lists of bytes, row-major. *)
Definition dot_image : list Z :=
  (λ p, if dot_is_bright (p `mod` DOTIMG_SRC_WIDTH) (p `div` DOTIMG_SRC_WIDTH)
        then BRIGHT else DARK)
    <$> seqZ 0 (DOTIMG_SRC_WIDTH * DOTIMG_SRC_HEIGHT).

Definition line_image : list Z :=
  (λ p, if p `mod` LINEIMG_SRC_WIDTH =? LINEIMG_SRC_WIDTH ÷ 2 then BRIGHT else DARK)
    <$> seqZ 0 (LINEIMG_SRC_WIDTH * LINEIMG_SRC_HEIGHT).

(** ** The patterns analysed as they are *)

(** The samples of the line image that has not been resized: one per
    column, at its distance from the middle column, with weight 1 on the
    line and 0 beside it. *)
Definition line_identity_samples : list (float * float) :=
  seqZ 0 LINEIMG_SRC_WIDTH ≫= λ x,
    (λ k, (of_int (x - k), if x =? k then 1.0%float else 0.0%float))
      <$> [LINEIMG_SRC_WIDTH ÷ 2].

(** The samples of the dot image that has not been resized: strip by
    strip and column by column, for the dot of the strip that is within
    [DOTIMG_HCENTER] of the column, the distance to it, with weight 1 on
    the dot and 0 beside it. *)
Definition dot_identity_samples : list (float * float) :=
  seqZ 0 DOTIMG_NUMSTRIPS ≫= λ strip,
    seqZ 0 DOTIMG_SRC_WIDTH ≫= λ x,
      (λ k, (of_int (x - k), if x =? k then 1.0%float else 0.0%float))
        <$> filter (λ k, Z.abs (x - k) ≤ DOTIMG_HCENTER) (dot_centers strip).

(** * Properties *)

(** ** Loops *)

Section Loops.
Context {S : Type}.
Implicit Types (body : Z → S → option S) (s : S).

(** Unit-step loops: an invariant that every iteration re-establishes
    holds at the end, and the loop does not run out of fuel. *)
Lemma c_for_inv (P : Z → S → Prop) body hi fuel i s :
  i ≤ hi → hi - i ≤ Z.of_nat fuel →
  P i s →
  (∀ k s, i ≤ k < hi → P k s → ∃ s', body k s = Some s' ∧ P (k + 1) s') →
  ∃ s', c_for fuel i hi 1 body s = Some s' ∧ P hi s'.
Proof.
  revert i s. induction fuel as [|fuel IH]; intros i s Hle Hfuel HP Hstep.
  - assert (i = hi) as -> by lia. exists s. split; [|done].
    simpl. by rewrite Z.ltb_irrefl.
  - simpl. destruct (Z.ltb_spec i hi) as [Hlt|Hge].
    + destruct (Hstep i s) as (s1 & Hb & HP1); [lia|done|].
      rewrite Hb. simpl. apply IH; [lia|lia|done|].
      intros k s2 Hk. apply Hstep. lia.
    + assert (i = hi) as -> by lia. by exists s.
Qed.

Lemma for_range_inv (P : Z → S → Prop) body lo hi s :
  lo ≤ hi →
  P lo s →
  (∀ k s, lo ≤ k < hi → P k s → ∃ s', body k s = Some s' ∧ P (k + 1) s') →
  ∃ s', for_range lo hi 1 body s = Some s' ∧ P hi s'.
Proof. intros. apply c_for_inv; [done|lia|done|done]. Qed.

(** A loop whose bound is not above its start does nothing. *)
Lemma for_range_empty body lo hi step s :
  hi ≤ lo → for_range lo hi step body s = Some s.
Proof.
  intros Hle. unfold for_range.
  destruct (Z.to_nat (hi - lo)); simpl;
    destruct (Z.ltb_spec lo hi); (done || lia).
Qed.

(** Two bodies that agree on the values the loop variable takes give the
    same loop. *)
Lemma c_for_ext body1 body2 lo hi step fuel i s :
  0 < step → lo ≤ i →
  (∀ k s, lo ≤ k < hi → body1 k s = body2 k s) →
  c_for fuel i hi step body1 s = c_for fuel i hi step body2 s.
Proof.
  intros Hstep. revert i s. induction fuel as [|fuel IH]; intros i s Hi Hext; [done|].
  simpl. destruct (Z.ltb_spec i hi) as [Hlt|Hge]; [|done].
  rewrite Hext by lia. destruct (body2 i s) as [s1|]; simpl; [|done].
  apply IH; [lia|done].
Qed.

Lemma for_range_ext body1 body2 lo hi step s :
  0 < step →
  (∀ k s, lo ≤ k < hi → body1 k s = body2 k s) →
  for_range lo hi step body1 s = for_range lo hi step body2 s.
Proof. intros. by apply c_for_ext with (lo := lo). Qed.

Lemma range_step_nil lo hi step :
  0 < step → hi ≤ lo → range_step lo hi step = [].
Proof.
  intros Hstep Hle. unfold range_step.
  assert ((hi - lo + step - 1) `div` step ≤ 0) as Hn.
  { assert ((hi - lo + step - 1) `div` step < 1); [|lia].
    apply Z.div_lt_upper_bound; lia. }
  by replace (Z.to_nat _) with O by lia.
Qed.

Lemma range_step_cons lo hi step :
  0 < step → lo < hi →
  range_step lo hi step = lo :: range_step (lo + step) hi step.
Proof.
  intros Hstep Hlt. unfold range_step.
  replace (hi - lo + step - 1) with ((hi - (lo + step) + step - 1) + 1 * step) by lia.
  rewrite Z.div_add by lia.
  assert (0 ≤ (hi - (lo + step) + step - 1) `div` step) as Hn.
  { apply Z.div_pos; lia. }
  rewrite Z2Nat.inj_add by lia.
  change (Z.to_nat 1) with 1%nat. rewrite Nat.add_1_r. simpl.
  f_equal; [lia|].
  rewrite <- fmap_S_seq, <- list_fmap_compose.
  apply list_fmap_ext. intros _ n _. simpl. lia.
Qed.

(** With enough fuel the loop is the monadic fold of its body over the
    values of the loop variable. *)
Lemma c_for_foldlM body hi step fuel i s :
  0 < step → hi - i ≤ Z.of_nat fuel →
  c_for fuel i hi step body s = foldlM body (range_step i hi step) s.
Proof.
  intros Hstep. revert i s. induction fuel as [|fuel IH]; intros i s Hfuel.
  - simpl. destruct (Z.ltb_spec i hi); [lia|].
    by rewrite range_step_nil.
  - simpl. destruct (Z.ltb_spec i hi) as [Hlt|Hge].
    + rewrite range_step_cons by done. simpl.
      destruct (body i s) as [s1|]; simpl; [|done]. apply IH. lia.
    + by rewrite range_step_nil.
Qed.

Lemma for_range_foldlM body lo hi step s :
  0 < step →
  for_range lo hi step body s = foldlM body (range_step lo hi step) s.
Proof. intros. apply c_for_foldlM; [done|lia]. Qed.

(** A body that cannot fail folds like [fold_left]. *)
Lemma foldlM_pure {A} (f : A → S → S) (l : list A) s :
  foldlM (λ a s, Some (f a s)) l s = Some (fold_left (λ s a, f a s) l s).
Proof. revert s. induction l as [|a l IH]; intros s; simpl; [done|apply IH]. Qed.

End Loops.

Lemma elem_of_range_step lo hi step k :
  0 < step →
  k ∈ range_step lo hi step ↔ ∃ n : Z, 0 ≤ n ∧ k = lo + step * n ∧ k < hi.
Proof.
  intros Hstep. unfold range_step. rewrite list_elem_of_fmap. split.
  - intros (n & -> & Hn). apply elem_of_seq in Hn.
    exists (Z.of_nat n). split; [lia|]. split; [done|].
    assert (Z.of_nat n < (hi - lo + step - 1) `div` step) as Hlt by lia.
    assert (step * Z.of_nat n < hi - lo); [|lia].
    pose proof (Z.mul_div_le (hi - lo + step - 1) step Hstep).
    nia.
  - intros (n & Hn & -> & Hlt). exists (Z.to_nat n). split; [lia|].
    apply elem_of_seq. split; [lia|]. simpl.
    assert (n + 1 ≤ (hi - lo + step - 1) `div` step); [|lia].
    apply Z.div_le_lower_bound; lia.
Qed.

(** ** Dot pattern *)

Lemma dot_pattern_body_spec j i buf :
  0 ≤ j * DOTIMG_SRC_WIDTH + i < Z.of_nat (length buf) →
  dot_pattern_body j i buf =
    Some (if dot_is_bright i j
          then <[Z.to_nat (j * DOTIMG_SRC_WIDTH + i) := BRIGHT]> buf else buf).
Proof.
  intros Hidx. unfold dot_pattern_body, dot_is_bright, store.
  destruct (_ && _ && _); simpl; [|done].
  destruct (_ =? DOTIMG_HCENTER); [|done].
  destruct (Z.leb_spec 0 (j * DOTIMG_SRC_WIDTH + i)); [|lia].
  destruct (Z.ltb_spec (j * DOTIMG_SRC_WIDTH + i) (Z.of_nat (length buf))); [done|lia].
Qed.

Lemma dot_index_mod j i :
  0 ≤ i < DOTIMG_SRC_WIDTH →
  (j * DOTIMG_SRC_WIDTH + i) `mod` DOTIMG_SRC_WIDTH = i.
Proof.
  intros. rewrite Z.add_comm, Z.mod_add by done. by apply Z.mod_small.
Qed.

Lemma dot_index_div j i :
  0 ≤ i < DOTIMG_SRC_WIDTH →
  (j * DOTIMG_SRC_WIDTH + i) `div` DOTIMG_SRC_WIDTH = j.
Proof.
  intros. rewrite Z.add_comm, Z.div_add by done. rewrite Z.div_small by done. lia.
Qed.

Lemma dot_painted_step len j i buf :
  0 ≤ j < DOTIMG_SRC_HEIGHT → 0 ≤ i < DOTIMG_SRC_WIDTH →
  DOTIMG_SRC_WIDTH * DOTIMG_SRC_HEIGHT ≤ Z.of_nat len →
  dot_painted len (j * DOTIMG_SRC_WIDTH + i) buf →
  ∃ buf', dot_pattern_body j i buf = Some buf'
          ∧ dot_painted len (j * DOTIMG_SRC_WIDTH + i + 1) buf'.
Proof.
  intros Hj Hi Hlen [Hl Hpx].
  assert (0 ≤ j * DOTIMG_SRC_WIDTH + i < DOTIMG_SRC_WIDTH * DOTIMG_SRC_HEIGHT) as Hidx.
  { unfold DOTIMG_SRC_WIDTH, DOTIMG_SRC_HEIGHT, DOTIMG_NUMSTRIPS, DOTIMG_HPIXELSPAN,
      DOTIMG_STRIPHEIGHT in *. lia. }
  rewrite dot_pattern_body_spec by lia.
  eexists; split; [done|].
  split; [destruct (dot_is_bright i j); by rewrite ?length_insert|].
  intros p Hp.
  destruct (decide (p = j * DOTIMG_SRC_WIDTH + i)) as [->|Hne].
  - rewrite dot_index_mod, dot_index_div by done.
    destruct (Z.ltb_spec (j * DOTIMG_SRC_WIDTH + i) (j * DOTIMG_SRC_WIDTH + i + 1)); [|lia].
    simpl. destruct (dot_is_bright i j) eqn:Hb.
    + rewrite list_lookup_insert_eq by lia. done.
    + rewrite Hpx by done. by rewrite Z.ltb_irrefl.
  - replace (p <? j * DOTIMG_SRC_WIDTH + i + 1) with (p <? j * DOTIMG_SRC_WIDTH + i).
    2:{ destruct (Z.ltb_spec p (j * DOTIMG_SRC_WIDTH + i)),
          (Z.ltb_spec p (j * DOTIMG_SRC_WIDTH + i + 1)); (done || lia). }
    destruct (dot_is_bright i j); [|by apply Hpx].
    rewrite list_lookup_insert_ne by lia. by apply Hpx.
Qed.

Lemma memset_dot_painted buf :
  DOTIMG_SRC_WIDTH * DOTIMG_SRC_HEIGHT ≤ Z.of_nat (length buf) →
  ∃ buf', memset buf DARK (DOTIMG_SRC_WIDTH * DOTIMG_SRC_HEIGHT) = Some buf'
          ∧ dot_painted (length buf) 0 buf'.
Proof.
  intros Hlen. unfold memset.
  destruct (Z.leb_spec 0 (DOTIMG_SRC_WIDTH * DOTIMG_SRC_HEIGHT)); [|done].
  destruct (Z.leb_spec (DOTIMG_SRC_WIDTH * DOTIMG_SRC_HEIGHT) (Z.of_nat (length buf))); [|lia].
  eexists; split; [done|]. split.
  - rewrite length_app, length_replicate, length_drop. lia.
  - intros p Hp. rewrite lookup_app_l by (rewrite length_replicate; lia).
    rewrite lookup_replicate_2 by lia.
    destruct (Z.ltb_spec p 0); [lia|]. done.
Qed.

(** The generator succeeds on every buffer that is large enough, and
    paints exactly the pixels that pass its test. *)
Lemma rs_generate_dot_pattern_painted buf :
  DOTIMG_SRC_WIDTH * DOTIMG_SRC_HEIGHT ≤ Z.of_nat (length buf) →
  ∃ img, rs_generate_dot_pattern buf = Some img
         ∧ dot_painted (length buf) (DOTIMG_SRC_WIDTH * DOTIMG_SRC_HEIGHT) img.
Proof.
  intros Hlen. unfold rs_generate_dot_pattern.
  destruct (memset_dot_painted buf Hlen) as (buf1 & -> & H1). simpl.
  replace (DOTIMG_SRC_WIDTH * DOTIMG_SRC_HEIGHT)
    with (DOTIMG_SRC_HEIGHT * DOTIMG_SRC_WIDTH) at 2 by lia.
  apply (for_range_inv (λ j b, dot_painted (length buf) (j * DOTIMG_SRC_WIDTH) b));
    [done|done|].
  intros j b Hj Hb.
  replace ((j + 1) * DOTIMG_SRC_WIDTH) with (j * DOTIMG_SRC_WIDTH + DOTIMG_SRC_WIDTH) by lia.
  apply (for_range_inv (λ i b, dot_painted (length buf) (j * DOTIMG_SRC_WIDTH + i) b));
    [done|by rewrite Z.add_0_r|].
  intros i b' Hi Hb'.
  rewrite Z.add_assoc. by apply dot_painted_step.
Qed.

Lemma dot_is_bright_iff i j :
  0 ≤ j →
  dot_is_bright i j = true ↔
    j `mod` DOTIMG_STRIPHEIGHT = DOTIMG_VCENTER
    ∧ DOTIMG_HCENTER ≤ i < DOTIMG_SRC_WIDTH - DOTIMG_HCENTER
    ∧ (i - j `div` DOTIMG_STRIPHEIGHT) `rem` DOTIMG_HPIXELSPAN = DOTIMG_HCENTER.
Proof.
  intros Hj. unfold dot_is_bright.
  rewrite Z.rem_mod_nonneg, Z.quot_div_nonneg by done.
  rewrite !andb_true_iff, !Z.eqb_eq, Z.leb_le, Z.ltb_lt. tauto.
Qed.

(** C5.  On a buffer that holds the image, [rs_generate_dot_pattern]
    returns a raster whose pixel at column [i] of row [j] is [BRIGHT]
    exactly when [j mod STRIPHEIGHT = VCENTER],
    [HCENTER <= i < SRC_WIDTH - HCENTER] and the sign-of-dividend
    remainder of [i - j / STRIPHEIGHT] by [HPIXELSPAN] is [HCENTER]; every
    other pixel is [DARK]. *)
Theorem dot_placement_exact (buf : list Z) :
  DOTIMG_SRC_WIDTH * DOTIMG_SRC_HEIGHT ≤ Z.of_nat (length buf) →
  ∃ img, rs_generate_dot_pattern buf = Some img ∧
    ∀ i j, 0 ≤ i < DOTIMG_SRC_WIDTH → 0 ≤ j < DOTIMG_SRC_HEIGHT →
      ∃ px, img !! Z.to_nat (j * DOTIMG_SRC_WIDTH + i) = Some px ∧
        (px = BRIGHT ↔
           j `mod` DOTIMG_STRIPHEIGHT = DOTIMG_VCENTER
           ∧ DOTIMG_HCENTER ≤ i < DOTIMG_SRC_WIDTH - DOTIMG_HCENTER
           ∧ (i - j `div` DOTIMG_STRIPHEIGHT) `rem` DOTIMG_HPIXELSPAN = DOTIMG_HCENTER) ∧
        (px ≠ BRIGHT → px = DARK).
Proof.
  intros Hlen.
  destruct (rs_generate_dot_pattern_painted buf Hlen) as (img & Himg & _ & Hpx).
  exists img. split; [done|]. intros i j Hi Hj.
  assert (0 ≤ j * DOTIMG_SRC_WIDTH + i < DOTIMG_SRC_WIDTH * DOTIMG_SRC_HEIGHT) as Hidx.
  { unfold DOTIMG_SRC_WIDTH, DOTIMG_SRC_HEIGHT, DOTIMG_NUMSTRIPS, DOTIMG_HPIXELSPAN,
      DOTIMG_STRIPHEIGHT in *. lia. }
  rewrite (Hpx _ Hidx), dot_index_mod, dot_index_div by done.
  destruct (Z.ltb_spec (j * DOTIMG_SRC_WIDTH + i) (DOTIMG_SRC_WIDTH * DOTIMG_SRC_HEIGHT));
    [|lia].
  simpl. pose proof (dot_is_bright_iff i j ltac:(lia)) as Hiff.
  destruct (dot_is_bright i j); eexists; (split; [done|]); split; try done.
  - split; [by intros _; apply Hiff|done].
  - split; [discriminate|]. intros Hc. apply Hiff in Hc. discriminate.
Qed.

Lemma dot_placement_exact_witness :
  let buf := replicate (Z.to_nat 153175) 0 in
  DOTIMG_SRC_WIDTH * DOTIMG_SRC_HEIGHT ≤ Z.of_nat (length buf) ∧
  ∃ img, rs_generate_dot_pattern buf = Some img ∧
    ∀ i j, 0 ≤ i < DOTIMG_SRC_WIDTH → 0 ≤ j < DOTIMG_SRC_HEIGHT →
      ∃ px, img !! Z.to_nat (j * DOTIMG_SRC_WIDTH + i) = Some px ∧
        (px = BRIGHT ↔
           j `mod` DOTIMG_STRIPHEIGHT = DOTIMG_VCENTER
           ∧ DOTIMG_HCENTER ≤ i < DOTIMG_SRC_WIDTH - DOTIMG_HCENTER
           ∧ (i - j `div` DOTIMG_STRIPHEIGHT) `rem` DOTIMG_HPIXELSPAN = DOTIMG_HCENTER) ∧
        (px ≠ BRIGHT → px = DARK).
Proof.
  assert (DOTIMG_SRC_WIDTH * DOTIMG_SRC_HEIGHT
          ≤ Z.of_nat (length (replicate (Z.to_nat 153175) 0))) as Hlen.
  { rewrite length_replicate. vm_compute. discriminate. }
  split; [exact Hlen|].
  apply (dot_placement_exact (replicate (Z.to_nat 153175) 0)). exact Hlen.
Defined.

(** Two pixels of the generated image, read back by evaluation: the first
    dot of strip 0 and its dark left neighbour. *)
Example dot_pattern_first_dot :
  (img ← rs_generate_dot_pattern (replicate (Z.to_nat 153175) 0);
   Some (img !! Z.to_nat (5 * 557 + 12), img !! Z.to_nat (5 * 557 + 11)))
  = Some (Some 250, Some 50).
Proof. vm_compute. reflexivity. Qed.

(** For the columns and strips of the generator, the two remainders agree
    on the value [HCENTER]: [i - strip] is at least [-12], and a negative
    number in that range is congruent to 13..24 modulo 25. *)
Lemma dot_rem_mod_agree i strip :
  DOTIMG_HCENTER ≤ i < DOTIMG_SRC_WIDTH - DOTIMG_HCENTER →
  0 ≤ strip < DOTIMG_NUMSTRIPS →
  DOTIMG_HCENTER - (DOTIMG_NUMSTRIPS - 1) ≤ i - strip
  ∧ ((i - strip) `rem` DOTIMG_HPIXELSPAN = DOTIMG_HCENTER
     ↔ (i - strip) `mod` DOTIMG_HPIXELSPAN = DOTIMG_HCENTER).
Proof.
  change DOTIMG_HCENTER with 12. change DOTIMG_NUMSTRIPS with 25.
  change DOTIMG_HPIXELSPAN with 25. change DOTIMG_SRC_WIDTH with 557.
  intros Hi Hs. split; [lia|].
  destruct (Z.le_gt_cases 0 (i - strip)) as [Hpos|Hneg].
  - by rewrite Z.rem_mod_nonneg.
  - pose proof (Z.rem_nonpos (i - strip) 25 ltac:(lia) ltac:(lia)).
    replace ((i - strip) `mod` 25) with (i - strip + 25).
    + lia.
    + rewrite <- (Z_mod_plus_full (i - strip) 1 25).
      symmetry. apply Z.mod_small. lia.
Qed.

Lemma dot_pattern_body_floor_mod_same j i buf :
  0 ≤ j < DOTIMG_SRC_HEIGHT →
  dot_pattern_body_floor_mod j i buf = dot_pattern_body j i buf.
Proof.
  intros Hj. unfold dot_pattern_body_floor_mod, dot_pattern_body.
  destruct (_ =? DOTIMG_VCENTER); simpl; [|done].
  destruct (Z.leb_spec DOTIMG_HCENTER i); simpl; [|done].
  destruct (Z.ltb_spec i (DOTIMG_SRC_WIDTH - DOTIMG_HCENTER)); simpl; [|done].
  assert (0 ≤ j ÷ DOTIMG_STRIPHEIGHT < DOTIMG_NUMSTRIPS) as Hs.
  { rewrite Z.quot_div_nonneg by (done || lia).
    split; [apply Z.div_pos; (done || lia)|].
    apply Z.div_lt_upper_bound; [done|].
    unfold DOTIMG_SRC_HEIGHT in Hj. lia. }
  destruct (dot_rem_mod_agree i (j ÷ DOTIMG_STRIPHEIGHT)) as [_ Hiff]; [done|done|].
  destruct (Z.eqb_spec ((i - j ÷ DOTIMG_STRIPHEIGHT) `mod` DOTIMG_HPIXELSPAN) DOTIMG_HCENTER),
    (Z.eqb_spec ((i - j ÷ DOTIMG_STRIPHEIGHT) `rem` DOTIMG_HPIXELSPAN) DOTIMG_HCENTER);
    tauto.
Qed.

(** C9.  Replacing C's [%] on [i - strip] by the never-negative modulus
    gives the same generator: the same result on every buffer, hence a
    byte-identical raster.  The second part is the reason: over the
    columns and strips of the pattern [i - strip] is at least
    [HCENTER - (NUMSTRIPS - 1) = -12], and the two remainders equal
    [HCENTER] together. *)
Theorem dot_pattern_floor_mod_same :
  (∀ buf, rs_generate_dot_pattern_floor_mod buf = rs_generate_dot_pattern buf)
  ∧ (∀ i strip,
       DOTIMG_HCENTER ≤ i < DOTIMG_SRC_WIDTH - DOTIMG_HCENTER →
       0 ≤ strip < DOTIMG_NUMSTRIPS →
       -12 ≤ i - strip
       ∧ ((i - strip) `rem` DOTIMG_HPIXELSPAN = DOTIMG_HCENTER
          ↔ (i - strip) `mod` DOTIMG_HPIXELSPAN = DOTIMG_HCENTER)).
Proof.
  split.
  - intros buf. unfold rs_generate_dot_pattern_floor_mod, rs_generate_dot_pattern.
    destruct (memset _ _ _) as [buf1|]; simpl; [|done].
    apply for_range_ext; [done|]. intros j b Hj.
    apply for_range_ext; [done|]. intros i b' _.
    by apply dot_pattern_body_floor_mod_same.
  - intros i strip Hi Hs. by apply dot_rem_mod_agree.
Qed.

Lemma dot_pattern_floor_mod_same_witness :
  rs_generate_dot_pattern_floor_mod (replicate (Z.to_nat 153175) 0)
  = rs_generate_dot_pattern (replicate (Z.to_nat 153175) 0)
  ∧ -12 ≤ 12 - 24
  ∧ ((12 - 24) `rem` DOTIMG_HPIXELSPAN = DOTIMG_HCENTER
     ↔ (12 - 24) `mod` DOTIMG_HPIXELSPAN = DOTIMG_HCENTER).
Proof.
  split.
  - apply (proj1 dot_pattern_floor_mod_same).
  - apply (proj2 dot_pattern_floor_mod_same 12 24); vm_compute; split; congruence.
Defined.

(** ** Line pattern *)

Lemma memset_line_painted buf :
  LINEIMG_SRC_WIDTH * LINEIMG_SRC_HEIGHT ≤ Z.of_nat (length buf) →
  ∃ buf', memset buf DARK (LINEIMG_SRC_WIDTH * LINEIMG_SRC_HEIGHT) = Some buf'
          ∧ line_painted (length buf) 0 buf'.
Proof.
  intros Hlen. unfold memset.
  destruct (Z.leb_spec 0 (LINEIMG_SRC_WIDTH * LINEIMG_SRC_HEIGHT)); [|done].
  destruct (Z.leb_spec (LINEIMG_SRC_WIDTH * LINEIMG_SRC_HEIGHT) (Z.of_nat (length buf)));
    [|lia].
  eexists; split; [done|]. split.
  - rewrite length_app, length_replicate, length_drop. lia.
  - intros p Hp. rewrite lookup_app_l by (rewrite length_replicate; lia).
    rewrite lookup_replicate_2 by lia.
    assert (0 ≤ p `div` LINEIMG_SRC_WIDTH) by (apply Z.div_pos; (done || lia)).
    destruct (Z.ltb_spec (p `div` LINEIMG_SRC_WIDTH) 0); [lia|]. done.
Qed.

Lemma line_painted_step len j buf :
  0 ≤ j < LINEIMG_SRC_HEIGHT →
  LINEIMG_SRC_WIDTH * LINEIMG_SRC_HEIGHT ≤ Z.of_nat len →
  line_painted len j buf →
  ∃ buf', store buf (j * LINEIMG_SRC_WIDTH + LINEIMG_SRC_WIDTH ÷ 2) BRIGHT = Some buf'
          ∧ line_painted len (j + 1) buf'.
Proof.
  unfold line_painted.
  change LINEIMG_SRC_HEIGHT with 15. change LINEIMG_SRC_WIDTH with 15.
  change (15 ÷ 2) with 7.
  intros Hj Hlen [Hl Hpx]. unfold store.
  destruct (Z.leb_spec 0 (j * 15 + 7)); [|lia].
  destruct (Z.ltb_spec (j * 15 + 7) (Z.of_nat (length buf))); [|lia].
  eexists; split; [done|]. split; [by rewrite length_insert|].
  intros p Hp.
  pose proof (Z.div_mod p 15 ltac:(done)) as Hdm.
  pose proof (Z.mod_pos_bound p 15 ltac:(done)) as Hmod.
  destruct (decide (p = j * 15 + 7)) as [->|Hne].
  - rewrite list_lookup_insert_eq by lia.
    destruct (Z.ltb_spec ((j * 15 + 7) `div` 15) (j + 1)); [|lia].
    destruct (Z.eqb_spec ((j * 15 + 7) `mod` 15) 7); [done|lia].
  - rewrite list_lookup_insert_ne by lia. rewrite Hpx by done.
    destruct (Z.ltb_spec (p `div` 15) j), (Z.ltb_spec (p `div` 15) (j + 1)),
      (Z.eqb_spec (p `mod` 15) 7); simpl; (done || lia).
Qed.

(** X3.  On a buffer that holds the image, [rs_generate_line_pattern]
    returns a raster in which every row is dark except for its middle
    column [LINEIMG_SRC_WIDTH / 2], which is bright. *)
Theorem line_placement_exact (buf : list Z) :
  LINEIMG_SRC_WIDTH * LINEIMG_SRC_HEIGHT ≤ Z.of_nat (length buf) →
  ∃ img, rs_generate_line_pattern buf = Some img ∧
    ∀ i j, 0 ≤ i < LINEIMG_SRC_WIDTH → 0 ≤ j < LINEIMG_SRC_HEIGHT →
      img !! Z.to_nat (j * LINEIMG_SRC_WIDTH + i)
      = Some (if decide (i = LINEIMG_SRC_WIDTH `div` 2) then BRIGHT else DARK).
Proof.
  intros Hlen. unfold rs_generate_line_pattern.
  destruct (memset_line_painted buf Hlen) as (buf1 & -> & H1). cbv zeta. simpl.
  destruct (for_range_inv (λ j b, line_painted (length buf) j b)
    (λ j b, store b (j * LINEIMG_SRC_WIDTH + LINEIMG_SRC_WIDTH ÷ 2) BRIGHT)
    0 LINEIMG_SRC_HEIGHT buf1) as (img & Himg & _ & Hpx); [done|done| |].
  { intros j b Hj Hb. by apply line_painted_step. }
  exists img. split; [exact Himg|]. intros i j Hi Hj.
  change LINEIMG_SRC_HEIGHT with 15 in *. change LINEIMG_SRC_WIDTH with 15 in *.
  rewrite Hpx by lia.
  rewrite (Z.add_comm (j * 15) i), Z.div_add, Z.mod_add by done.
  rewrite Z.div_small, Z.mod_small by done.
  destruct (Z.ltb_spec (0 + j) 15); [|lia].
  change (15 ÷ 2) with 7. change (15 `div` 2) with 7.
  destruct (Z.eqb_spec i 7), (decide (i = 7)); simpl; (done || lia).
Qed.

Lemma line_placement_exact_witness :
  let buf := replicate 225 0 in
  LINEIMG_SRC_WIDTH * LINEIMG_SRC_HEIGHT ≤ Z.of_nat (length buf)
  ∧ ∃ img, rs_generate_line_pattern buf = Some img ∧
      ∀ i j, 0 ≤ i < LINEIMG_SRC_WIDTH → 0 ≤ j < LINEIMG_SRC_HEIGHT →
        img !! Z.to_nat (j * LINEIMG_SRC_WIDTH + i)
        = Some (if decide (i = LINEIMG_SRC_WIDTH `div` 2) then BRIGHT else DARK).
Proof.
  split; [vm_compute; discriminate|].
  apply (line_placement_exact (replicate 225 0)). vm_compute. discriminate.
Defined.

(** The first row of the generated line image. *)
Example line_pattern_first_row :
  take 15 <$> rs_generate_line_pattern (replicate 225 0)
  = Some [50; 50; 50; 50; 50; 50; 50; 250; 50; 50; 50; 50; 50; 50; 50].
Proof. vm_compute. reflexivity. Qed.

(** ** Line rows *)

(** With three rows or more the clamp of [line_row] does nothing. *)
Lemma line_row_unclamped (h i : Z) :
  0 ≤ i → 3 ≤ h →
  line_row h (h ÷ 2) i = h `div` 2 + i `mod` 3 - 1
  ∧ 0 ≤ h `div` 2 + i `mod` 3 - 1 ≤ h - 1.
Proof.
  intros Hi Hh. unfold line_row.
  destruct (Z.leb_spec 3 h) as [_|]; [|lia].
  rewrite Z.rem_mod_nonneg, Z.quot_div_nonneg by lia.
  pose proof (Z.mod_pos_bound i 3 ltac:(lia)) as Hm.
  pose proof (Z.mul_div_le h 2 ltac:(lia)) as Hd1.
  pose proof (Z.mul_succ_div_gt h 2 ltac:(lia)) as Hd2.
  set (y := h `div` 2 + i `mod` 3 - 1) in *.
  assert (0 ≤ y ≤ h - 1) as Hy by (unfold y; lia).
  destruct (Z.ltb_spec y 0); [lia|].
  destruct (Z.leb_spec h y); [lia|]. done.
Qed.

Lemma line_row_degenerate (h scanline i : Z) :
  h < 3 → line_row h scanline i = scanline.
Proof. intros Hh. unfold line_row. destruct (Z.leb_spec 3 h); [lia|done]. Qed.

(** Rows of the three-row rotation and of the degenerate heights. *)
Example line_row_examples :
  (line_row 15 (15 ÷ 2) <$> [0; 1; 2; 3; 4; 5]) = [6; 7; 8; 6; 7; 8]
  ∧ (line_row 2 (2 ÷ 2) <$> [0; 1; 2]) = [1; 1; 1]
  ∧ (line_row 1 (1 ÷ 2) <$> [0; 1; 2]) = [0; 0; 0].
Proof. repeat split. Qed.

Lemma line_row_in_bounds (h i : Z) :
  1 ≤ h → 0 ≤ i → 0 ≤ line_row h (h ÷ 2) i ≤ h - 1.
Proof.
  intros Hh Hi. destruct (Z.le_gt_cases 3 h) as [Hge|Hsmall].
  - destruct (line_row_unclamped h i Hi Hge) as [-> Hin]. done.
  - rewrite line_row_degenerate by lia. rewrite Z.quot_div_nonneg by lia.
    pose proof (Z.mul_div_le h 2 ltac:(lia)).
    pose proof (Z.div_pos h 2 ltac:(lia) ltac:(lia)). lia.
Qed.

(** ** Memory *)

(** Writing right after the part of an array that is already filled. *)
Lemma store_next {A} (arr filled : list A) (k : nat) (x : A) :
  length filled = k →
  (k < length arr)%nat →
  store (filled ++ drop k arr) (Z.of_nat k) x
  = Some ((filled ++ [x]) ++ drop (S k) arr).
Proof.
  intros <- Hlt. unfold store.
  rewrite length_app, length_drop.
  destruct (Z.leb_spec 0 (Z.of_nat (length filled))); [|lia].
  destruct (Z.ltb_spec (Z.of_nat (length filled))
              (Z.of_nat (length filled + (length arr - length filled)))); [|lia].
  simpl. f_equal. rewrite Nat2Z.id.
  destruct (lookup_lt_is_Some_2 arr (length filled) Hlt) as [y Hy].
  rewrite (drop_S _ _ _ Hy).
  rewrite insert_app_r_alt, Nat.sub_diag by lia. simpl.
  by rewrite <- app_assoc.
Qed.

Lemma raster_index (w rows x y : Z) (len : nat) :
  0 ≤ x < w → 0 ≤ y < rows → w * rows ≤ Z.of_nat len →
  0 ≤ y * w + x < Z.of_nat len.
Proof. intros. nia. Qed.

(** In a raster of at most [INT_MAX] pixels no index overflows: neither
    the product nor the sum. *)
Lemma raster_index_int (w rows x y : Z) :
  0 ≤ x < w → 0 ≤ y < rows → w * rows ≤ INT_MAX →
  0 ≤ y * w ≤ INT_MAX ∧ 0 ≤ y * w + x ≤ INT_MAX.
Proof. intros. nia. Qed.

Lemma load_Some {A} (buf : list A) (idx : Z) :
  0 ≤ idx ≤ INT_MAX → load buf idx = buf !! Z.to_nat idx.
Proof.
  intros Hidx. unfold load.
  destruct (Z.ltb_spec idx 0); [lia|].
  destruct (Z.ltb_spec INT_MAX idx); [lia|done].
Qed.

Lemma load_None {A} (buf : list A) (idx : Z) :
  Z.of_nat (length buf) ≤ idx ∨ INT_MAX < idx → load buf idx = None.
Proof.
  intros Hidx. unfold load.
  destruct (Z.ltb_spec idx 0); [done|].
  destruct (Z.ltb_spec INT_MAX idx); [done|]. simpl.
  apply lookup_ge_None_2. lia.
Qed.

Lemma load_lookup {A} (buf : list A) (idx : Z) (a : A) :
  load buf idx = Some a → 0 ≤ idx ≤ INT_MAX ∧ buf !! Z.to_nat idx = Some a.
Proof.
  unfold load.
  destruct (Z.ltb_spec idx 0); [done|].
  destruct (Z.ltb_spec INT_MAX idx); [done|]. simpl. intros Hb. split; [lia|done].
Qed.

(** ** Order of doubles *)

(** [<] on binary64 is a strict partial order (NaN is unordered); the
    facts come from the specification of the primitive comparison. *)

Lemma SFltb_irrefl x : SFltb x x = false.
Proof.
  unfold SFltb. destruct x as [s|s| |s m e]; try destruct s; simpl; try reflexivity;
    rewrite Z.compare_refl, Pos.compare_cont_refl; reflexivity.
Qed.

Ltac sf_order :=
  repeat match goal with
  | b : bool |- _ => destruct b
  | H : context [(?a ?= ?b)%Z] |- _ => destruct (Z.compare_spec a b)
  | |- context [(?a ?= ?b)%Z] => destruct (Z.compare_spec a b)
  | H : context [Pos.compare_cont Eq ?a ?b] |- _ =>
      change (Pos.compare_cont Eq a b) with (Pos.compare a b) in H;
      destruct (Pos.compare_spec a b)
  | |- context [Pos.compare_cont Eq ?a ?b] =>
      change (Pos.compare_cont Eq a b) with (Pos.compare a b);
      destruct (Pos.compare_spec a b)
  end; simpl in *; try (reflexivity || discriminate || lia).

Lemma SFltb_asym x y : SFltb x y = true → SFltb y x = false.
Proof.
  unfold SFltb. destruct x as [s|s| |s m e], y as [s'|s'| |s' m' e']; simpl; intros Hxy;
    try discriminate; try reflexivity; sf_order.
Qed.

Lemma SFltb_trans x y z : SFltb x y = true → SFltb y z = true → SFltb x z = true.
Proof.
  unfold SFltb.
  destruct x as [s|s| |s m e], y as [s'|s'| |s' m' e'], z as [s''|s''| |s'' m'' e''];
    simpl; intros Hxy Hyz; try discriminate; try reflexivity; sf_order.
Qed.

Lemma float_ltb_irrefl (x : float) : (x <? x)%float = false.
Proof. rewrite ltb_spec. apply SFltb_irrefl. Qed.

Lemma float_ltb_asym (x y : float) : (x <? y)%float = true → (y <? x)%float = false.
Proof. rewrite !ltb_spec. apply SFltb_asym. Qed.

Lemma float_ltb_trans (x y z : float) :
  (x <? y)%float = true → (y <? z)%float = true → (x <? z)%float = true.
Proof. rewrite !ltb_spec. apply SFltb_trans. Qed.

(** Two doubles are different when [==] tells them apart. *)
Lemma float_neq (x y : float) : (x =? y)%float = false → (x =? x)%float = true → x ≠ y.
Proof. intros Hxy Hxx ->. congruence. Qed.

(** ** Rounding of binary64 operations *)

(** The facts below come from the specification of the primitive
    operations ([SpecFloat], [FloatAxioms]): mantissas are integers, a
    double in [0.5, 1) is [m * 2^-53] and a double in [128, 256) is
    [n * 2^-45] with [2^52 <= m, n < 2^53]. *)

Lemma digits2_pos_bounds (m : positive) :
  2 ^ (Z.pos (digits2_pos m) - 1) ≤ Z.pos m < 2 ^ Z.pos (digits2_pos m).
Proof.
  induction m as [m IH|m IH|]; simpl digits2_pos.
  - rewrite Pos2Z.inj_succ. replace (Z.succ (Z.pos (digits2_pos m)) - 1)
      with (Z.succ (Z.pos (digits2_pos m) - 1)) by lia.
    rewrite !Z.pow_succ_r by lia. lia.
  - rewrite Pos2Z.inj_succ. replace (Z.succ (Z.pos (digits2_pos m)) - 1)
      with (Z.succ (Z.pos (digits2_pos m) - 1)) by lia.
    rewrite !Z.pow_succ_r by lia. lia.
  - simpl. lia.
Qed.

Lemma Zdigits2_unique (M d : Z) :
  0 < d → 2 ^ (d - 1) ≤ M < 2 ^ d → Zdigits2 M = d.
Proof.
  intros Hd HM. assert (0 < M) as HMpos.
  { pose proof (Z.pow_pos_nonneg 2 (d - 1) ltac:(lia) ltac:(lia)). lia. }
  destruct M as [|p|p]; try lia. simpl.
  pose proof (digits2_pos_bounds p) as Hp.
  set (a := Z.pos (digits2_pos p)) in *.
  destruct (Z.lt_trichotomy a d) as [Hlt|[Heq|Hgt]]; [|done|].
  - assert (2 ^ a ≤ 2 ^ (d - 1)) by (apply Z.pow_le_mono_r; lia). lia.
  - assert (2 ^ d ≤ 2 ^ (a - 1)) by (apply Z.pow_le_mono_r; lia). lia.
Qed.

Lemma shr_1_spec (m : Z) (r s : bool) :
  0 ≤ m →
  shr_1 (Build_shr_record m r s) = Build_shr_record (m `div` 2) (Z.odd m) (r || s).
Proof.
  intros Hm. destruct m as [|[p|p|]|]; try lia; simpl; try reflexivity.
  - f_equal. rewrite Pos2Z.inj_xI. rewrite Z.add_comm, Z.mul_comm, Z.div_add by lia. done.
  - f_equal. rewrite Pos2Z.inj_xO. rewrite Z.mul_comm, Z.div_mul by lia. done.
Qed.

Lemma shifted_first (M : Z) :
  0 ≤ M → shifted M 1 (shr_1 (Build_shr_record M false false)).
Proof.
  intros HM. rewrite shr_1_spec by done. exists 0. simpl.
  split; [lia|]. split; [|done].
  rewrite (Z.div_mod M 2) at 1 by lia. rewrite Zmod_odd.
  destruct (Z.odd M); lia.
Qed.

Lemma shifted_next (M k : Z) (mrs : shr_record) :
  1 ≤ k → 0 ≤ shr_m mrs → shifted M k mrs → shifted M (k + 1) (shr_1 mrs).
Proof.
  intros Hk Hm (t & Ht & HM & Hs). destruct mrs as [m r s].
  cbn [shr_m shr_r shr_s] in *.
  rewrite shr_1_spec by done.
  exists ((if r then 2 ^ (k - 1) else 0) + t). cbn [shr_m shr_r shr_s].
  replace (k + 1 - 1) with k by lia.
  assert (2 ^ k = 2 * 2 ^ (k - 1)) as Hpow.
  { rewrite <- Z.pow_succ_r by lia. f_equal. lia. }
  assert (2 ^ (k + 1) = 2 * 2 ^ k) as Hpow'.
  { rewrite <- Z.pow_succ_r by lia. f_equal. }
  pose proof (Z.pow_pos_nonneg 2 (k - 1) ltac:(lia) ltac:(lia)) as Hpos.
  split; [destruct r; lia|]. split.
  - rewrite HM. rewrite (Z.div_mod m 2) at 1 by lia. rewrite Zmod_odd.
    destruct (Z.odd m), r; nia.
  - destruct Hs as [Hs1 Hs2].
    destruct r, s; simpl; (split; [intros Hx|intros Hx]); try done; try lia.
    all: try (specialize (Hs1 eq_refl); lia).
    all: try (assert (t ≠ 0) by (intros ->; by specialize (Hs2 eq_refl)); lia).
Qed.

Lemma shifted_iter (M : Z) (n : nat) :
  0 ≤ M →
  shifted M (Z.of_nat (S n)) (Nat.iter (S n) shr_1 (Build_shr_record M false false))
  ∧ 0 ≤ shr_m (Nat.iter (S n) shr_1 (Build_shr_record M false false)).
Proof.
  intros HM. induction n as [|n [IH IHm]].
  - change (Nat.iter 1 shr_1 ?x) with (shr_1 x).
    split; [by apply shifted_first|]. rewrite shr_1_spec by done.
    cbn [shr_m]. by apply Z.div_pos.
  - change (Nat.iter (S (S n)) shr_1 ?x) with (shr_1 (Nat.iter (S n) shr_1 x)).
    split.
    + replace (Z.of_nat (S (S n))) with (Z.of_nat (S n) + 1) by lia.
      apply shifted_next; [lia|done|done].
    + destruct (Nat.iter (S n) shr_1 _) as [m r s]. cbn [shr_m] in IHm.
      rewrite shr_1_spec by done. cbn [shr_m]. by apply Z.div_pos.
Qed.

Lemma valid_finite_digits (s : bool) (m : positive) (e : Z) :
  valid_binary (S754_finite s m e) = true → -1074 < e →
  Z.pos (digits2_pos m) = 53.
Proof.
  unfold SpecFloat.valid_binary, bounded, canonical_mantissa, fexp, emin, prec, emax.
  intros Hv He. apply andb_true_iff in Hv as [Hc _].
  apply Z.eqb_eq in Hc. lia.
Qed.

Lemma SFltb_finite_pos (m1 m2 : positive) (e1 e2 : Z) :
  SFltb (S754_finite false m1 e1) (S754_finite false m2 e2) = true ↔
  e1 < e2 ∨ (e1 = e2 ∧ Z.pos m1 < Z.pos m2).
Proof.
  cbv beta iota delta [SFltb SFcompare].
  change (Pos.compare_cont Eq m1 m2) with (Pos.compare m1 m2).
  destruct (Z.compare_spec e1 e2), (Pos.compare_spec m1 m2);
    split; intros Hx; try discriminate; try reflexivity; lia.
Qed.

(** A double strictly between 25/32 and 1: its mantissa and exponent. *)
Lemma float_between_25_32_and_1 (d : float) :
  (0.78125 <? d)%float = true → (d <? 1)%float = true →
  ∃ m, Prim2SF d = S754_finite false m (-53)
       ∧ 25 * 2 ^ 48 < Z.pos m < 2 ^ 53.
Proof.
  rewrite !ltb_spec. intros Hlo Hhi.
  pose proof (Prim2SF_valid d) as Hv.
  replace (Prim2SF 0.78125) with (S754_finite false 7036874417766400 (-53)) in Hlo
    by (vm_compute; reflexivity).
  replace (Prim2SF 1) with (S754_finite false 4503599627370496 (-52)) in Hhi
    by (vm_compute; reflexivity).
  destruct (Prim2SF d) as [s|s| |s m e]; try discriminate;
    try (destruct s; discriminate).
  destruct s; [discriminate|].
  apply SFltb_finite_pos in Hlo, Hhi.
  assert (-1074 < e) as He by lia.
  pose proof (valid_finite_digits _ _ _ Hv He) as Hd.
  pose proof (digits2_pos_bounds m) as Hb. rewrite Hd in Hb.
  change (2 ^ (53 - 1)) with 4503599627370496 in Hb.
  change (2 ^ 53) with 9007199254740992 in Hb.
  change (2 ^ 53) with 9007199254740992.
  change (25 * 2 ^ 48) with 7036874417766400.
  assert (e = -53) as -> by lia.
  exists m. split; [done|]. lia.
Qed.

Lemma loc_of_shr_record_of_loc (m : Z) (l : location) :
  loc_of_shr_record (shr_record_of_loc m l) = l
  ∧ shr_m (shr_record_of_loc m l) = m.
Proof. by destruct l as [|[| |]]. Qed.

(** Rounding a 53-bit mantissa that needs no shift. *)
Lemma binary_round_aux_53 (s : bool) (q e : Z) (l : location) :
  2 ^ 52 ≤ q → round_nearest_even q l < 2 ^ 53 → q ≤ round_nearest_even q l →
  -1074 < e ≤ 971 →
  binary_round_aux prec emax s q e l
  = S754_finite s (Z.to_pos (round_nearest_even q l)) e.
Proof.
  intros Hq Hn Hqn He.
  assert (Zdigits2 q = 53) as Hdq by (apply Zdigits2_unique; [done|]; lia).
  assert (Zdigits2 (round_nearest_even q l) = 53) as Hdn
    by (apply Zdigits2_unique; [done|]; lia).
  unfold binary_round_aux, shr_fexp. rewrite Hdq.
  assert (fexp prec emax (53 + e) - e = 0) as ->
    by (unfold fexp, emin, prec, emax; lia).
  cbn [shr].
  destruct (loc_of_shr_record_of_loc q l) as [-> ->].
  rewrite Hdn.
  assert (fexp prec emax (53 + e) - e = 0) as ->
    by (unfold fexp, emin, prec, emax; lia).
  cbn [shr shr_record_of_loc shr_m].
  assert (0 < round_nearest_even q l) as Hpos.
  { pose proof (Z.pow_pos_nonneg 2 52 ltac:(lia) ltac:(lia)). lia. }
  destruct (round_nearest_even q l) as [|n|n]; try lia.
  unfold emax, prec. destruct (Z.leb_spec e (1024 - 53)); [done|lia].
Qed.

(** Round to nearest of a quotient with remainder [r]. *)
Lemma round_new_location (m q r : Z) :
  0 < m → 0 ≤ r < m →
  let n := round_nearest_even q (new_location m r) in
  (n = q ∧ 2 * r ≤ m) ∨ (n = q + 1 ∧ m ≤ 2 * r).
Proof.
  intros Hm Hr. unfold new_location, new_location_even, new_location_odd.
  destruct (Z.even m) eqn:Hev; destruct (Z.eqb_spec r 0) as [->|Hr0]; simpl;
    try (left; lia).
  - destruct (Z.compare_spec (2 * r) m); simpl.
    + destruct (Z.even q); [left|right]; lia.
    + left; lia.
    + right; lia.
  - destruct (Z.compare_spec (2 * r + 1) m); simpl.
    + left; lia.
    + left; lia.
    + right; lia.
Qed.

(** 200 / d for a double d in (25/32, 1) with mantissa [m]: a double in
    (200, 256) with mantissa [n], and [m * n] is within [2^52] of
    [200 * 2^98]. *)
Lemma SFdiv_200 (m : positive) :
  7036874417766400 < Z.pos m < 9007199254740992 →
  ∃ n : positive,
    SFdiv prec emax (S754_finite false 7036874417766400 (-45)) (S754_finite false m (-53))
    = S754_finite false n (-45)
    ∧ ∃ eps, Z.pos m * Z.pos n = 63382530011411470074835160268800 + eps
             ∧ -4503599627370496 < eps < 4503599627370496.
Proof.
  intros Hm.
  assert (Zdigits2 (Z.pos m) = 53) as Hdm.
  { apply Zdigits2_unique; [done|]. change (2 ^ (53 - 1)) with 4503599627370496.
    change (2 ^ 53) with 9007199254740992. lia. }
  cbv beta iota zeta delta [SFdiv SFdiv_core_binary].
  rewrite Hdm.
  replace (fexp prec emax (Zdigits2 7036874417766400 + -45 - (53 + -53)) `min` (-45 - -53))
    with (-45) by (vm_compute; reflexivity).
  change (-45 - -53 - -45) with 53. cbv beta iota.
  replace (7036874417766400 ≪ 53) with 63382530011411470074835160268800
    by (vm_compute; reflexivity).
  pose proof (Z_div_mod 63382530011411470074835160268800 (Z.pos m) ltac:(lia)) as Hdiv.
  destruct (Z.div_eucl 63382530011411470074835160268800 (Z.pos m)) as [q r].
  destruct Hdiv as [Hdiv Hr].
  assert (7036874417766400 ≤ q) as Hqlo by nia.
  assert (q ≤ 9007199254740990) as Hqhi by nia.
  pose proof (round_new_location (Z.pos m) q r ltac:(lia) Hr) as Hround.
  cbv zeta in Hround.
  change (xorb false false) with false.
  rewrite binary_round_aux_53.
  - exists (Z.to_pos (round_nearest_even q (new_location (Z.pos m) r))).
    split; [done|]. rewrite Z2Pos.id by lia.
    destruct Hround as [[-> Hle]|[-> Hle]].
    + exists (- r). split; lia.
    + exists (Z.pos m - r). split; lia.
  - change (2 ^ 52) with 4503599627370496. lia.
  - change (2 ^ 53) with 9007199254740992. lia.
  - lia.
  - lia.
Qed.

(** The product of the two mantissas rounds back to 200. *)
Lemma SFmul_200 (m n : positive) (eps : Z) :
  Z.pos m * Z.pos n = 63382530011411470074835160268800 + eps →
  -4503599627370496 < eps < 4503599627370496 →
  SFmul prec emax (S754_finite false m (-53)) (S754_finite false n (-45))
  = S754_finite false 7036874417766400 (-45).
Proof.
  intros Hmn Heps.
  cbv beta iota zeta delta [SFmul]. change (xorb false false) with false.
  rewrite Pos2Z.inj_mul. change (-53 + -45) with (-98).
  set (P := Z.pos m * Z.pos n) in *.
  assert (Zdigits2 P = 106) as HdP.
  { apply Zdigits2_unique; [done|].
    change (2 ^ (106 - 1)) with 40564819207303340847894502572032.
    change (2 ^ 106) with 81129638414606681695789005144064. lia. }
  unfold binary_round_aux, shr_fexp. rewrite HdP.
  replace (fexp prec emax (106 + -98) - -98) with 53 by (vm_compute; reflexivity).
  cbn [shr shr_record_of_loc].
  change (SpecFloat.iter_pos shr_1 53%positive ?x) with (Nat.iter 53%nat shr_1 x).
  destruct (shifted_iter P 52 ltac:(lia)) as [(t & Ht & HP & Hs) Hmf].
  change (Z.of_nat 53) with 53 in *.
  change (2 ^ (53 - 1)) with 4503599627370496 in *.
  change (2 ^ 53) with 9007199254740992 in *.
  destruct (Nat.iter 53 shr_1 _) as [mf r s].
  cbn [shr_m shr_r shr_s] in *.
  assert (round_nearest_even mf (loc_of_shr_record (Build_shr_record mf r s))
          = 7036874417766400) as ->.
  { destruct Hs as [Hs1 Hs2].
    destruct r, s; cbn [loc_of_shr_record round_nearest_even].
    - assert (t ≠ 0) by (intros ->; by specialize (Hs2 eq_refl)). lia.
    - specialize (Hs1 eq_refl). lia.
    - assert (t ≠ 0) by (intros ->; by specialize (Hs2 eq_refl)). lia.
    - specialize (Hs1 eq_refl). lia. }
  reflexivity.
Qed.

(** In binary64, [d * (200 / d)] is exactly 200 for every [d] strictly
    between 25/32 and 1. *)
Lemma mul_div_200 (d : float) :
  (0.78125 <? d)%float = true → (d <? 1)%float = true →
  (d * (200 / d))%float = 200%float.
Proof.
  intros Hlo Hhi. apply Prim2SF_inj. rewrite mul_spec, div_spec.
  destruct (float_between_25_32_and_1 d Hlo Hhi) as (m & -> & Hm).
  change (25 * 2 ^ 48) with 7036874417766400 in Hm.
  change (2 ^ 53) with 9007199254740992 in Hm.
  replace (Prim2SF 200) with (S754_finite false 7036874417766400 (-45))
    by (vm_compute; reflexivity).
  destruct (SFdiv_200 m Hm) as (n & Hdiv & eps & Hmn & Heps).
  unfold SF64div, SF64mul. rewrite Hdiv. by apply SFmul_200 with (eps := eps).
Qed.

(** The operands of a difference that is a finite nonzero double are
    themselves zero or finite. *)
Lemma SFsub_finite_operands (x y : spec_float) (s : bool) (m : positive) (e : Z) :
  SFsub prec emax x y = S754_finite s m e →
  SFis_zero_or_finite x = true ∧ SFis_zero_or_finite y = true.
Proof.
  destruct x as [sx|sx| |sx mx ex], y as [sy|sy| |sy my ey]; simpl;
    try discriminate; try done;
    destruct sx, sy; discriminate.
Qed.

Lemma SFsub_diag (x : spec_float) :
  SFis_zero_or_finite x = true → SFsub prec emax x x = S754_zero false.
Proof.
  destruct x as [sx|sx| |sx mx ex]; try discriminate; intros _.
  - by destruct sx.
  - cbv beta iota zeta delta [SFsub]. by rewrite Z.sub_diag.
Qed.

(** [(s - s) * (200 / d) + 50] is exactly 50 when [d = s' - s] lies
    strictly between 25/32 and 1. *)
Lemma sub_self_mul_add_50 (s s' : float) :
  (0.78125 <? s' - s)%float = true → (s' - s <? 1)%float = true →
  ((s - s) * (200 / (s' - s)) + 50)%float = 50%float.
Proof.
  intros Hlo Hhi. apply Prim2SF_inj.
  rewrite add_spec, mul_spec, div_spec, (sub_spec s s).
  destruct (float_between_25_32_and_1 _ Hlo Hhi) as (m & Hd & Hm).
  change (25 * 2 ^ 48) with 7036874417766400 in Hm.
  change (2 ^ 53) with 9007199254740992 in Hm.
  rewrite Hd.
  rewrite sub_spec in Hd. apply SFsub_finite_operands in Hd as [_ Hs].
  unfold SF64sub. rewrite (SFsub_diag _ Hs).
  replace (Prim2SF 200) with (S754_finite false 7036874417766400 (-45))
    by (vm_compute; reflexivity).
  destruct (SFdiv_200 m Hm) as (n & Hdiv & _).
  unfold SF64div. rewrite Hdiv.
  vm_compute. reflexivity.
Qed.

(** ** Analysis in closed form *)

Section Analysis.
Context `{Libm}.

Lemma read_pixel_Some buf stride x y srgb :
  0 ≤ y * stride + x < Z.of_nat (length buf) →
  y * stride + x ≤ INT_MAX →
  read_pixel buf stride x y srgb = Some (pixel buf stride x y srgb).
Proof.
  intros Hidx Hint. unfold pixel, read_pixel. rewrite load_Some by lia.
  destruct (lookup_lt_is_Some_2 buf (Z.to_nat (y * stride + x))) as [b Hb]; [lia|].
  rewrite Hb. simpl. by destruct (negb _).
Qed.

(** A read that succeeds at coordinates and a stride that are not negative
    has computed its index without overflow: the product and the sum are
    [int] values. *)
Lemma read_pixel_no_overflow buf stride x y srgb :
  0 ≤ x → 0 ≤ y → 0 ≤ stride →
  is_Some (read_pixel buf stride x y srgb) →
  0 ≤ y * stride ≤ INT_MAX ∧ 0 ≤ y * stride + x ≤ INT_MAX.
Proof.
  intros Hx Hy Hstride [v Hv]. unfold read_pixel in Hv.
  destruct (load buf (y * stride + x)) as [b|] eqn:Hb; [|done].
  apply load_lookup in Hb as [Hidx _]. nia.
Qed.

(** [pixel] is the value of a read that succeeds. *)
Lemma pixel_of_read buf stride x y srgb v :
  read_pixel buf stride x y srgb = Some v → pixel buf stride x y srgb = v.
Proof. unfold pixel. by intros ->. Qed.

Lemma seqZ_snoc (m n : Z) : 0 ≤ n → seqZ m (n + 1) = seqZ m n ++ [m + n].
Proof. intros Hn. by rewrite seqZ_app by lia. Qed.

Lemma nearest_loop_spec scale_factor w strip dstpos :
  for_range (DOTIMG_HCENTER + strip) (DOTIMG_SRC_WIDTH - DOTIMG_HCENTER)
    DOTIMG_HPIXELSPAN (nearest_step scale_factor w dstpos) 10000.0%float
  = Some (nearest_offset scale_factor w strip dstpos).
Proof.
  rewrite for_range_foldlM by done. unfold nearest_step.
  by rewrite (foldlM_pure (λ k offset,
    if (abs (of_int dstpos - zero_point scale_factor w k) <? abs offset)%float
    then (of_int dstpos - zero_point scale_factor w k)%float else offset)).
Qed.

Lemma strip_sum_spec buf w srgb strip dstpos :
  0 ≤ strip < DOTIMG_NUMSTRIPS → 0 ≤ dstpos < w →
  w * DOTIMG_DST_HEIGHT ≤ Z.of_nat (length buf) →
  w * DOTIMG_DST_HEIGHT ≤ INT_MAX →
  for_range 0 DOTIMG_STRIPHEIGHT 1 (strip_sum_step buf w srgb strip dstpos) 0.0%float
  = Some (strip_tot buf w srgb strip dstpos).
Proof.
  intros Hs Hd Hlen Hint.
  assert (∀ row, 0 ≤ row < DOTIMG_STRIPHEIGHT →
            0 ≤ DOTIMG_STRIPHEIGHT * strip + row < DOTIMG_DST_HEIGHT) as Hy.
  { unfold DOTIMG_DST_HEIGHT, DOTIMG_SRC_HEIGHT, DOTIMG_NUMSTRIPS, DOTIMG_HPIXELSPAN,
      DOTIMG_STRIPHEIGHT in *. lia. }
  destruct (for_range_inv (λ row tot, tot =
      fold_left (λ tot row,
        (tot + (pixel buf w dstpos (DOTIMG_STRIPHEIGHT * strip + row) srgb - 50.0))%float)
        (seqZ 0 row) 0.0%float)
    (strip_sum_step buf w srgb strip dstpos) 0 DOTIMG_STRIPHEIGHT 0.0%float)
    as (tot & -> & ->); [done|done| |done].
  intros row tot Hrow ->. unfold strip_sum_step.
  rewrite read_pixel_Some.
  - simpl. eexists; split; [done|].
    rewrite seqZ_snoc, fold_left_app by lia. done.
  - apply raster_index with (rows := DOTIMG_DST_HEIGHT); [done|by apply Hy|done].
  - by apply (raster_index_int w DOTIMG_DST_HEIGHT); [|apply Hy|].
Qed.

Lemma emitted_snoc offsets weights E s :
  DotOut ((E.*1 ++ [s.1]) ++ drop (S (length E)) offsets)
         ((E.*2 ++ [s.2]) ++ drop (S (length E)) weights)
         (Z.of_nat (length E) + 1)
  = emitted offsets weights (E ++ [s]).
Proof.
  unfold emitted. rewrite !fmap_app, length_app. simpl.
  rewrite Nat.add_1_r. f_equal. lia.
Qed.

(** One iteration of the loop over [dstpos], on a state that holds the
    samples [E]: the column is skipped or its sample is stored next. *)
Lemma analyze_dot_column_spec buf w srgb scale_factor strip dstpos offsets weights E :
  0 ≤ strip < DOTIMG_NUMSTRIPS → 0 ≤ dstpos < w →
  w * DOTIMG_DST_HEIGHT ≤ Z.of_nat (length buf) →
  w * DOTIMG_DST_HEIGHT ≤ INT_MAX →
  (length E < length offsets)%nat → (length E < length weights)%nat →
  analyze_dot_column buf w srgb scale_factor strip dstpos (emitted offsets weights E)
  = Some (emitted offsets weights
            (E ++ option_list (dot_sample buf w srgb scale_factor strip dstpos))).
Proof.
  intros Hs Hd Hlen Hint Ho Hw. unfold analyze_dot_column, dot_sample, dot_skipped.
  rewrite nearest_loop_spec. simpl.
  destruct (_ <? abs _)%float; simpl.
  { by rewrite app_nil_r. }
  rewrite strip_sum_spec by done. simpl.
  unfold rescale, dot_pre_sample. simpl.
  destruct (scale_factor <? 1)%float; simpl;
    rewrite !store_next by (by rewrite ?length_fmap);
    simpl; f_equal; apply (emitted_snoc _ _ _ (_, _)).
Qed.

Lemma length_omap_le {A B} (f : A → option B) (l : list A) :
  (length (omap f l) ≤ length l)%nat.
Proof. induction l as [|a l IH]; csimpl; [done|]. destruct (f a); csimpl; lia. Qed.

Lemma dot_strip_samples_snoc buf w srgb scale_factor strip n :
  0 ≤ n →
  dot_strip_samples buf w srgb scale_factor strip (n + 1)
  = dot_strip_samples buf w srgb scale_factor strip n
    ++ option_list (dot_sample buf w srgb scale_factor strip n).
Proof.
  intros Hn. unfold dot_strip_samples. rewrite seqZ_snoc, omap_app by done.
  f_equal.
Qed.

Lemma dot_samples_snoc buf w srgb scale_factor m :
  0 ≤ m →
  dot_samples buf w srgb scale_factor (m + 1)
  = dot_samples buf w srgb scale_factor m
    ++ dot_strip_samples buf w srgb scale_factor m w.
Proof.
  intros Hm. unfold dot_samples. rewrite seqZ_snoc, bind_app by done.
  f_equal. simpl. by rewrite app_nil_r.
Qed.

Lemma dot_strip_samples_length buf w srgb scale_factor strip n :
  0 ≤ n →
  Z.of_nat (length (dot_strip_samples buf w srgb scale_factor strip n)) ≤ n.
Proof.
  intros Hn. unfold dot_strip_samples.
  pose proof (length_omap_le (dot_sample buf w srgb scale_factor strip) (seqZ 0 n)) as Hle.
  rewrite length_seqZ in Hle. lia.
Qed.

Lemma dot_samples_length buf w srgb scale_factor m :
  0 ≤ w → 0 ≤ m →
  Z.of_nat (length (dot_samples buf w srgb scale_factor m)) ≤ m * w.
Proof.
  intros Hw Hm. pattern m. apply natlike_ind; [done| |done].
  clear m Hm. intros m Hm IH. unfold Z.succ.
  rewrite dot_samples_snoc, length_app by done.
  pose proof (dot_strip_samples_length buf w srgb scale_factor m w Hw). lia.
Qed.

(** The dot analyzer in closed form: on a raster of [w] columns and
    [DOTIMG_DST_HEIGHT] rows and output arrays that hold
    [w * DOTIMG_NUMSTRIPS] entries it returns, with the scale factor, the
    samples of all strips stored from index 0 and their number. *)
Lemma rs_analyze_dot_spec buf w h srgb offsets weights :
  0 ≤ w →
  w * DOTIMG_DST_HEIGHT ≤ Z.of_nat (length buf) →
  w * DOTIMG_DST_HEIGHT ≤ INT_MAX →
  w * DOTIMG_NUMSTRIPS ≤ Z.of_nat (length offsets) →
  w * DOTIMG_NUMSTRIPS ≤ Z.of_nat (length weights) →
  let scale_factor := (of_int w / of_int DOTIMG_SRC_WIDTH)%float in
  rs_analyze_dot buf w h srgb offsets weights
  = Some (scale_factor,
          emitted offsets weights (dot_samples buf w srgb scale_factor DOTIMG_NUMSTRIPS)).
Proof.
  intros Hw Hbuf Hint Ho Hwt sf. unfold rs_analyze_dot. fold sf.
  match goal with |- context [for_range 0 DOTIMG_NUMSTRIPS 1 ?body ?st0] =>
    destruct (for_range_inv
      (λ strip st, st = emitted offsets weights (dot_samples buf w srgb sf strip))
      body 0 DOTIMG_NUMSTRIPS st0) as (st & -> & ->)
  end; [done|done| |done].
  intros strip st Hs ->.
  destruct (for_range_inv
    (λ dstpos st, st = emitted offsets weights
       (dot_samples buf w srgb sf strip ++ dot_strip_samples buf w srgb sf strip dstpos))
    (λ dstpos st, analyze_dot_column buf w srgb sf strip dstpos st) 0 w
    (emitted offsets weights (dot_samples buf w srgb sf strip)))
    as (st & -> & ->); [done|by rewrite app_nil_r| |].
  - intros dstpos st Hd ->.
    pose proof (dot_samples_length buf w srgb sf strip Hw ltac:(lia)) as Hl1.
    pose proof (dot_strip_samples_length buf w srgb sf strip dstpos ltac:(lia)) as Hl2.
    assert (strip * w + dstpos < w * DOTIMG_NUMSTRIPS) as Hcap.
    { unfold DOTIMG_NUMSTRIPS, DOTIMG_HPIXELSPAN in *. nia. }
    rewrite analyze_dot_column_spec; [|done|done|done|done|rewrite length_app; lia..].
    eexists; split; [done|].
    by rewrite dot_strip_samples_snoc, app_assoc by lia.
  - eexists; split; [done|]. by rewrite dot_samples_snoc by lia.
Qed.

(** One iteration of the loop of [rs_analyze_line], on a state that holds
    the samples [E] of the columns before [i]. *)
Lemma analyze_line_column_spec buf w h srgb scale_factor i offsets weights E tot :
  0 ≤ i < w → 1 ≤ h →
  w * h ≤ Z.of_nat (length buf) →
  w * h ≤ INT_MAX →
  i = Z.of_nat (length E) →
  (length E < length offsets)%nat → (length E < length weights)%nat →
  analyze_line_column buf w h srgb scale_factor (h ÷ 2) i
    (LineState (E.*1 ++ drop (length E) offsets) (E.*2 ++ drop (length E) weights) tot)
  = let s := rescale scale_factor (line_pre_sample buf w h srgb i) in
    Some (LineState ((E ++ [s]).*1 ++ drop (length (E ++ [s])) offsets)
            ((E ++ [s]).*2 ++ drop (length (E ++ [s])) weights)
            (tot + (line_pre_sample buf w h srgb i).2)%float).
Proof.
  intros Hi Hh Hlen Hint HE Ho Hw. unfold analyze_line_column.
  pose proof (line_row_in_bounds h i Hh ltac:(lia)) as Hrow.
  rewrite read_pixel_Some;
    [|apply raster_index with (rows := h); (done || lia)
     |apply (raster_index_int w h); (done || lia)].
  simpl. unfold rescale, line_pre_sample. simpl.
  rewrite !fmap_app, length_app. simpl. rewrite Nat.add_1_r.
  rewrite HE.
  destruct (scale_factor <? 1)%float; simpl;
    by rewrite !store_next by (by rewrite ?length_fmap).
Qed.

(** The line analyzer in closed form: on a raster of [w] columns and [h]
    rows and output arrays that hold [w] entries it returns the scale
    factor, the samples of all columns stored from index 0, and the area. *)
Lemma rs_analyze_line_spec buf w h srgb offsets weights :
  0 ≤ w → 1 ≤ h →
  w * h ≤ Z.of_nat (length buf) →
  w * h ≤ INT_MAX →
  w ≤ Z.of_nat (length offsets) →
  w ≤ Z.of_nat (length weights) →
  let scale_factor := (of_int w / of_int LINEIMG_SRC_WIDTH)%float in
  let E := line_samples buf w h srgb scale_factor w in
  rs_analyze_line buf w h srgb offsets weights
  = Some (LineOut scale_factor
            (E.*1 ++ drop (Z.to_nat w) offsets)
            (E.*2 ++ drop (Z.to_nat w) weights)
            (line_total buf w h srgb w / scale_factor)%float).
Proof.
  intros Hw Hh Hbuf Hint Ho Hwt sf E. unfold rs_analyze_line. fold sf.
  destruct (for_range_inv
    (λ i st, st = LineState
       ((line_samples buf w h srgb sf i).*1 ++ drop (Z.to_nat i) offsets)
       ((line_samples buf w h srgb sf i).*2 ++ drop (Z.to_nat i) weights)
       (line_total buf w h srgb i))
    (analyze_line_column buf w h srgb sf (h ÷ 2)) 0 w
    (LineState offsets weights 0.0%float))
    as (st & -> & ->); [done|done| |done].
  intros i st Hi ->.
  assert (length (line_samples buf w h srgb sf i) = Z.to_nat i) as Hlen.
  { unfold line_samples. by rewrite length_fmap, length_seqZ. }
  rewrite <- Hlen.
  rewrite analyze_line_column_spec; [|done|done|done|done|lia..].
  simpl. eexists; split; [done|].
  unfold line_samples, line_total.
  rewrite !seqZ_snoc, !fmap_app, !fold_left_app, !length_app, !length_fmap,
    !length_seqZ by lia.
  simpl. rewrite Z.add_0_l. do 3 f_equal; lia.
Qed.

Lemma elem_of_dot_samples buf w srgb scale_factor m s :
  s ∈ dot_samples buf w srgb scale_factor m ↔
  ∃ strip dstpos, 0 ≤ strip < m ∧ 0 ≤ dstpos < w
    ∧ dot_skipped scale_factor w strip dstpos = false
    ∧ s = rescale scale_factor (dot_pre_sample buf w srgb scale_factor strip dstpos).
Proof.
  unfold dot_samples, dot_strip_samples. rewrite list_elem_of_bind. split.
  - intros (strip & Hs & Hstrip). apply list_elem_of_omap in Hs as (dstpos & Hd & Hsample).
    apply elem_of_seqZ in Hstrip, Hd. exists strip, dstpos.
    unfold dot_sample in Hsample. destruct (dot_skipped _ _ _ _); [done|].
    repeat split; (lia || congruence).
  - intros (strip & dstpos & Hstrip & Hd & Hskip & ->). exists strip.
    split; [|apply elem_of_seqZ; lia].
    apply list_elem_of_omap. exists dstpos. split; [apply elem_of_seqZ; lia|].
    unfold dot_sample. by rewrite Hskip.
Qed.

Lemma rescale_fst scale_factor s :
  (rescale scale_factor s).1
  = if (scale_factor <? 1.0)%float then s.1 else (s.1 / scale_factor)%float.
Proof. unfold rescale. by destruct (_ <? _)%float. Qed.

Lemma rescale_snd scale_factor s :
  (rescale scale_factor s).2
  = if (scale_factor <? 1.0)%float then (s.2 / scale_factor)%float else s.2.
Proof. unfold rescale. by destruct (_ <? _)%float. Qed.

Lemma line_samples_lookup buf w h srgb scale_factor n i :
  0 ≤ i < n →
  line_samples buf w h srgb scale_factor n !! Z.to_nat i
  = Some (rescale scale_factor (line_pre_sample buf w h srgb i)).
Proof.
  intros Hi. unfold line_samples.
  rewrite list_lookup_fmap, lookup_seqZ_lt by lia. simpl. do 3 f_equal. lia.
Qed.

Lemma omap_rescale {A} (skip : A → bool) (pre : A → float * float) scale_factor
    (l : list A) :
  omap (λ x, if skip x then None else Some (rescale scale_factor (pre x))) l
  = rescale scale_factor <$> omap (λ x, if skip x then None else Some (pre x)) l.
Proof.
  induction l as [|a l IH]; csimpl; [done|].
  destruct (skip a); csimpl; by rewrite IH.
Qed.

Lemma dot_samples_pre buf w srgb scale_factor m :
  dot_samples buf w srgb scale_factor m
  = rescale scale_factor <$> dot_pre_samples buf w srgb scale_factor m.
Proof.
  unfold dot_samples, dot_pre_samples, dot_strip_samples, dot_sample.
  induction (seqZ 0 m) as [|strip l IH]; csimpl; [done|].
  by rewrite fmap_app, IH, omap_rescale.
Qed.

Lemma line_samples_pre buf w h srgb scale_factor n :
  line_samples buf w h srgb scale_factor n
  = rescale scale_factor <$> (line_pre_sample buf w h srgb <$> seqZ 0 n).
Proof. unfold line_samples. by rewrite <- list_fmap_compose. Qed.

(** A list of samples through the two branches of the rescale. *)
Lemma rescale_down scale_factor (l : list (float * float)) :
  (scale_factor <? 1.0)%float = true →
  (rescale scale_factor <$> l).*1 = l.*1
  ∧ (rescale scale_factor <$> l).*2 = (λ s, (s.2 / scale_factor)%float) <$> l.
Proof.
  intros Hlt. rewrite <- !list_fmap_compose.
  split; apply list_fmap_ext; intros i s _; unfold rescale; simpl; by rewrite Hlt.
Qed.

Lemma rescale_up scale_factor (l : list (float * float)) :
  (scale_factor <? 1.0)%float = false →
  (rescale scale_factor <$> l).*1 = (λ s, (s.1 / scale_factor)%float) <$> l
  ∧ (rescale scale_factor <$> l).*2 = l.*2.
Proof.
  intros Hlt. rewrite <- !list_fmap_compose.
  split; apply list_fmap_ext; intros i s _; unfold rescale; simpl; by rewrite Hlt.
Qed.

(** C2, amended.  Of two analyses of the same kind, the one whose
    [scale_factor] is above 1 stores every offset divided by
    [scale_factor] and every weight as it is, and the one whose
    [scale_factor] is below 1 stores every weight divided by
    [scale_factor] and every offset as it is; no sample has both
    components divided.  The inputs are those on which the C code is
    defined: the raster holds the pixels that are read, it has at most
    [INT_MAX] pixels, so that no index overflows, and the output arrays
    hold what the header comments ask for. *)
Theorem rescale_branch_by_direction :
  (∀ buf w h srgb offsets weights,
     0 ≤ w → 1 ≤ h →
     w * h ≤ Z.of_nat (length buf) →
     w * h ≤ INT_MAX →
     w ≤ Z.of_nat (length offsets) →
     w ≤ Z.of_nat (length weights) →
     ∃ out, rs_analyze_line buf w h srgb offsets weights = Some out ∧
       let scale_factor := out_scale_factor out in
       let pre := line_pre_sample buf w h srgb <$> seqZ 0 w in
       ((1.0 <? scale_factor)%float = true →
          take (Z.to_nat w) (out_offsets out) = (λ s, (s.1 / scale_factor)%float) <$> pre
          ∧ take (Z.to_nat w) (out_weights out) = pre.*2)
       ∧ ((scale_factor <? 1.0)%float = true →
          take (Z.to_nat w) (out_offsets out) = pre.*1
          ∧ take (Z.to_nat w) (out_weights out) = (λ s, (s.2 / scale_factor)%float) <$> pre))
  ∧ (∀ buf w h srgb offsets weights,
     0 ≤ w →
     w * DOTIMG_DST_HEIGHT ≤ Z.of_nat (length buf) →
     w * DOTIMG_DST_HEIGHT ≤ INT_MAX →
     w * DOTIMG_NUMSTRIPS ≤ Z.of_nat (length offsets) →
     w * DOTIMG_NUMSTRIPS ≤ Z.of_nat (length weights) →
     ∃ scale_factor out,
       rs_analyze_dot buf w h srgb offsets weights = Some (scale_factor, out) ∧
       let pre := dot_pre_samples buf w srgb scale_factor DOTIMG_NUMSTRIPS in
       let n := Z.to_nat (dot_count out) in
       ((1.0 <? scale_factor)%float = true →
          take n (dot_offsets out) = (λ s, (s.1 / scale_factor)%float) <$> pre
          ∧ take n (dot_weights out) = pre.*2)
       ∧ ((scale_factor <? 1.0)%float = true →
          take n (dot_offsets out) = pre.*1
          ∧ take n (dot_weights out) = (λ s, (s.2 / scale_factor)%float) <$> pre)).
Proof.
  split.
  - intros buf w h srgb offsets weights Hw Hh Hbuf Hint Ho Hwt.
    eexists. split; [by apply rs_analyze_line_spec|].
    cbn [out_scale_factor out_offsets out_weights].
    set (sf := (of_int w / of_int LINEIMG_SRC_WIDTH)%float).
    rewrite line_samples_pre.
    set (pre := line_pre_sample buf w h srgb <$> seqZ 0 w).
    assert (length pre = Z.to_nat w) as Hlen.
    { unfold pre. by rewrite length_fmap, length_seqZ. }
    rewrite !take_app_length' by (by rewrite !length_fmap).
    split; intros Hdir.
    + apply rescale_up. by apply float_ltb_asym.
    + by apply rescale_down.
  - intros buf w h srgb offsets weights Hw Hbuf Hint Ho Hwt.
    eexists _, _. split; [by apply rs_analyze_dot_spec|].
    unfold emitted. cbn [dot_count dot_offsets dot_weights].
    set (sf := (of_int w / of_int DOTIMG_SRC_WIDTH)%float).
    rewrite dot_samples_pre.
    set (pre := dot_pre_samples buf w srgb sf DOTIMG_NUMSTRIPS).
    rewrite Nat2Z.id.
    rewrite !take_app_length' by (by rewrite !length_fmap).
    split; intros Hdir.
    + apply rescale_up. by apply float_ltb_asym.
    + by apply rescale_down.
Qed.

(** C7.  [rs_analyze_line] returns as area the sum over the [w] columns,
    from left to right, of the pre-rescale weight
    [(sampled pixel - 50) / 200], divided by [scale_factor]; the division
    is there whether [scale_factor] is below 1 or not.  The inputs are
    those on which the C code is defined: the raster holds its [w * h]
    pixels, at most [INT_MAX] of them, so that no index overflows, and
    the output arrays hold [w] entries. *)
Theorem line_area_always_divided buf w h srgb offsets weights :
  0 ≤ w → 1 ≤ h →
  w * h ≤ Z.of_nat (length buf) →
  w * h ≤ INT_MAX →
  w ≤ Z.of_nat (length offsets) →
  w ≤ Z.of_nat (length weights) →
  ∃ out, rs_analyze_line buf w h srgb offsets weights = Some out ∧
    out_area out
    = (fold_left (λ tot weight, tot + weight)%float
         ((λ i, ((pixel buf w i (line_row h (h ÷ 2) i) srgb - 50.0) / 200.0)%float)
            <$> seqZ 0 w)
         0.0%float
       / (of_int w / of_int LINEIMG_SRC_WIDTH))%float.
Proof.
  intros Hw Hh Hbuf Hint Ho Hwt.
  eexists. split; [by apply rs_analyze_line_spec|].
  cbn [out_area]. f_equal. unfold line_total, line_pre_sample. simpl.
  generalize 0.0%float. induction (seqZ 0 w) as [|i l IH]; intros tot; [done|].
  csimpl. apply IH.
Qed.

(** C10, amended.  On a raster of [w >= 1] columns and [h >= 1] rows
    with stride [w] and at most [INT_MAX] pixels, every pixel that
    [rs_analyze_line] reads is at a column in [0, w) and a row in
    [0, h-1]; its index [y * w + i] is computed without overflow
    (neither the product nor the sum leaves [int]) and lies inside the
    buffer, so the read succeeds; with output arrays of [w] entries the
    whole call succeeds. *)
Theorem line_reads_in_bounds buf w h srgb :
  1 ≤ w → 1 ≤ h →
  h * w ≤ Z.of_nat (length buf) →
  h * w ≤ INT_MAX →
  (∀ i, 0 ≤ i < w →
     let y := line_row h (h ÷ 2) i in
     0 ≤ y ≤ h - 1
     ∧ 0 ≤ y * w ≤ INT_MAX
     ∧ 0 ≤ y * w + i ≤ INT_MAX
     ∧ y * w + i < Z.of_nat (length buf)
     ∧ is_Some (read_pixel buf w i y srgb))
  ∧ (∀ offsets weights,
       w ≤ Z.of_nat (length offsets) → w ≤ Z.of_nat (length weights) →
       is_Some (rs_analyze_line buf w h srgb offsets weights)).
Proof.
  intros Hw Hh Hbuf Hint. split.
  - intros i Hi y.
    pose proof (line_row_in_bounds h i Hh ltac:(lia)) as Hrow. fold y in Hrow.
    assert (0 ≤ y * w + i < Z.of_nat (length buf)) as Hidx
      by (apply raster_index with (rows := h); lia).
    destruct (raster_index_int w h i y) as [Hprod Hsum]; [lia..|].
    repeat split; try lia. rewrite read_pixel_Some by (done || lia). by eexists.
  - intros offsets weights Ho Hwt.
    rewrite rs_analyze_line_spec by lia. by eexists.
Qed.

End Analysis.

(** ** The theorems at concrete inputs *)

(** The line analyzer on one row of 30 bright pixels ([scale_factor] 2)
    and on one row of 7 ([scale_factor] 7/15): the first divides the
    offsets, the second the weights. *)
Example rs_analyze_line_both_directions :
  @rs_analyze_line libm_no_pow (replicate 30 250) 30 1 0
    (replicate 30 0.0%float) (replicate 30 0.0%float)
  = Some (LineOut 2.0%float
            ((λ i, ((0.5 + of_int i - 15.0) / 2.0)%float) <$> seqZ 0 30)
            (replicate 30 1.0%float)
            15.0%float)
  ∧ @rs_analyze_line libm_no_pow (replicate 7 250) 7 1 0
      (replicate 7 0.0%float) (replicate 7 0.0%float)
    = Some (LineOut (7.0 / 15.0)%float
              [(-3.0)%float; (-2.0)%float; (-1.0)%float; 0.0%float;
               1.0%float; 2.0%float; 3.0%float]
              (replicate 7 (1.0 / (7.0 / 15.0))%float)
              15.0%float).
Proof. split; vm_compute; reflexivity. Qed.

(** C2 as stated fails.  With [w = 2 * LINEIMG_SRC_WIDTH], so that
    [scale_factor = 2 > 1], the first sample has pre-rescale offset
    [-14.5] and weight [1]: the weight is stored as it is, not divided,
    and the offset is stored divided.  With [w = LINEIMG_SRC_WIDTH / 2 = 7],
    so that [scale_factor < 1], the first sample has pre-rescale offset
    [-3] and weight [1]: the offset is stored as it is, not divided, and
    the weight is stored divided. *)
Lemma rescale_branch_as_claimed_fails :
  (∃ out,
     @rs_analyze_line libm_no_pow (replicate 30 250) 30 1 0
       (replicate 30 0.0%float) (replicate 30 0.0%float) = Some out
     ∧ (1.0 <? out_scale_factor out)%float = true
     ∧ @line_pre_sample libm_no_pow (replicate 30 250) 30 1 0 0
       = ((-14.5)%float, 1.0%float)
     ∧ out_weights out !! 0%nat = Some 1.0%float
     ∧ out_weights out !! 0%nat ≠ Some (1.0 / out_scale_factor out)%float
     ∧ out_offsets out !! 0%nat = Some (-14.5 / out_scale_factor out)%float
     ∧ out_offsets out !! 0%nat ≠ Some (-14.5)%float)
  ∧ (∃ out,
     @rs_analyze_line libm_no_pow (replicate 7 250) 7 1 0
       (replicate 7 0.0%float) (replicate 7 0.0%float) = Some out
     ∧ (out_scale_factor out <? 1.0)%float = true
     ∧ @line_pre_sample libm_no_pow (replicate 7 250) 7 1 0 0
       = ((-3.0)%float, 1.0%float)
     ∧ out_offsets out !! 0%nat = Some (-3.0)%float
     ∧ out_offsets out !! 0%nat ≠ Some (-3.0 / out_scale_factor out)%float
     ∧ out_weights out !! 0%nat = Some (1.0 / out_scale_factor out)%float
     ∧ out_weights out !! 0%nat ≠ Some 1.0%float).
Proof.
  destruct rs_analyze_line_both_directions as [Hup Hdown].
  split; eexists; (split; [eassumption|]);
    cbn [out_scale_factor out_offsets out_weights];
    repeat split; try (vm_compute; reflexivity);
    intros [= Heq]; revert Heq; apply float_neq; vm_compute; reflexivity.
Qed.

Lemma rescale_branch_by_direction_witness :
  let buf := replicate 7 250 in
  let arr := replicate 7 0.0%float in
  ∃ out, @rs_analyze_line libm_no_pow buf 7 1 0 arr arr = Some out
    ∧ ((out_scale_factor out <? 1.0)%float = true →
       take (Z.to_nat 7) (out_offsets out)
         = (@line_pre_sample libm_no_pow buf 7 1 0 <$> seqZ 0 7).*1
       ∧ take (Z.to_nat 7) (out_weights out)
         = (λ s, (s.2 / out_scale_factor out)%float)
             <$> (@line_pre_sample libm_no_pow buf 7 1 0 <$> seqZ 0 7)).
Proof.
  destruct (proj1 (@rescale_branch_by_direction libm_no_pow)
    (replicate 7 250) 7 1 0 (replicate 7 0.0%float) (replicate 7 0.0%float))
    as (out & Hout & _ & Hdown); [vm_compute; discriminate..|].
  exists out. split; [exact Hout|exact Hdown].
Defined.

Lemma line_area_always_divided_witness :
  let buf := replicate 5 250 ++ replicate 5 50 ++ replicate 5 150 in
  let arr := replicate 5 0.0%float in
  0 ≤ 5 ∧ 1 ≤ 3
  ∧ 5 * 3 ≤ Z.of_nat (length buf)
  ∧ 5 * 3 ≤ INT_MAX
  ∧ 5 ≤ Z.of_nat (length arr)
  ∧ ∃ out, @rs_analyze_line libm_no_pow buf 5 3 0 arr arr = Some out ∧
      out_area out
      = (fold_left (λ tot weight, tot + weight)%float
           ((λ i, ((@pixel libm_no_pow buf 5 i (line_row 3 (3 ÷ 2) i) 0 - 50.0) / 200.0)%float)
              <$> seqZ 0 5)
           0.0%float
         / (of_int 5 / of_int LINEIMG_SRC_WIDTH))%float.
Proof.
  repeat (split; [vm_compute; discriminate|]).
  apply (@line_area_always_divided libm_no_pow
    (replicate 5 250 ++ replicate 5 50 ++ replicate 5 150) 5 3 0
    (replicate 5 0.0%float) (replicate 5 0.0%float)); vm_compute; discriminate.
Defined.

(** The area is the column sum over [scale_factor] in both directions:
    30 columns of weight 1 at [scale_factor = 2] give 15, and the five
    columns of a 5 x 3 raster (weights 1, 0, 0.5, 1, 0) at
    [scale_factor = 1/3] give 7.5. *)
Example line_area_examples :
  out_area <$> @rs_analyze_line libm_no_pow (replicate 30 250) 30 1 0
    (replicate 30 0.0%float) (replicate 30 0.0%float) = Some 15.0%float
  ∧ out_area <$> @rs_analyze_line libm_no_pow
      (replicate 5 250 ++ replicate 5 50 ++ replicate 5 150) 5 3 0
      (replicate 5 0.0%float) (replicate 5 0.0%float) = Some 7.5%float.
Proof. split; vm_compute; reflexivity. Qed.

Lemma line_reads_in_bounds_witness :
  let buf := replicate 5 250 ++ replicate 5 50 ++ replicate 5 150 in
  1 ≤ 5 ∧ 1 ≤ 3
  ∧ 3 * 5 ≤ Z.of_nat (length buf)
  ∧ 3 * 5 ≤ INT_MAX
  ∧ (∀ i, 0 ≤ i < 5 →
       let y := line_row 3 (3 ÷ 2) i in
       0 ≤ y ≤ 3 - 1
       ∧ 0 ≤ y * 5 ≤ INT_MAX
       ∧ 0 ≤ y * 5 + i ≤ INT_MAX
       ∧ y * 5 + i < Z.of_nat (length buf)
       ∧ is_Some (@read_pixel libm_no_pow buf 5 i y 0))
  ∧ (∀ offsets weights,
       5 ≤ Z.of_nat (length offsets) → 5 ≤ Z.of_nat (length weights) →
       is_Some (@rs_analyze_line libm_no_pow buf 5 3 0 offsets weights)).
Proof.
  split; [lia|]. split; [lia|].
  split; [vm_compute; discriminate|]. split; [vm_compute; discriminate|].
  apply (@line_reads_in_bounds libm_no_pow
    (replicate 5 250 ++ replicate 5 50 ++ replicate 5 150) 5 3 0);
    [lia|lia|vm_compute; discriminate|vm_compute; discriminate].
Defined.

(** ** The search for the nearest dot *)

(** The loop over [k] as a fold: the result is the start value or the
    value of a candidate, it is below the start value when it is not the
    start value, and no candidate is strictly below it (in magnitude). *)
Lemma nearest_fold_spec (f : Z → float) (l : list Z) (init : float) :
  let r := fold_left (λ offset k,
             if (abs (f k) <? abs offset)%float then f k else offset) l init in
  (r = init ∨ (abs r <? abs init)%float = true)
  ∧ (r = init ∨ ∃ k, k ∈ l ∧ r = f k)
  ∧ ∀ k, k ∈ l → (abs (f k) <? abs r)%float = false.
Proof.
  revert init. induction l as [|k l IH]; intros init; simpl.
  { split; [by left|]. split; [by left|]. intros k Hk. by inversion Hk. }
  destruct (IH (if (abs (f k) <? abs init)%float then f k else init))
    as (Hdec & Hmem & Hmin).
  set (r := fold_left _ l _) in *.
  destruct (abs (f k) <? abs init)%float eqn:Hlt.
  - split; [|split].
    + right. destruct Hdec as [->|Hr]; [done|]. by apply float_ltb_trans with (abs (f k)).
    + right. destruct Hmem as [->|(k' & Hk' & ->)].
      * exists k. split; [left|done].
      * exists k'. split; [by right|done].
    + intros k' Hk'. apply elem_of_cons in Hk' as [->|Hk']; [|by apply Hmin].
      destruct Hdec as [->|Hr]; [apply float_ltb_irrefl|by apply float_ltb_asym].
  - split; [done|]. split.
    + destruct Hmem as [->|(k' & Hk' & ->)]; [by left|].
      right. exists k'. split; [by right|done].
    + intros k' Hk'. apply elem_of_cons in Hk' as [->|Hk']; [|by apply Hmin].
      destruct (abs (f k) <? abs r)%float eqn:Hkr; [|done].
      destruct Hdec as [Hr|Hr].
      * rewrite Hr in Hkr. congruence.
      * rewrite (float_ltb_trans _ _ _ Hkr Hr) in Hlt. done.
Qed.

(** The dots of a strip: [HCENTER + strip], then every [HPIXELSPAN]
    columns, strictly below [SRC_WIDTH - HCENTER]. *)
Lemma elem_of_dot_centers strip k :
  k ∈ dot_centers strip ↔
  ∃ n, 0 ≤ n ∧ k = DOTIMG_HCENTER + strip + DOTIMG_HPIXELSPAN * n
       ∧ k < DOTIMG_SRC_WIDTH - DOTIMG_HCENTER.
Proof. by apply elem_of_range_step. Qed.

(** X1.  The loop over [k] of [rs_analyze_dot], run from the start value
    10000 at a column that has some dot of its strip nearer than 10000:
    the offset it leaves is [dstpos - zp] of a dot of the strip, and no
    dot of the strip has an offset of strictly smaller magnitude.  The
    dots of the strip are the values of [k]: [HCENTER + strip], then every
    [HPIXELSPAN] columns, strictly below [SRC_WIDTH - HCENTER]. *)
Lemma nearest_offset_is_nearest scale_factor w strip dstpos :
  let is_dot k :=
    ∃ n, 0 ≤ n ∧ k = DOTIMG_HCENTER + strip + DOTIMG_HPIXELSPAN * n
         ∧ k < DOTIMG_SRC_WIDTH - DOTIMG_HCENTER in
  let tmp_offset k := (of_int dstpos - zero_point scale_factor w k)%float in
  (∃ k, is_dot k ∧ (abs (tmp_offset k) <? abs 10000.0)%float = true) →
  ∃ offset k,
    for_range (DOTIMG_HCENTER + strip) (DOTIMG_SRC_WIDTH - DOTIMG_HCENTER)
      DOTIMG_HPIXELSPAN (nearest_step scale_factor w dstpos) 10000.0%float
    = Some offset
    ∧ is_dot k
    ∧ offset = tmp_offset k
    ∧ ∀ k', is_dot k' → (abs (tmp_offset k') <? abs offset)%float = false.
Proof.
  intros is_dot tmp_offset (k0 & Hk0 & Hnear).
  destruct (nearest_fold_spec (candidate_offset scale_factor w dstpos)
              (dot_centers strip) 10000.0%float) as (_ & Hmem & Hmin).
  fold (nearest_offset scale_factor w strip dstpos) in Hmem, Hmin.
  apply elem_of_dot_centers in Hk0.
  destruct Hmem as [Hinit|(k & Hk & Hr)].
  - specialize (Hmin k0 Hk0). rewrite Hinit in Hmin.
    unfold candidate_offset in Hmin. unfold tmp_offset in Hnear. congruence.
  - exists (nearest_offset scale_factor w strip dstpos), k.
    split; [apply nearest_loop_spec|].
    split; [by apply elem_of_dot_centers|].
    split; [exact Hr|].
    intros k' Hk'. apply Hmin. by apply elem_of_dot_centers.
Qed.

(** Column 100 of strip 3 of the 555-column image; the first dot of the
    strip, at source column 15, is nearer than 10000. *)
Lemma nearest_offset_is_nearest_witness :
  let scale_factor := (of_int 555 / of_int DOTIMG_SRC_WIDTH)%float in
  let is_dot k :=
    ∃ n, 0 ≤ n ∧ k = DOTIMG_HCENTER + 3 + DOTIMG_HPIXELSPAN * n
         ∧ k < DOTIMG_SRC_WIDTH - DOTIMG_HCENTER in
  let tmp_offset k := (of_int 100 - zero_point scale_factor 555 k)%float in
  (∃ k, is_dot k ∧ (abs (tmp_offset k) <? abs 10000.0)%float = true)
  ∧ ∃ offset k,
      for_range (DOTIMG_HCENTER + 3) (DOTIMG_SRC_WIDTH - DOTIMG_HCENTER)
        DOTIMG_HPIXELSPAN (nearest_step scale_factor 555 100) 10000.0%float
      = Some offset
      ∧ is_dot k
      ∧ offset = tmp_offset k
      ∧ ∀ k', is_dot k' → (abs (tmp_offset k') <? abs offset)%float = false.
Proof.
  intros scale_factor is_dot tmp_offset.
  assert (∃ k, is_dot k ∧ (abs (tmp_offset k) <? abs 10000.0)%float = true) as Hnear.
  { exists 15. split; [|vm_compute; reflexivity].
    exists 0. split; [lia|]. split; vm_compute; reflexivity. }
  split; [exact Hnear|].
  exact (nearest_offset_is_nearest scale_factor 555 3 100 Hnear).
Defined.

(** Column 100 of strip 3 of the 555-column image: the loop ends on the
    offset of the fourth dot of the strip, at source column 90. *)
Example nearest_offset_example :
  for_range (DOTIMG_HCENTER + 3) (DOTIMG_SRC_WIDTH - DOTIMG_HCENTER) DOTIMG_HPIXELSPAN
    (nearest_step (of_int 555 / of_int DOTIMG_SRC_WIDTH) 555 100) 10000.0%float
  = Some (of_int 100 - zero_point (of_int 555 / of_int DOTIMG_SRC_WIDTH) 555 90)%float.
Proof. vm_compute. reflexivity. Qed.

(** ** The start value of the search on a very wide image *)

(** The loop over [k] starts from [offset = 10000.0].  On an image so wide
    that a column is more than 10000 away from every dot of its strip, no
    candidate replaces the start value; and when [scale_factor * HCENTER]
    is above 10000 as well, the column is not skipped.  [w = 600000] is
    such a width: [scale_factor * HCENTER] is about 12926, and the dots of
    strip 0 are 26930 columns apart, the first one near column 13464. *)

Section Sentinel.
Context `{Libm}.

Lemma dot_samples_head buf w srgb scale_factor :
  0 < w →
  dot_skipped scale_factor w 0 0 = false →
  ∃ rest,
    dot_samples buf w srgb scale_factor DOTIMG_NUMSTRIPS
    = rescale scale_factor (dot_pre_sample buf w srgb scale_factor 0 0) :: rest.
Proof.
  intros Hw Hskip. unfold dot_samples.
  rewrite (seqZ_cons 0 DOTIMG_NUMSTRIPS) by done. rewrite bind_cons.
  unfold dot_strip_samples at 1. rewrite (seqZ_cons 0 w) by done.
  generalize (seqZ (Z.succ 0) (Z.pred w)). intros l. csimpl.
  unfold dot_sample at 1. rewrite Hskip. csimpl. by eexists.
Qed.

(** C4 at a failing input: any 600000 x 275 raster.  Column 0 of strip 0
    is farther than [scale_factor * HCENTER] from every dot of the strip,
    so it has to be skipped; yet the call stores a sample for it, the
    first one, whose offset is the start value 10000 over
    [scale_factor]. *)
Theorem dot_far_column_not_skipped buf h srgb offsets weights :
  600000 * DOTIMG_DST_HEIGHT ≤ Z.of_nat (length buf) →
  600000 * DOTIMG_NUMSTRIPS ≤ Z.of_nat (length offsets) →
  600000 * DOTIMG_NUMSTRIPS ≤ Z.of_nat (length weights) →
  let scale_factor := (of_int 600000 / of_int DOTIMG_SRC_WIDTH)%float in
  Forall (λ k, (scale_factor * of_int DOTIMG_HCENTER
                <? abs (candidate_offset scale_factor 600000 0 k))%float = true)
    (dot_centers 0)
  ∧ ∃ out, rs_analyze_dot buf 600000 h srgb offsets weights = Some (scale_factor, out)
      ∧ 0 < dot_count out
      ∧ dot_offsets out !! 0%nat = Some (10000.0 / scale_factor)%float
      ∧ dot_weights out !! 0%nat = Some (strip_tot buf 600000 srgb 0 0 / 200.0)%float.
Proof.
  intros Hbuf Ho Hwt sf. split.
  { vm_compute. repeat (constructor; [reflexivity|]). constructor. }
  assert (dot_skipped sf 600000 0 0 = false) as Hskip by (vm_compute; reflexivity).
  assert ((sf <? 1.0)%float = false) as Hup by (vm_compute; reflexivity).
  destruct (dot_samples_head buf 600000 srgb sf ltac:(done) Hskip) as [rest Hhead].
  exists (emitted offsets weights (dot_samples buf 600000 srgb sf DOTIMG_NUMSTRIPS)).
  split; [by apply rs_analyze_dot_spec|].
  unfold emitted. cbn [dot_count dot_offsets dot_weights]. rewrite Hhead.
  rewrite !fmap_cons, rescale_fst, rescale_snd, Hup, length_cons.
  assert (nearest_offset sf 600000 0 0 = 10000.0%float) as Hnear
    by (vm_compute; reflexivity).
  cbn [dot_pre_sample fst snd app lookup list_lookup]. rewrite Hnear.
  split; [lia|]. split; reflexivity.
Qed.

End Sentinel.

Lemma dot_far_column_not_skipped_witness :
  600000 * DOTIMG_DST_HEIGHT ≤ Z.of_nat (length (replicate (Z.to_nat 165000000) 0))
  ∧ 600000 * DOTIMG_NUMSTRIPS ≤ Z.of_nat (length (replicate (Z.to_nat 15000000) 0.0%float))
  ∧ ∃ out, @rs_analyze_dot libm_no_pow (replicate (Z.to_nat 165000000) 0) 600000 275 0
             (replicate (Z.to_nat 15000000) 0.0%float)
             (replicate (Z.to_nat 15000000) 0.0%float)
           = Some ((of_int 600000 / of_int DOTIMG_SRC_WIDTH)%float, out)
      ∧ dot_offsets out !! 0%nat
        = Some (10000.0 / (of_int 600000 / of_int DOTIMG_SRC_WIDTH))%float.
Proof.
  assert (600000 * DOTIMG_DST_HEIGHT
          ≤ Z.of_nat (length (replicate (Z.to_nat 165000000) 0))) as Hbuf.
  { rewrite length_replicate. rewrite Z2Nat.id by lia.
    change DOTIMG_DST_HEIGHT with 275. lia. }
  assert (600000 * DOTIMG_NUMSTRIPS
          ≤ Z.of_nat (length (replicate (Z.to_nat 15000000) 0.0%float))) as Harr.
  { rewrite length_replicate. rewrite Z2Nat.id by lia.
    change DOTIMG_NUMSTRIPS with 25. lia. }
  split; [exact Hbuf|]. split; [exact Harr|].
  pose proof (@dot_far_column_not_skipped libm_no_pow
     (replicate (Z.to_nat 165000000) 0) 275 0
     (replicate (Z.to_nat 15000000) 0.0%float)
     (replicate (Z.to_nat 15000000) 0.0%float) Hbuf Harr Harr) as Hw.
  destruct Hw as (_ & out & Hout & _ & Hoff & _).
  exists out. split; [exact Hout|exact Hoff].
Defined.

(** C3 at a failing input: column 1000 of strip 0 of a 600000 x 275
    raster.  Its nearest dot is the first of the strip ([k = 12]), at
    offset about -12464, within [scale_factor * HCENTER]: the column is
    to be emitted with that offset.  The loop over [k] ends with the
    start value 10000, which is the offset of no dot, the column is not
    skipped, and 10000 is the pre-rescale offset of its sample. *)
Theorem dot_offset_is_start_value :
  let scale_factor := (of_int 600000 / of_int DOTIMG_SRC_WIDTH)%float in
  for_range (DOTIMG_HCENTER + 0) (DOTIMG_SRC_WIDTH - DOTIMG_HCENTER) DOTIMG_HPIXELSPAN
    (nearest_step scale_factor 600000 1000) 10000.0%float = Some 10000.0%float
  ∧ (scale_factor * of_int DOTIMG_HCENTER <? abs 10000.0)%float = false
  ∧ (scale_factor <? 1.0)%float = false
  ∧ 12 ∈ dot_centers 0
  ∧ candidate_offset scale_factor 600000 1000 12 = (-12464.491023339331)%float
  ∧ (scale_factor * of_int DOTIMG_HCENTER
     <? abs (candidate_offset scale_factor 600000 1000 12))%float = false
  ∧ Forall (λ k, (abs (candidate_offset scale_factor 600000 1000 k)
                  <? abs (candidate_offset scale_factor 600000 1000 12))%float = false
                 ∧ (candidate_offset scale_factor 600000 1000 k =? 10000.0)%float = false)
      (dot_centers 0)
  ∧ ∀ (libm : Libm) buf srgb,
      @dot_sample libm buf 600000 srgb scale_factor 0 1000
      = Some ((10000.0 / scale_factor)%float,
              (@strip_tot libm buf 600000 srgb 0 1000 / 200.0)%float).
Proof.
  intros sf.
  split; [vm_compute; reflexivity|].
  split; [vm_compute; reflexivity|].
  split; [vm_compute; reflexivity|].
  split; [vm_compute; left|].
  split; [vm_compute; reflexivity|].
  split; [vm_compute; reflexivity|].
  split.
  { vm_compute. repeat (constructor; [split; reflexivity|]). constructor. }
  intros libm buf srgb. unfold dot_sample.
  assert (dot_skipped sf 600000 0 1000 = false) as -> by (vm_compute; reflexivity).
  unfold rescale.
  assert ((sf <? 1.0)%float = false) as -> by (vm_compute; reflexivity).
  assert (nearest_offset sf 600000 0 1000 = 10000.0%float) as Hnear
    by (vm_compute; reflexivity).
  cbn [dot_pre_sample fst snd]. by rewrite Hnear.
Qed.

(** ** Number and order of the dot samples *)

Lemma seqZ_sorted (m n : Z) : StronglySorted Z.lt (seqZ m n).
Proof.
  destruct (Z.le_gt_cases 0 n) as [Hn|Hn]; [|rewrite seqZ_nil by lia; constructor].
  pattern n. apply natlike_ind; [constructor| |done].
  clear n Hn. intros n Hn IH. unfold Z.succ. rewrite seqZ_snoc by done.
  apply StronglySorted_app_2; [|done|repeat constructor].
  intros x1 x2 Hx1 Hx2. apply elem_of_seqZ in Hx1.
  apply list_elem_of_singleton in Hx2. lia.
Qed.

Lemma filter_sorted {A} (R : relation A) (P : A → Prop) `{!∀ x, Decision (P x)}
    (l : list A) :
  StronglySorted R l → StronglySorted R (filter P l).
Proof.
  induction 1 as [|x l Hl IH Hx]; [constructor|].
  rewrite filter_cons. destruct (decide (P x)); [|done].
  constructor; [done|]. apply Forall_forall. intros y Hy.
  apply list_elem_of_filter in Hy as [_ Hy].
  by apply (proj1 (Forall_forall _ _) Hx).
Qed.

Lemma omap_filter {A B} (skip : A → bool) (g : A → B) (l : list A) :
  omap (λ x, if skip x then None else Some (g x)) l
  = g <$> filter (λ x, skip x = false) l.
Proof.
  induction l as [|a l IH]; csimpl; [done|].
  rewrite filter_cons. destruct (skip a) eqn:Ha; destruct (decide _); try done.
  csimpl. by rewrite IH.
Qed.

Section DotOrder.
Context `{Libm}.

Lemma dot_pre_samples_positions buf w srgb scale_factor m :
  dot_pre_samples buf w srgb scale_factor m
  = (λ p, dot_pre_sample buf w srgb scale_factor p.1 p.2)
      <$> dot_positions scale_factor w m.
Proof.
  unfold dot_pre_samples, dot_positions.
  induction (seqZ 0 m) as [|strip l IH]; csimpl; [done|].
  rewrite fmap_app, <- IH, omap_filter. f_equal.
  by rewrite <- list_fmap_compose.
Qed.

Lemma elem_of_dot_positions scale_factor w m p :
  p ∈ dot_positions scale_factor w m ↔
  0 ≤ p.1 < m ∧ 0 ≤ p.2 < w ∧ dot_skipped scale_factor w p.1 p.2 = false.
Proof.
  unfold dot_positions. rewrite list_elem_of_bind. split.
  - intros (strip & Hp & Hstrip). apply list_elem_of_fmap in Hp as (dstpos & -> & Hd).
    apply list_elem_of_filter in Hd as [Hskip Hd].
    apply elem_of_seqZ in Hstrip, Hd. simpl. repeat split; (done || lia).
  - intros (Hstrip & Hd & Hskip). exists p.1. split; [|apply elem_of_seqZ; lia].
    apply list_elem_of_fmap. exists p.2. split; [by destruct p|].
    apply list_elem_of_filter. split; [done|apply elem_of_seqZ; lia].
Qed.

Lemma dot_positions_snoc scale_factor w m :
  0 ≤ m →
  dot_positions scale_factor w (m + 1)
  = dot_positions scale_factor w m
    ++ ((λ dstpos, (m, dstpos))
          <$> filter (λ dstpos, dot_skipped scale_factor w m dstpos = false) (seqZ 0 w)).
Proof.
  intros Hm. unfold dot_positions. rewrite seqZ_snoc, bind_app by done.
  f_equal. simpl. by rewrite app_nil_r.
Qed.

Lemma dot_positions_sorted scale_factor w m :
  StronglySorted strip_major (dot_positions scale_factor w m).
Proof.
  destruct (Z.le_gt_cases 0 m) as [Hm|Hm].
  2:{ unfold dot_positions. rewrite (seqZ_nil 0 m) by lia. constructor. }
  pattern m. apply natlike_ind; [constructor| |done].
  clear m Hm. intros m Hm IH. unfold Z.succ. rewrite dot_positions_snoc by done.
  apply StronglySorted_app_2; [|done|].
  - intros p q Hp Hq. apply elem_of_dot_positions in Hp as (Hp & _).
    apply list_elem_of_fmap in Hq as (dstpos & -> & _). left. simpl. lia.
  - apply StronglySorted_fmap with (R1 := Z.lt).
    + intros x y Hxy. right. simpl. done.
    + apply filter_sorted, seqZ_sorted.
Qed.

(** X2.  The samples of the dot analyzer are those of the pairs (strip,
    column) that are not skipped, stored in strip-major order (by strip,
    then by column within a strip); the returned count is their number,
    at most [NUMSTRIPS * w].  The raster has at most [INT_MAX] pixels, so
    that no index overflows. *)
Lemma rs_analyze_dot_order buf w h srgb offsets weights :
  0 ≤ w →
  w * DOTIMG_DST_HEIGHT ≤ Z.of_nat (length buf) →
  w * DOTIMG_DST_HEIGHT ≤ INT_MAX →
  w * DOTIMG_NUMSTRIPS ≤ Z.of_nat (length offsets) →
  w * DOTIMG_NUMSTRIPS ≤ Z.of_nat (length weights) →
  let scale_factor := (of_int w / of_int DOTIMG_SRC_WIDTH)%float in
  let positions := dot_positions scale_factor w DOTIMG_NUMSTRIPS in
  let sample p := rescale scale_factor (dot_pre_sample buf w srgb scale_factor p.1 p.2) in
  ∃ out, rs_analyze_dot buf w h srgb offsets weights = Some (scale_factor, out)
    ∧ StronglySorted strip_major positions
    ∧ dot_count out = Z.of_nat (length positions)
    ∧ 0 ≤ dot_count out ≤ DOTIMG_NUMSTRIPS * w
    ∧ take (length positions) (dot_offsets out) = (λ p, (sample p).1) <$> positions
    ∧ take (length positions) (dot_weights out) = (λ p, (sample p).2) <$> positions.
Proof.
  intros Hw Hbuf Hint Ho Hwt sf positions sample.
  exists (emitted offsets weights (dot_samples buf w srgb sf DOTIMG_NUMSTRIPS)).
  split; [by apply rs_analyze_dot_spec|].
  split; [apply dot_positions_sorted|].
  assert (dot_samples buf w srgb sf DOTIMG_NUMSTRIPS = sample <$> positions) as Heq.
  { rewrite dot_samples_pre, dot_pre_samples_positions.
    by rewrite <- list_fmap_compose. }
  pose proof (dot_samples_length buf w srgb sf DOTIMG_NUMSTRIPS Hw ltac:(done)) as Hlen.
  unfold emitted. cbn [dot_count dot_offsets dot_weights].
  rewrite Heq in *. rewrite length_fmap in *.
  split; [done|]. split; [lia|].
  rewrite !take_app_length' by (by rewrite !length_fmap).
  by rewrite <- !list_fmap_compose.
Qed.

(** The weight of a dot sample before the rescale: the sum over the
    [STRIPHEIGHT] rows of the strip of (sampled pixel - 50), over 200. *)
Lemma dot_pre_sample_weight buf w srgb scale_factor strip dstpos :
  (dot_pre_sample buf w srgb scale_factor strip dstpos).2
  = (fold_left (λ tot v, tot + (v - 50.0))%float
       ((λ row, pixel buf w dstpos (DOTIMG_STRIPHEIGHT * strip + row) srgb)
          <$> seqZ 0 DOTIMG_STRIPHEIGHT)
       0.0%float / 200.0)%float.
Proof. reflexivity. Qed.

End DotOrder.

Lemma rs_analyze_dot_order_witness :
  let buf := replicate 550 250 in
  let arr := replicate 50 0.0%float in
  let scale_factor := (of_int 2 / of_int DOTIMG_SRC_WIDTH)%float in
  (0 ≤ 2 ∧ 2 * DOTIMG_DST_HEIGHT ≤ Z.of_nat (length buf)
   ∧ 2 * DOTIMG_DST_HEIGHT ≤ INT_MAX
   ∧ 2 * DOTIMG_NUMSTRIPS ≤ Z.of_nat (length arr))
  ∧ ∃ out, @rs_analyze_dot libm_no_pow buf 2 275 0 arr arr = Some (scale_factor, out)
      ∧ StronglySorted strip_major (dot_positions scale_factor 2 DOTIMG_NUMSTRIPS)
      ∧ 0 ≤ dot_count out ≤ DOTIMG_NUMSTRIPS * 2.
Proof.
  split; [repeat split; vm_compute; discriminate|].
  destruct (@rs_analyze_dot_order libm_no_pow (replicate 550 250) 2 275 0
    (replicate 50 0.0%float) (replicate 50 0.0%float))
    as (out & Hout & Hsorted & _ & Hcount & _); [vm_compute; discriminate..|].
  exists out. split; [exact Hout|]. split; [exact Hsorted|exact Hcount].
Defined.

(** On a 2 x 275 raster two of the fifty columns are skipped: column 0 of
    strip 14 and column 1 of strip 18. *)
Example dot_positions_example :
  let positions := dot_positions (of_int 2 / of_int DOTIMG_SRC_WIDTH) 2 DOTIMG_NUMSTRIPS in
  length positions = 48%nat
  ∧ filter (λ p, p ∉ positions) (seqZ 0 DOTIMG_NUMSTRIPS ≫= λ strip, [(strip, 0); (strip, 1)])
    = [(14, 0); (18, 1)].
Proof. split; vm_compute; reflexivity. Qed.

(** ** One component of every sample is rescaled *)

Section Rescale.
Context `{Libm}.

(** C1.  Both analyzers return [scale_factor = (double)w / SRC_WIDTH] (a
    division of doubles, not of integers), and every sample they store is
    the pre-rescale (offset, weight) of its column with exactly one
    component divided by [scale_factor]: the weight when
    [scale_factor < 1], the offset otherwise; the other component is
    stored as it is.  For the dot analyzer the samples are those of the
    pairs (strip, column) that are not skipped, in the order of the loops:
    the count is their number and entry [n] of the output is the sample of
    the [n]-th pair.  For the line analyzer entry [i] is the sample of
    column [i].  The inputs are those on which the C code is defined: the
    raster holds the pixels that are read, it has at most [INT_MAX]
    pixels, so that no index overflows, and the output arrays hold what
    the header comments ask for. *)
Theorem rescale_one_component :
  (∀ buf w h srgb offsets weights,
     0 ≤ w →
     w * DOTIMG_DST_HEIGHT ≤ Z.of_nat (length buf) →
     w * DOTIMG_DST_HEIGHT ≤ INT_MAX →
     w * DOTIMG_NUMSTRIPS ≤ Z.of_nat (length offsets) →
     w * DOTIMG_NUMSTRIPS ≤ Z.of_nat (length weights) →
     let scale_factor := (of_int w / of_int DOTIMG_SRC_WIDTH)%float in
     let positions := dot_positions scale_factor w DOTIMG_NUMSTRIPS in
     ∃ out, rs_analyze_dot buf w h srgb offsets weights = Some (scale_factor, out)
       ∧ dot_count out = Z.of_nat (length positions)
       ∧ (∀ strip dstpos,
            (strip, dstpos) ∈ positions ↔
            0 ≤ strip < DOTIMG_NUMSTRIPS ∧ 0 ≤ dstpos < w
            ∧ dot_skipped scale_factor w strip dstpos = false)
       ∧ ∀ (n : nat) strip dstpos, positions !! n = Some (strip, dstpos) →
           let pre := dot_pre_sample buf w srgb scale_factor strip dstpos in
           dot_offsets out !! n
             = Some (if (scale_factor <? 1.0)%float then pre.1
                     else (pre.1 / scale_factor)%float)
           ∧ dot_weights out !! n
             = Some (if (scale_factor <? 1.0)%float then (pre.2 / scale_factor)%float
                     else pre.2))
  ∧ (∀ buf w h srgb offsets weights,
     0 ≤ w → 1 ≤ h →
     w * h ≤ Z.of_nat (length buf) →
     w * h ≤ INT_MAX →
     w ≤ Z.of_nat (length offsets) →
     w ≤ Z.of_nat (length weights) →
     let scale_factor := (of_int w / of_int LINEIMG_SRC_WIDTH)%float in
     ∃ out, rs_analyze_line buf w h srgb offsets weights = Some out ∧
       out_scale_factor out = scale_factor ∧
       ∀ i, 0 ≤ i < w →
         out_offsets out !! Z.to_nat i
           = Some (if (scale_factor <? 1.0)%float
                   then (line_pre_sample buf w h srgb i).1
                   else ((line_pre_sample buf w h srgb i).1 / scale_factor)%float)
         ∧ out_weights out !! Z.to_nat i
           = Some (if (scale_factor <? 1.0)%float
                   then ((line_pre_sample buf w h srgb i).2 / scale_factor)%float
                   else (line_pre_sample buf w h srgb i).2)).
Proof.
  split.
  - intros buf w h srgb offsets weights Hw Hbuf Hint Ho Hwt sf positions.
    exists (emitted offsets weights (dot_samples buf w srgb sf DOTIMG_NUMSTRIPS)).
    split; [by apply rs_analyze_dot_spec|].
    assert (dot_samples buf w srgb sf DOTIMG_NUMSTRIPS
            = (λ p, rescale sf (dot_pre_sample buf w srgb sf p.1 p.2)) <$> positions)
      as Heq.
    { rewrite dot_samples_pre, dot_pre_samples_positions.
      by rewrite <- list_fmap_compose. }
    unfold emitted. cbn [dot_count dot_offsets dot_weights].
    rewrite Heq, length_fmap.
    split; [done|].
    split; [intros strip dstpos; apply (elem_of_dot_positions sf w _ (strip, dstpos))|].
    intros n strip dstpos Hn.
    pose proof (lookup_lt_Some _ _ _ Hn) as Hlt.
    rewrite !lookup_app_l by (by rewrite !length_fmap).
    rewrite !list_lookup_fmap, Hn. cbn [fmap option_fmap option_map fst snd].
    by rewrite <- rescale_fst, <- rescale_snd.
  - intros buf w h srgb offsets weights Hw Hh Hbuf Hint Ho Hwt sf.
    eexists. split; [by apply rs_analyze_line_spec|].
    fold sf. split; [done|]. cbn [out_offsets out_weights]. intros i Hi.
    assert (length (line_samples buf w h srgb sf w) = Z.to_nat w) as Hlen.
    { unfold line_samples. by rewrite length_fmap, length_seqZ. }
    rewrite !lookup_app_l by (rewrite length_fmap; lia).
    rewrite !list_lookup_fmap, line_samples_lookup by done. cbn [fmap option_fmap option_map].
    by rewrite <- rescale_fst, <- rescale_snd.
Qed.

End Rescale.

(** A 2 x 275 raster of bright pixels for the dot analyzer, and the same
    550 bytes as a 2 x 275 raster for the line analyzer.  Both scale
    factors are below 1: the weights are divided, the offsets are not.
    The dot analyzer stores 48 samples (two columns are skipped); the
    first is that of column 0 of strip 0, whose 11 bright pixels give the
    weight 11 before the division. *)
Lemma rescale_one_component_witness :
  let buf := replicate 550 250 in
  let arr := replicate 50 0.0%float in
  let sf_dot := (of_int 2 / of_int DOTIMG_SRC_WIDTH)%float in
  let sf_line := (of_int 2 / of_int LINEIMG_SRC_WIDTH)%float in
  (∃ out,
     @rs_analyze_dot libm_no_pow buf 2 275 0 arr arr = Some (sf_dot, out)
     ∧ dot_count out = 48
     ∧ dot_offsets out !! 0%nat = Some (nearest_offset sf_dot 2 0 0)
     ∧ dot_weights out !! 0%nat = Some (11.0 / sf_dot)%float
     ∧ dot_weights out !! 0%nat = Some 3063.5%float)
  ∧ (∃ out,
     @rs_analyze_line libm_no_pow buf 2 275 0 arr arr = Some out
     ∧ out_scale_factor out = sf_line
     ∧ out_offsets out !! 0%nat = Some (-0.5)%float
     ∧ out_weights out !! 0%nat = Some (1.0 / sf_line)%float
     ∧ out_weights out !! 0%nat = Some 7.5%float).
Proof.
  split.
  - destruct (proj1 (@rescale_one_component libm_no_pow)
      (replicate 550 250) 2 275 0 (replicate 50 0.0%float) (replicate 50 0.0%float))
      as (out & Hout & Hcount & _ & Hsample); [vm_compute; discriminate..|].
    destruct (Hsample 0%nat 0 0) as [Hoff Hwt]; [vm_compute; reflexivity|].
    exists out. split; [exact Hout|].
    split; [rewrite Hcount; vm_compute; reflexivity|].
    split; [rewrite Hoff; vm_compute; reflexivity|].
    split; rewrite Hwt; vm_compute; reflexivity.
  - destruct (proj2 (@rescale_one_component libm_no_pow)
      (replicate 550 250) 2 275 0 (replicate 50 0.0%float) (replicate 50 0.0%float))
      as (out & Hout & Hsf & Hsample); [vm_compute; discriminate..|].
    destruct (Hsample 0) as [Hoff Hwt]; [lia|].
    change (Z.to_nat 0) with 0%nat in Hoff, Hwt.
    exists out. split; [exact Hout|]. split; [exact Hsf|].
    split; [rewrite Hoff; vm_compute; reflexivity|].
    split; rewrite Hwt; vm_compute; reflexivity.
Defined.

(** ** The rows that the line analyzer samples *)

Section LineRows.
Context `{Libm}.

(** C8.  The row that [rs_analyze_line] samples for column [i]: when
    [h >= 3] it is [h/2 + (i mod 3) - 1] ([h/2] is C's integer division)
    clamped into [0, h-1], where the clamp changes nothing, so that the
    columns cycle through the three adjacent rows [h/2 - 1], [h/2],
    [h/2 + 1] with period 3; when [h < 3] it is always [h/2].  The weight
    that the call stores for column [i] is the one of the pixel at column
    [i] of that row.  The inputs are those on which the C code is
    defined: a raster of [w] columns and [h >= 1] rows with at most
    [INT_MAX] pixels, and output arrays of [w] entries. *)
Theorem line_row_cycle buf w h srgb offsets weights :
  0 ≤ w → 1 ≤ h →
  w * h ≤ Z.of_nat (length buf) →
  w * h ≤ INT_MAX →
  w ≤ Z.of_nat (length offsets) →
  w ≤ Z.of_nat (length weights) →
  let scale_factor := (of_int w / of_int LINEIMG_SRC_WIDTH)%float in
  let row i :=
    if decide (3 ≤ h) then Z.max 0 (Z.min (h - 1) (h ÷ 2 + i `mod` 3 - 1))
    else h ÷ 2 in
  ∃ out, rs_analyze_line buf w h srgb offsets weights = Some out ∧
    ∀ i, 0 ≤ i < w →
      0 ≤ row i ≤ h - 1
      ∧ (3 ≤ h → row i = h ÷ 2 + i `mod` 3 - 1 ∧ row (i + 3) = row i)
      ∧ ∃ v, read_pixel buf w i (row i) srgb = Some v
           ∧ out_weights out !! Z.to_nat i
             = Some (if (scale_factor <? 1.0)%float
                     then ((v - 50.0) / 200.0 / scale_factor)%float
                     else ((v - 50.0) / 200.0)%float).
Proof.
  intros Hw Hh Hbuf Hint Ho Hwt sf row.
  eexists. split; [by apply rs_analyze_line_spec|].
  fold sf. cbn [out_weights]. intros i Hi.
  assert (∀ j, 0 ≤ j → line_row h (h ÷ 2) j = row j
                       ∧ (3 ≤ h → row j = h ÷ 2 + j `mod` 3 - 1)) as Hrow.
  { intros j Hj. unfold row. destruct (decide (3 ≤ h)) as [Hge|Hsmall].
    - destruct (line_row_unclamped h j Hj Hge) as [-> Hin].
      rewrite Z.quot_div_nonneg by lia. split; [lia|]. intros _. lia.
    - split; [apply line_row_degenerate; lia|]. intros ?. lia. }
  destruct (Hrow i ltac:(lia)) as [Hi_row Hi_cycle].
  pose proof (line_row_in_bounds h i Hh ltac:(lia)) as Hin. rewrite Hi_row in Hin.
  split; [exact Hin|]. split.
  { intros Hge. split; [by apply Hi_cycle|].
    destruct (Hrow (i + 3) ltac:(lia)) as [_ Hcycle3].
    rewrite (Hcycle3 Hge), (Hi_cycle Hge).
    replace ((i + 3) `mod` 3) with (i `mod` 3)
      by (rewrite <- (Z_mod_plus_full i 1 3); f_equal; lia).
    done. }
  exists (pixel buf w i (row i) srgb). split.
  - apply read_pixel_Some.
    + apply raster_index with (rows := h); (done || lia).
    + apply (raster_index_int w h); (done || lia).
  - assert (length (line_samples buf w h srgb sf w) = Z.to_nat w) as Hlen.
    { unfold line_samples. by rewrite length_fmap, length_seqZ. }
    rewrite lookup_app_l by (rewrite length_fmap; lia).
    rewrite list_lookup_fmap, line_samples_lookup by done.
    cbn [fmap option_fmap option_map]. rewrite rescale_snd.
    unfold line_pre_sample. cbn [snd]. by rewrite Hi_row.
Qed.

End LineRows.

(** A raster of 5 columns and 5 rows whose row [r] holds the byte
    [50 + 40 * r]. *)
Lemma line_row_cycle_witness :
  let buf := replicate 5 50 ++ replicate 5 90 ++ replicate 5 130
             ++ replicate 5 170 ++ replicate 5 210 in
  let arr := replicate 5 0.0%float in
  let scale_factor := (of_int 5 / of_int LINEIMG_SRC_WIDTH)%float in
  let row i :=
    if decide (3 ≤ 5) then Z.max 0 (Z.min (5 - 1) (5 ÷ 2 + i `mod` 3 - 1))
    else 5 ÷ 2 in
  (0 ≤ 5 ∧ 1 ≤ 5 ∧ 5 * 5 ≤ Z.of_nat (length buf) ∧ 5 * 5 ≤ INT_MAX
   ∧ 5 ≤ Z.of_nat (length arr))
  ∧ ∃ out, @rs_analyze_line libm_no_pow buf 5 5 0 arr arr = Some out ∧
      ∀ i, 0 ≤ i < 5 →
        0 ≤ row i ≤ 5 - 1
        ∧ (3 ≤ 5 → row i = 5 ÷ 2 + i `mod` 3 - 1 ∧ row (i + 3) = row i)
        ∧ ∃ v, @read_pixel libm_no_pow buf 5 i (row i) 0 = Some v
             ∧ out_weights out !! Z.to_nat i
               = Some (if (scale_factor <? 1.0)%float
                       then ((v - 50.0) / 200.0 / scale_factor)%float
                       else ((v - 50.0) / 200.0)%float).
Proof.
  intros buf arr scale_factor row.
  assert (5 * 5 ≤ Z.of_nat (length buf)) as Hbuf by (vm_compute; discriminate).
  assert (5 * 5 ≤ INT_MAX) as Hint by (vm_compute; discriminate).
  assert (5 ≤ Z.of_nat (length arr)) as Harr by (vm_compute; discriminate).
  split; [repeat split; (lia || done)|].
  exact (@line_row_cycle libm_no_pow buf 5 5 0 arr arr ltac:(lia) ltac:(lia)
           Hbuf Hint Harr Harr).
Defined.

(** The same raster by evaluation: the columns sample the rows 1, 2, 3,
    1, 2, whose bytes 90, 130, 170 give the weights 0.2, 0.4, 0.6 before
    the division by [scale_factor = 1/3]. *)
Example line_rows_by_evaluation :
  let buf := replicate 5 50 ++ replicate 5 90 ++ replicate 5 130
             ++ replicate 5 170 ++ replicate 5 210 in
  let arr := replicate 5 0.0%float in
  out_weights <$> @rs_analyze_line libm_no_pow buf 5 5 0 arr arr
  = Some ((λ v, ((v - 50.0) / 200.0 / (5.0 / 15.0))%float)
            <$> [90.0; 130.0; 170.0; 90.0; 130.0]%float).
Proof. vm_compute. reflexivity. Qed.

(** ** The anchors of the sRGB remap *)

Section Anchors.
Context `{Libm}.

(** C6.  [read_pixel] on a raw byte 50 returns exactly 50.0 and on a raw
    byte 250 exactly 250.0, with and without [srgb], for every buffer,
    stride and coordinates.  With [srgb] the result goes through [pow],
    which is libm's: the statement is for every libm whose [pow] puts the
    difference of the two linear anchors strictly between 25/32 and 1
    (its value is about 0.924).  Every operation is the binary64 one:
    [x - x] is 0, [0 * (200 / d) + 50] is 50, and [d * (200 / d)] rounds
    to exactly 200 for every such [d]. *)
Theorem read_pixel_anchors (buf : list Z) (stride x y srgb : Z) :
  let srgb50_lin := c_srgb_to_linear (50.0 / 255.0)%float in
  let srgb250_lin := c_srgb_to_linear (250.0 / 255.0)%float in
  (srgb ≠ 0 →
     (0.78125 <? srgb250_lin - srgb50_lin)%float = true
     ∧ (srgb250_lin - srgb50_lin <? 1)%float = true) →
  (load buf (y * stride + x) = Some DARK →
     read_pixel buf stride x y srgb = Some 50.0%float)
  ∧ (load buf (y * stride + x) = Some BRIGHT →
     read_pixel buf stride x y srgb = Some 250.0%float).
Proof.
  intros lin50 lin250 Hlibm. unfold read_pixel.
  destruct (Z.eqb_spec srgb 0) as [->|Hsrgb]; simpl negb; cbv iota.
  - split; intros ->; reflexivity.
  - destruct (Hlibm Hsrgb) as [Hlo Hhi].
    split; intros ->; cbn [mbind option_bind]; cbv zeta.
    + change (of_int DARK) with 50%float.
      change (250 - 50)%float with 200%float.
      fold lin50 lin250. f_equal. by apply sub_self_mul_add_50.
    + change (of_int BRIGHT) with 250%float.
      change (250 - 50)%float with 200%float.
      fold lin50 lin250. f_equal. by rewrite mul_div_200.
Qed.

End Anchors.

Lemma read_pixel_anchors_witness :
  let srgb50_lin := @c_srgb_to_linear libm_newton (50.0 / 255.0)%float in
  let srgb250_lin := @c_srgb_to_linear libm_newton (250.0 / 255.0)%float in
  ((0.78125 <? srgb250_lin - srgb50_lin)%float = true
   ∧ (srgb250_lin - srgb50_lin <? 1)%float = true)
  ∧ load [50; 250] (0 * 2 + 0) = Some DARK
  ∧ load [50; 250] (0 * 2 + 1) = Some BRIGHT
  ∧ @read_pixel libm_newton [50; 250] 2 0 0 1 = Some 50.0%float
  ∧ @read_pixel libm_newton [50; 250] 2 1 0 1 = Some 250.0%float.
Proof.
  assert ((0.78125 <? @c_srgb_to_linear libm_newton (250.0 / 255.0)
                      - @c_srgb_to_linear libm_newton (50.0 / 255.0))%float = true
          ∧ (@c_srgb_to_linear libm_newton (250.0 / 255.0)
             - @c_srgb_to_linear libm_newton (50.0 / 255.0) <? 1)%float = true) as Hlibm.
  { split; vm_compute; reflexivity. }
  split; [exact Hlibm|].
  split; [reflexivity|]. split; [reflexivity|].
  split.
  - apply (proj1 (@read_pixel_anchors libm_newton [50; 250] 2 0 0 1 (λ _, Hlibm))).
    reflexivity.
  - apply (proj2 (@read_pixel_anchors libm_newton [50; 250] 2 1 0 1 (λ _, Hlibm))).
    reflexivity.
Defined.

(** The sampler by evaluation, without and with [srgb]: the anchors come
    back exactly, other bytes move. *)
Example read_pixel_examples :
  (λ x, @read_pixel libm_no_pow [50; 250; 128] 3 x 0 0) <$> [0; 1; 2]
  = [Some 50.0%float; Some 250.0%float; Some 128.0%float]
  ∧ (λ x, @read_pixel libm_newton [50; 250; 128] 3 x 0 1) <$> [0; 1; 2]
    = [Some 50.0%float; Some 250.0%float; Some 89.815816928781487%float].
Proof. split; vm_compute; reflexivity. Qed.

(** * Further properties *)

(** ** The generators on any buffer *)

Lemma rs_generate_dot_pattern_frame buf :
  DOTIMG_SRC_WIDTH * DOTIMG_SRC_HEIGHT ≤ Z.of_nat (length buf) →
  ∃ img, rs_generate_dot_pattern buf = Some img
    ∧ drop (Z.to_nat (DOTIMG_SRC_WIDTH * DOTIMG_SRC_HEIGHT)) img
      = drop (Z.to_nat (DOTIMG_SRC_WIDTH * DOTIMG_SRC_HEIGHT)) buf.
Proof.
  intros Hlen. unfold rs_generate_dot_pattern, memset.
  destruct (Z.leb_spec 0 (DOTIMG_SRC_WIDTH * DOTIMG_SRC_HEIGHT)); [|done].
  destruct (Z.leb_spec (DOTIMG_SRC_WIDTH * DOTIMG_SRC_HEIGHT) (Z.of_nat (length buf)));
    [|lia].
  simpl andb. cbv iota. cbn [mbind option_bind].
  set (N := Z.to_nat (DOTIMG_SRC_WIDTH * DOTIMG_SRC_HEIGHT)).
  set (frame := λ b : list Z, length b = length buf ∧ drop N b = drop N buf).
  assert (frame (replicate N (DARK `mod` 256) ++ drop N buf)) as Hstart.
  { split.
    - rewrite length_app, length_replicate, length_drop. lia.
    - by rewrite drop_app_length' by (by rewrite length_replicate). }
  destruct (for_range_inv (λ _ b, frame b)
    (λ j b, for_range 0 DOTIMG_SRC_WIDTH 1 (λ i b, dot_pattern_body j i b) b)
    0 DOTIMG_SRC_HEIGHT _ ltac:(done) Hstart) as (img & Himg & _ & Hdrop).
  - intros j b Hj Hb.
    apply (for_range_inv (λ _ b, frame b)); [done|done|].
    intros i b' Hi [Hl Hd].
    assert (0 ≤ j * DOTIMG_SRC_WIDTH + i < DOTIMG_SRC_WIDTH * DOTIMG_SRC_HEIGHT) as Hidx.
    { unfold DOTIMG_SRC_WIDTH, DOTIMG_SRC_HEIGHT, DOTIMG_NUMSTRIPS, DOTIMG_HPIXELSPAN,
        DOTIMG_STRIPHEIGHT in *. lia. }
    rewrite dot_pattern_body_spec by lia.
    eexists; split; [done|].
    destruct (dot_is_bright i j); [|done]. split.
    + by rewrite length_insert.
    + rewrite drop_insert_lt by lia. done.
  - exists img. split; [exact Himg|exact Hdrop].
Qed.

Lemma dot_image_length :
  length dot_image = Z.to_nat (DOTIMG_SRC_WIDTH * DOTIMG_SRC_HEIGHT).
Proof. unfold dot_image. by rewrite length_fmap, length_seqZ. Qed.

Lemma dot_image_lookup (p : Z) :
  0 ≤ p < DOTIMG_SRC_WIDTH * DOTIMG_SRC_HEIGHT →
  dot_image !! Z.to_nat p
  = Some (if dot_is_bright (p `mod` DOTIMG_SRC_WIDTH) (p `div` DOTIMG_SRC_WIDTH)
          then BRIGHT else DARK).
Proof.
  intros Hp. unfold dot_image.
  rewrite list_lookup_fmap, lookup_seqZ_lt by lia. simpl.
  by rewrite Z2Nat.id by lia.
Qed.

(** A list whose first [n] entries are those of [image] is [image]
    followed by its own tail. *)
Lemma prefix_by_lookup (image l : list Z) (n : nat) :
  length image = n → (n ≤ length l)%nat →
  (∀ i, (i < n)%nat → l !! i = image !! i) →
  l = image ++ drop n l.
Proof.
  intros Himg Hl Hlook. rewrite <- (take_drop n l) at 1. f_equal.
  apply list_eq. intros i. destruct (Nat.lt_ge_cases i n) as [Hi|Hi].
  - rewrite lookup_take_lt by done. by apply Hlook.
  - rewrite lookup_take_ge by done. symmetry. apply lookup_ge_None. lia.
Qed.

(** X4.  [rs_generate_dot_pattern] is undefined exactly on a buffer
    shorter than the image ([rs_dot_src_width * rs_dot_src_height]
    bytes).  On any other buffer it overwrites the image bytes with an
    image that does not depend on what the buffer held, and leaves every
    byte after the image as it was. *)
Theorem rs_generate_dot_pattern_eq (buf : list Z) :
  rs_generate_dot_pattern buf
  = if decide (rs_dot_src_width * rs_dot_src_height ≤ Z.of_nat (length buf))
    then Some (dot_image ++ drop (Z.to_nat (rs_dot_src_width * rs_dot_src_height)) buf)
    else None.
Proof.
  unfold rs_dot_src_width, rs_dot_src_height.
  destruct (decide _) as [Hlen|Hshort].
  - destruct (rs_generate_dot_pattern_painted buf Hlen) as (img & Himg & Hl & Hpx).
    destruct (rs_generate_dot_pattern_frame buf Hlen) as (img' & Himg' & Hdrop).
    rewrite Himg in Himg'. injection Himg' as <-.
    rewrite Himg. f_equal. rewrite <- Hdrop.
    apply prefix_by_lookup; [apply dot_image_length|lia|].
    intros i Hi. rewrite <- (Nat2Z.id i).
    rewrite Hpx, dot_image_lookup by lia.
    destruct (Z.ltb_spec (Z.of_nat i) (DOTIMG_SRC_WIDTH * DOTIMG_SRC_HEIGHT)); [done|lia].
  - unfold rs_generate_dot_pattern, memset.
    destruct (Z.leb_spec (DOTIMG_SRC_WIDTH * DOTIMG_SRC_HEIGHT) (Z.of_nat (length buf)));
      [lia|]. by rewrite andb_false_r.
Qed.

Lemma rs_generate_line_pattern_painted buf :
  LINEIMG_SRC_WIDTH * LINEIMG_SRC_HEIGHT ≤ Z.of_nat (length buf) →
  ∃ img, rs_generate_line_pattern buf = Some img
    ∧ line_painted (length buf) LINEIMG_SRC_HEIGHT img
    ∧ drop (Z.to_nat (LINEIMG_SRC_WIDTH * LINEIMG_SRC_HEIGHT)) img
      = drop (Z.to_nat (LINEIMG_SRC_WIDTH * LINEIMG_SRC_HEIGHT)) buf.
Proof.
  intros Hlen. unfold rs_generate_line_pattern. cbv zeta.
  destruct (memset_line_painted buf Hlen) as (buf1 & Hmem & H1).
  assert (drop (Z.to_nat (LINEIMG_SRC_WIDTH * LINEIMG_SRC_HEIGHT)) buf1
          = drop (Z.to_nat (LINEIMG_SRC_WIDTH * LINEIMG_SRC_HEIGHT)) buf) as Hd1.
  { unfold memset in Hmem. case_match; [|done]. simplify_eq.
    rewrite drop_app_length'; [done|]. by rewrite length_replicate. }
  rewrite Hmem. cbn [mbind option_bind].
  set (N := Z.to_nat (LINEIMG_SRC_WIDTH * LINEIMG_SRC_HEIGHT)) in *.
  destruct (for_range_inv
    (λ j b, line_painted (length buf) j b ∧ drop N b = drop N buf)
    (λ j b, store b (j * LINEIMG_SRC_WIDTH + LINEIMG_SRC_WIDTH ÷ 2) BRIGHT)
    0 LINEIMG_SRC_HEIGHT buf1) as (img & Himg & Hp & Hd); [done|done| |by exists img].
  intros j b Hj [Hb Hd].
  destruct (line_painted_step _ j b Hj Hlen Hb) as (b' & Hstore & Hb').
  exists b'. split; [done|]. split; [done|].
  unfold store in Hstore. destruct (_ && _) eqn:Hin; [|done].
  injection Hstore as <-. rewrite drop_insert_lt; [done|].
  apply andb_true_iff in Hin as [_ Hin%Z.ltb_lt].
  change LINEIMG_SRC_HEIGHT with 15 in *. change LINEIMG_SRC_WIDTH with 15 in *.
  change (15 ÷ 2) with 7 in *. lia.
Qed.

Lemma line_image_length :
  length line_image = Z.to_nat (LINEIMG_SRC_WIDTH * LINEIMG_SRC_HEIGHT).
Proof. unfold line_image. by rewrite length_fmap, length_seqZ. Qed.

(** X5.  [rs_generate_line_pattern] is undefined exactly on a buffer
    shorter than the image ([rs_line_src_width * rs_line_src_height]
    bytes).  On any other buffer it overwrites the image bytes with an
    image that does not depend on what the buffer held, and leaves every
    byte after the image as it was. *)
Theorem rs_generate_line_pattern_eq (buf : list Z) :
  rs_generate_line_pattern buf
  = if decide (rs_line_src_width * rs_line_src_height ≤ Z.of_nat (length buf))
    then Some (line_image ++ drop (Z.to_nat (rs_line_src_width * rs_line_src_height)) buf)
    else None.
Proof.
  unfold rs_line_src_width, rs_line_src_height.
  destruct (decide _) as [Hlen|Hshort].
  - destruct (rs_generate_line_pattern_painted buf Hlen)
      as (img & Himg & [Hl Hpx] & Hdrop).
    rewrite Himg. f_equal. rewrite <- Hdrop.
    apply prefix_by_lookup; [apply line_image_length|lia|].
    intros i Hi. rewrite <- (Nat2Z.id i). rewrite Hpx by lia.
    unfold line_image. rewrite list_lookup_fmap, lookup_seqZ_lt by lia. simpl.
    assert (Z.of_nat i `div` LINEIMG_SRC_WIDTH < LINEIMG_SRC_HEIGHT) as Hrow.
    { apply Z.div_lt_upper_bound; [done|lia]. }
    destruct (Z.ltb_spec (Z.of_nat i `div` LINEIMG_SRC_WIDTH) LINEIMG_SRC_HEIGHT); [|lia].
    by rewrite Nat2Z.id.
  - unfold rs_generate_line_pattern, memset. cbv zeta.
    destruct (Z.leb_spec (LINEIMG_SRC_WIDTH * LINEIMG_SRC_HEIGHT) (Z.of_nat (length buf)));
      [lia|]. by rewrite andb_false_r.
Qed.

(** The line image by evaluation: its first row and its bright pixels. *)
Example line_image_by_evaluation :
  take 15 line_image = [50; 50; 50; 50; 50; 50; 50; 250; 50; 50; 50; 50; 50; 50; 50]
  ∧ Z.of_nat (length (filter (λ b, b = BRIGHT) line_image)) = 15.
Proof. split; vm_compute; reflexivity. Qed.

(** ** The dots of the generator and the candidates of the analyzer *)

Lemma fold_left_snoc {A} (l acc : list A) :
  fold_left (λ ks k, ks ++ [k]) l acc = acc ++ l.
Proof.
  revert acc. induction l as [|a l IH]; intros acc; simpl; [by rewrite app_nil_r|].
  by rewrite IH, <- app_assoc.
Qed.

(** The values that the loop header of the search gives to [k]. *)
Lemma nearest_loop_values strip :
  for_range (DOTIMG_HCENTER + strip) (DOTIMG_SRC_WIDTH - DOTIMG_HCENTER)
    DOTIMG_HPIXELSPAN (λ k ks, Some (ks ++ [k])) []
  = Some (dot_centers strip).
Proof.
  rewrite for_range_foldlM by done.
  rewrite (foldlM_pure (λ k ks, ks ++ [k])). by rewrite fold_left_snoc.
Qed.

Lemma dot_is_bright_centers (strip row i : Z) :
  0 ≤ strip → 0 ≤ row < DOTIMG_STRIPHEIGHT →
  dot_is_bright i (DOTIMG_STRIPHEIGHT * strip + row) = true
  ↔ row = DOTIMG_VCENTER ∧ i ∈ dot_centers strip.
Proof.
  intros Hstrip Hrow.
  rewrite dot_is_bright_iff by (unfold DOTIMG_STRIPHEIGHT in *; lia).
  rewrite elem_of_dot_centers.
  replace ((DOTIMG_STRIPHEIGHT * strip + row) `mod` DOTIMG_STRIPHEIGHT) with row.
  2:{ rewrite Z.add_comm, Z.mul_comm, Z.mod_add by done. by rewrite Z.mod_small. }
  replace ((DOTIMG_STRIPHEIGHT * strip + row) `div` DOTIMG_STRIPHEIGHT) with strip.
  2:{ rewrite Z.add_comm, Z.mul_comm, Z.div_add by done.
      rewrite Z.div_small by done. lia. }
  change DOTIMG_HCENTER with 12. change DOTIMG_HPIXELSPAN with 25.
  change DOTIMG_SRC_WIDTH with 557.
  split.
  - intros (Hr & Hi & Hrem). split; [done|].
    assert (0 ≤ i - strip) as Hpos.
    { destruct (Z.le_gt_cases 0 (i - strip)) as [|Hneg]; [done|].
      pose proof (Z.rem_nonpos (i - strip) 25 ltac:(lia) ltac:(lia)). lia. }
    exists ((i - strip) ÷ 25). split; [by apply Z.quot_pos|].
    pose proof (Z.quot_rem' (i - strip) 25). lia.
  - intros (Hr & n & Hn & -> & Hlt). split; [done|]. split; [lia|].
    replace (12 + strip + 25 * n - strip) with (12 + n * 25) by lia.
    rewrite Z.rem_mod_nonneg by lia. rewrite Z.mod_add by done. done.
Qed.

(** X6.  The generator and the analyzer agree on where the dots are.  In
    the generated image the pixel at column [i] of row [row] of strip
    [strip] is bright exactly when [row] is the centre row of the strip
    and [i] is one of the values that the loop over [k] of
    [rs_analyze_dot] takes for that strip; every other pixel is dark. *)
Theorem dots_are_the_candidates (buf : list Z) (strip row i : Z) :
  DOTIMG_SRC_WIDTH * DOTIMG_SRC_HEIGHT ≤ Z.of_nat (length buf) →
  0 ≤ strip < DOTIMG_NUMSTRIPS → 0 ≤ row < DOTIMG_STRIPHEIGHT →
  0 ≤ i < DOTIMG_SRC_WIDTH →
  ∃ img ks,
    rs_generate_dot_pattern buf = Some img
    ∧ for_range (DOTIMG_HCENTER + strip) (DOTIMG_SRC_WIDTH - DOTIMG_HCENTER)
        DOTIMG_HPIXELSPAN (λ k ks, Some (ks ++ [k])) [] = Some ks
    ∧ img !! Z.to_nat ((DOTIMG_STRIPHEIGHT * strip + row) * DOTIMG_SRC_WIDTH + i)
      = Some (if decide (row = DOTIMG_VCENTER ∧ i ∈ ks) then BRIGHT else DARK).
Proof.
  intros Hlen Hstrip Hrow Hi.
  destruct (rs_generate_dot_pattern_painted buf Hlen) as (img & Himg & _ & Hpx).
  exists img, (dot_centers strip). split; [done|].
  split; [apply nearest_loop_values|].
  assert (0 ≤ DOTIMG_STRIPHEIGHT * strip + row < DOTIMG_SRC_HEIGHT) as Hj.
  { unfold DOTIMG_SRC_HEIGHT, DOTIMG_NUMSTRIPS, DOTIMG_HPIXELSPAN, DOTIMG_STRIPHEIGHT in *.
    lia. }
  set (j := DOTIMG_STRIPHEIGHT * strip + row) in *.
  assert (0 ≤ j * DOTIMG_SRC_WIDTH + i < DOTIMG_SRC_WIDTH * DOTIMG_SRC_HEIGHT) as Hidx.
  { unfold DOTIMG_SRC_WIDTH, DOTIMG_SRC_HEIGHT, DOTIMG_NUMSTRIPS, DOTIMG_HPIXELSPAN,
      DOTIMG_STRIPHEIGHT in *. lia. }
  rewrite (Hpx _ Hidx), dot_index_mod, dot_index_div by done.
  destruct (Z.ltb_spec (j * DOTIMG_SRC_WIDTH + i) (DOTIMG_SRC_WIDTH * DOTIMG_SRC_HEIGHT));
    [|lia].
  simpl andb.
  pose proof (dot_is_bright_centers strip row i ltac:(lia) Hrow) as Hiff. fold j in Hiff.
  destruct (dot_is_bright i j), (decide _) as [Hc|Hc]; try done.
  - exfalso. apply Hc. by apply Hiff.
  - apply Hiff in Hc. discriminate.
Qed.

Lemma dots_are_the_candidates_witness :
  DOTIMG_SRC_WIDTH * DOTIMG_SRC_HEIGHT
    ≤ Z.of_nat (length (replicate (Z.to_nat 153175) 0))
  ∧ 0 ≤ 3 < DOTIMG_NUMSTRIPS ∧ 0 ≤ 5 < DOTIMG_STRIPHEIGHT ∧ 0 ≤ 40 < DOTIMG_SRC_WIDTH
  ∧ ∃ img ks,
      rs_generate_dot_pattern (replicate (Z.to_nat 153175) 0) = Some img
      ∧ for_range (DOTIMG_HCENTER + 3) (DOTIMG_SRC_WIDTH - DOTIMG_HCENTER)
          DOTIMG_HPIXELSPAN (λ k ks, Some (ks ++ [k])) [] = Some ks
      ∧ img !! Z.to_nat ((DOTIMG_STRIPHEIGHT * 3 + 5) * DOTIMG_SRC_WIDTH + 40)
        = Some (if decide (5 = DOTIMG_VCENTER ∧ 40 ∈ ks) then BRIGHT else DARK).
Proof.
  assert (DOTIMG_SRC_WIDTH * DOTIMG_SRC_HEIGHT
          ≤ Z.of_nat (length (replicate (Z.to_nat 153175) 0))) as Hlen.
  { rewrite length_replicate. vm_compute. discriminate. }
  split; [exact Hlen|].
  split; [vm_compute; split; congruence|].
  split; [vm_compute; split; congruence|].
  split; [vm_compute; split; congruence|].
  apply (dots_are_the_candidates (replicate (Z.to_nat 153175) 0) 3 5 40 Hlen);
    vm_compute; split; congruence.
Defined.

(** The dots of strip 3, and how many dots the strips have: 22 in the
    strips 0 to 7, 21 in the others. *)
Example dot_centers_examples :
  dot_centers 3 = [15; 40; 65; 90; 115; 140; 165; 190; 215; 240; 265; 290; 315; 340;
                   365; 390; 415; 440; 465; 490; 515; 540]
  ∧ (λ strip, length (dot_centers strip)) <$> seqZ 0 DOTIMG_NUMSTRIPS
    = replicate 8 22%nat ++ replicate 17 21%nat.
Proof. split; vm_compute; reflexivity. Qed.

(** ** What the analyzers write, and what they read *)

Section Frames.
Context `{Libm}.

(** X7.  [rs_analyze_dot] writes the entries [0 .. count-1] of the two
    output arrays and nothing else: the arrays keep their length and every
    entry from index [count] on is as it was before the call.  The raster
    has at most [INT_MAX] pixels, so that no index overflows. *)
Theorem rs_analyze_dot_frame buf w h srgb offsets weights :
  0 ≤ w →
  w * DOTIMG_DST_HEIGHT ≤ Z.of_nat (length buf) →
  w * DOTIMG_DST_HEIGHT ≤ INT_MAX →
  w * DOTIMG_NUMSTRIPS ≤ Z.of_nat (length offsets) →
  w * DOTIMG_NUMSTRIPS ≤ Z.of_nat (length weights) →
  ∃ scale_factor out,
    rs_analyze_dot buf w h srgb offsets weights = Some (scale_factor, out)
    ∧ length (dot_offsets out) = length offsets
    ∧ length (dot_weights out) = length weights
    ∧ drop (Z.to_nat (dot_count out)) (dot_offsets out)
      = drop (Z.to_nat (dot_count out)) offsets
    ∧ drop (Z.to_nat (dot_count out)) (dot_weights out)
      = drop (Z.to_nat (dot_count out)) weights.
Proof.
  intros Hw Hbuf Hint Ho Hwt.
  eexists _, _. split; [by apply rs_analyze_dot_spec|].
  pose proof (dot_samples_length buf w srgb (of_int w / of_int DOTIMG_SRC_WIDTH)
    DOTIMG_NUMSTRIPS Hw ltac:(done)) as Hlen.
  unfold emitted. cbn [dot_count dot_offsets dot_weights].
  rewrite Nat2Z.id, !length_app, !length_fmap, !length_drop.
  split; [lia|]. split; [lia|].
  split; apply drop_app_length'; by rewrite length_fmap.
Qed.

(** X8.  [rs_analyze_line] writes the entries [0 .. w-1] of the two
    output arrays and nothing else: the arrays keep their length and every
    entry from index [w] on is as it was before the call.  The raster has
    at most [INT_MAX] pixels, so that no index overflows. *)
Theorem rs_analyze_line_frame buf w h srgb offsets weights :
  0 ≤ w → 1 ≤ h →
  w * h ≤ Z.of_nat (length buf) →
  w * h ≤ INT_MAX →
  w ≤ Z.of_nat (length offsets) →
  w ≤ Z.of_nat (length weights) →
  ∃ out,
    rs_analyze_line buf w h srgb offsets weights = Some out
    ∧ length (out_offsets out) = length offsets
    ∧ length (out_weights out) = length weights
    ∧ drop (Z.to_nat w) (out_offsets out) = drop (Z.to_nat w) offsets
    ∧ drop (Z.to_nat w) (out_weights out) = drop (Z.to_nat w) weights.
Proof.
  intros Hw Hh Hbuf Hint Ho Hwt.
  eexists. split; [by apply rs_analyze_line_spec|].
  cbn [out_offsets out_weights].
  assert (length (line_samples buf w h srgb (of_int w / of_int LINEIMG_SRC_WIDTH) w)
          = Z.to_nat w) as Hlen.
  { unfold line_samples. by rewrite length_fmap, length_seqZ. }
  rewrite !length_app, !length_fmap, !length_drop, Hlen.
  split; [lia|]. split; [lia|].
  split; apply drop_app_length'; by rewrite length_fmap.
Qed.

(** X9.  With no columns ([w <= 0]) the analyzers read no pixel and write
    no entry, whatever the buffer and the arrays are: the dot analyzer
    reports a count of 0, the line analyzer a total of 0 divided by the
    scale factor, which for [w = 0] is 0/0, a NaN. *)
Theorem analyzers_without_columns buf w h srgb offsets weights :
  w ≤ 0 →
  rs_analyze_dot buf w h srgb offsets weights
  = Some ((of_int w / of_int DOTIMG_SRC_WIDTH)%float, DotOut offsets weights 0)
  ∧ rs_analyze_line buf w h srgb offsets weights
    = Some (LineOut (of_int w / of_int LINEIMG_SRC_WIDTH)%float offsets weights
              (0.0 / (of_int w / of_int LINEIMG_SRC_WIDTH))%float)
  ∧ (w = 0 →
     ∃ out, rs_analyze_line buf w h srgb offsets weights = Some out
            ∧ is_nan (out_area out) = true).
Proof.
  intros Hw.
  assert (rs_analyze_line buf w h srgb offsets weights
    = Some (LineOut (of_int w / of_int LINEIMG_SRC_WIDTH)%float offsets weights
              (0.0 / (of_int w / of_int LINEIMG_SRC_WIDTH))%float)) as Hline.
  { unfold rs_analyze_line. cbv zeta. by rewrite for_range_empty by done. }
  split; [|split; [done|]].
  - unfold rs_analyze_dot. cbv zeta.
    match goal with |- context [for_range 0 DOTIMG_NUMSTRIPS 1 ?body ?st0] =>
      destruct (for_range_inv (λ _ st, st = st0) body 0 DOTIMG_NUMSTRIPS st0)
        as (st & -> & ->)
    end; [done|done| |done].
    intros strip st _ ->. eexists. split; [|done]. by apply for_range_empty.
  - intros ->. eexists. split; [exact Hline|]. reflexivity.
Qed.

(** The row that the line analyzer reads for a column is one of the three
    rows around the middle one. *)
Lemma line_row_near_middle (h i : Z) :
  0 ≤ i → h ÷ 2 - 1 ≤ line_row h (h ÷ 2) i ≤ h ÷ 2 + 1.
Proof.
  intros Hi. unfold line_row.
  destruct (Z.leb_spec 3 h) as [Hh|Hh]; [|lia].
  pose proof (Z.rem_bound_pos i 3 Hi ltac:(lia)) as Hr.
  pose proof (Z.quot_rem' h 2) as Hq.
  pose proof (Z.rem_bound_pos h 2 ltac:(lia) ltac:(lia)) as Hr2.
  repeat case_match; lia.
Qed.

(** The analyzers look at the image through [read_pixel] only: the line
    analyzer at the three rows around the middle one, the dot analyzer at
    the rows of the strips. *)
Lemma rs_analyze_line_ext buf1 buf2 w h srgb1 srgb2 offsets weights :
  (∀ x y, 0 ≤ x < w → h ÷ 2 - 1 ≤ y ≤ h ÷ 2 + 1 →
     read_pixel buf1 w x y srgb1 = read_pixel buf2 w x y srgb2) →
  rs_analyze_line buf1 w h srgb1 offsets weights
  = rs_analyze_line buf2 w h srgb2 offsets weights.
Proof.
  intros Hagree. unfold rs_analyze_line. cbv zeta.
  erewrite for_range_ext; [reflexivity|done|].
  intros i st Hi. unfold analyze_line_column.
  rewrite (Hagree i (line_row h (h ÷ 2) i)); [done|done|].
  apply line_row_near_middle. lia.
Qed.

Lemma rs_analyze_dot_ext buf1 buf2 w h1 h2 srgb1 srgb2 offsets weights :
  (∀ x y, 0 ≤ x < w → 0 ≤ y < DOTIMG_DST_HEIGHT →
     read_pixel buf1 w x y srgb1 = read_pixel buf2 w x y srgb2) →
  rs_analyze_dot buf1 w h1 srgb1 offsets weights
  = rs_analyze_dot buf2 w h2 srgb2 offsets weights.
Proof.
  intros Hagree. unfold rs_analyze_dot. cbv zeta.
  erewrite for_range_ext; [reflexivity|done|].
  intros strip st Hstrip. cbv beta.
  apply for_range_ext; [done|].
  intros dstpos st' Hd. unfold analyze_dot_column.
  destruct (for_range _ _ _ (nearest_step _ _ _) _) as [offset|]; [|done].
  cbn [mbind option_bind]. case_match; [done|].
  erewrite for_range_ext; [reflexivity|done|].
  intros row tot Hrow. unfold strip_sum_step.
  rewrite (Hagree dstpos (DOTIMG_STRIPHEIGHT * strip + row)); [done|done|].
  unfold DOTIMG_DST_HEIGHT, DOTIMG_SRC_HEIGHT, DOTIMG_NUMSTRIPS, DOTIMG_HPIXELSPAN,
    DOTIMG_STRIPHEIGHT in *. lia.
Qed.

Lemma read_pixel_load buf1 buf2 stride x y srgb :
  load buf1 (y * stride + x) = load buf2 (y * stride + x) →
  read_pixel buf1 stride x y srgb = read_pixel buf2 stride x y srgb.
Proof. unfold read_pixel. by intros ->. Qed.

(** X10.  The result of [rs_analyze_line] depends on the image only
    through the three rows [h/2 - 1], [h/2] and [h/2 + 1]: two images that
    agree on the first [w] columns of these rows give the same offsets,
    weights, area and scale factor, or are both outside the domain of the
    function. *)
Theorem rs_analyze_line_rows buf1 buf2 w h srgb offsets weights :
  (∀ x y, 0 ≤ x < w → h ÷ 2 - 1 ≤ y ≤ h ÷ 2 + 1 →
     load buf1 (y * w + x) = load buf2 (y * w + x)) →
  rs_analyze_line buf1 w h srgb offsets weights
  = rs_analyze_line buf2 w h srgb offsets weights.
Proof.
  intros Hagree. apply rs_analyze_line_ext.
  intros x y Hx Hy. by apply read_pixel_load, Hagree.
Qed.

(** X11.  [rs_analyze_dot] never looks at [h], and it depends on the image
    only through the first [w] columns of the rows [0 .. 274]: two images
    that agree there give the same result, whatever heights are passed. *)
Theorem rs_analyze_dot_rows buf1 buf2 w h1 h2 srgb offsets weights :
  (∀ x y, 0 ≤ x < w → 0 ≤ y < DOTIMG_DST_HEIGHT →
     load buf1 (y * w + x) = load buf2 (y * w + x)) →
  rs_analyze_dot buf1 w h1 srgb offsets weights
  = rs_analyze_dot buf2 w h2 srgb offsets weights.
Proof.
  intros Hagree. apply rs_analyze_dot_ext.
  intros x y Hx Hy. by apply read_pixel_load, Hagree.
Qed.

(** ** Images of two levels *)

(** On a byte that is [DARK] or [BRIGHT], [read_pixel] returns the byte as
    a double whether [srgb] is set or not, for a libm as in the section
    on the sampler. *)
Lemma read_pixel_level buf stride x y srgb b :
  (srgb ≠ 0 →
     (0.78125 <? c_srgb_to_linear (250.0 / 255.0) - c_srgb_to_linear (50.0 / 255.0))%float
       = true
     ∧ (c_srgb_to_linear (250.0 / 255.0) - c_srgb_to_linear (50.0 / 255.0) <? 1)%float
       = true) →
  load buf (y * stride + x) = Some b →
  b = DARK ∨ b = BRIGHT →
  read_pixel buf stride x y srgb = Some (of_int b).
Proof.
  intros Hlibm Hb Hlevel. unfold read_pixel. rewrite Hb. cbn [mbind option_bind].
  destruct (Z.eqb_spec srgb 0) as [->|Hsrgb]; simpl negb; cbv iota; [done|].
  destruct (Hlibm Hsrgb) as [Hlo Hhi]. cbv zeta.
  change (250 - 50)%float with 200%float.
  destruct Hlevel as [->| ->]; f_equal.
  - change (of_int DARK) with 50%float. by apply sub_self_mul_add_50.
  - change (of_int BRIGHT) with 250%float. by rewrite mul_div_200.
Qed.

Lemma read_pixel_two_levels buf stride x y srgb :
  (srgb ≠ 0 →
     (0.78125 <? c_srgb_to_linear (250.0 / 255.0) - c_srgb_to_linear (50.0 / 255.0))%float
       = true
     ∧ (c_srgb_to_linear (250.0 / 255.0) - c_srgb_to_linear (50.0 / 255.0) <? 1)%float
       = true) →
  Forall (λ b, b = DARK ∨ b = BRIGHT) buf →
  read_pixel buf stride x y srgb = read_pixel buf stride x y 0.
Proof.
  intros Hlibm Hbuf.
  destruct (load buf (y * stride + x)) as [b|] eqn:Hb.
  - assert (b = DARK ∨ b = BRIGHT) as Hlevel.
    { unfold load in Hb. case_match; [done|].
      by apply (Forall_lookup_1 _ _ _ _ Hbuf Hb). }
    rewrite (read_pixel_level buf stride x y srgb b) by done.
    by rewrite (read_pixel_level buf stride x y 0 b).
  - unfold read_pixel. by rewrite Hb.
Qed.

(** X12.  On an image all of whose bytes are [DARK] or [BRIGHT] the
    [srgb] flag changes nothing: both analyzers return what they return
    with [srgb = 0].  This holds for every libm whose [pow] puts the
    difference of the two linear anchors strictly between 25/32 and 1. *)
Theorem srgb_flag_on_two_levels buf w h srgb offsets weights :
  (0.78125 <? c_srgb_to_linear (250.0 / 255.0) - c_srgb_to_linear (50.0 / 255.0))%float
    = true →
  (c_srgb_to_linear (250.0 / 255.0) - c_srgb_to_linear (50.0 / 255.0) <? 1)%float
    = true →
  Forall (λ b, b = DARK ∨ b = BRIGHT) buf →
  rs_analyze_dot buf w h srgb offsets weights
  = rs_analyze_dot buf w h 0 offsets weights
  ∧ rs_analyze_line buf w h srgb offsets weights
    = rs_analyze_line buf w h 0 offsets weights.
Proof.
  intros Hlo Hhi Hbuf. split.
  - apply rs_analyze_dot_ext. intros x y _ _. by apply read_pixel_two_levels.
  - apply rs_analyze_line_ext. intros x y _ _. by apply read_pixel_two_levels.
Qed.

End Frames.

Lemma analyzers_without_columns_witness :
  0 ≤ 0
  ∧ @rs_analyze_dot libm_no_pow [] 0 0 1 [] []
    = Some ((of_int 0 / of_int DOTIMG_SRC_WIDTH)%float, DotOut [] [] 0)
  ∧ @rs_analyze_line libm_no_pow [] 0 0 1 [] []
    = Some (LineOut (of_int 0 / of_int LINEIMG_SRC_WIDTH)%float [] []
              (0.0 / (of_int 0 / of_int LINEIMG_SRC_WIDTH))%float)
  ∧ (0 = 0 →
     ∃ out, @rs_analyze_line libm_no_pow [] 0 0 1 [] [] = Some out
            ∧ is_nan (out_area out) = true).
Proof.
  split; [lia|].
  apply (@analyzers_without_columns libm_no_pow [] 0 0 1 [] []). lia.
Defined.

Lemma rs_analyze_dot_frame_witness :
  0 ≤ 2
  ∧ 2 * DOTIMG_DST_HEIGHT ≤ Z.of_nat (length (replicate 550 250))
  ∧ 2 * DOTIMG_DST_HEIGHT ≤ INT_MAX
  ∧ 2 * DOTIMG_NUMSTRIPS ≤ Z.of_nat (length (replicate 51 7.0%float))
  ∧ 2 * DOTIMG_NUMSTRIPS ≤ Z.of_nat (length (replicate 52 8.0%float))
  ∧ ∃ scale_factor out,
      @rs_analyze_dot libm_no_pow (replicate 550 250) 2 275 0
        (replicate 51 7.0%float) (replicate 52 8.0%float) = Some (scale_factor, out)
      ∧ length (dot_offsets out) = length (replicate 51 7.0%float)
      ∧ length (dot_weights out) = length (replicate 52 8.0%float)
      ∧ drop (Z.to_nat (dot_count out)) (dot_offsets out)
        = drop (Z.to_nat (dot_count out)) (replicate 51 7.0%float)
      ∧ drop (Z.to_nat (dot_count out)) (dot_weights out)
        = drop (Z.to_nat (dot_count out)) (replicate 52 8.0%float).
Proof.
  split; [lia|]. split; [vm_compute; discriminate|].
  split; [vm_compute; discriminate|].
  split; [vm_compute; discriminate|]. split; [vm_compute; discriminate|].
  apply (@rs_analyze_dot_frame libm_no_pow (replicate 550 250) 2 275 0
           (replicate 51 7.0%float) (replicate 52 8.0%float));
    [lia|vm_compute; discriminate..].
Defined.

Lemma rs_analyze_line_frame_witness :
  0 ≤ 2 ∧ 1 ≤ 275
  ∧ 2 * 275 ≤ Z.of_nat (length (replicate 550 250))
  ∧ 2 * 275 ≤ INT_MAX
  ∧ 2 ≤ Z.of_nat (length (replicate 3 7.0%float))
  ∧ 2 ≤ Z.of_nat (length (replicate 4 8.0%float))
  ∧ ∃ out,
      @rs_analyze_line libm_no_pow (replicate 550 250) 2 275 0
        (replicate 3 7.0%float) (replicate 4 8.0%float) = Some out
      ∧ length (out_offsets out) = length (replicate 3 7.0%float)
      ∧ length (out_weights out) = length (replicate 4 8.0%float)
      ∧ drop (Z.to_nat 2) (out_offsets out) = drop (Z.to_nat 2) (replicate 3 7.0%float)
      ∧ drop (Z.to_nat 2) (out_weights out) = drop (Z.to_nat 2) (replicate 4 8.0%float).
Proof.
  split; [lia|]. split; [lia|]. split; [vm_compute; discriminate|].
  split; [vm_compute; discriminate|].
  split; [vm_compute; discriminate|]. split; [vm_compute; discriminate|].
  apply (@rs_analyze_line_frame libm_no_pow (replicate 550 250) 2 275 0
           (replicate 3 7.0%float) (replicate 4 8.0%float));
    [lia|lia|vm_compute; discriminate..].
Defined.

(** Two images that differ in a row that is not read. *)
Lemma rs_analyze_line_rows_witness :
  (∀ x y, 0 ≤ x < 1 → 5 ÷ 2 - 1 ≤ y ≤ 5 ÷ 2 + 1 →
     load [50; 250; 250; 250; 50] (y * 1 + x) = load [77; 250; 250; 250; 99] (y * 1 + x))
  ∧ @rs_analyze_line libm_no_pow [50; 250; 250; 250; 50] 1 5 0 [0.0%float] [0.0%float]
    = @rs_analyze_line libm_no_pow [77; 250; 250; 250; 99] 1 5 0 [0.0%float] [0.0%float].
Proof.
  assert (∀ x y, 0 ≤ x < 1 → 5 ÷ 2 - 1 ≤ y ≤ 5 ÷ 2 + 1 →
     load [50; 250; 250; 250; 50] (y * 1 + x) = load [77; 250; 250; 250; 99] (y * 1 + x))
    as Hagree.
  { intros x y Hx Hy. change (5 ÷ 2) with 2 in Hy.
    assert (x = 0) as -> by lia.
    assert (y = 1 ∨ y = 2 ∨ y = 3) as [->|[->| ->]] by lia; reflexivity. }
  split; [exact Hagree|].
  exact (@rs_analyze_line_rows libm_no_pow _ _ 1 5 0 [0.0%float] [0.0%float] Hagree).
Defined.

(** Two images of one column that differ below row 274, analysed with two
    different heights. *)
Lemma rs_analyze_dot_rows_witness :
  (∀ x y, 0 ≤ x < 1 → 0 ≤ y < DOTIMG_DST_HEIGHT →
     load (replicate 275 250 ++ [1]) (y * 1 + x)
     = load (replicate 275 250 ++ [2; 3]) (y * 1 + x))
  ∧ @rs_analyze_dot libm_no_pow (replicate 275 250 ++ [1]) 1 275 0
      (replicate 25 0.0%float) (replicate 25 0.0%float)
    = @rs_analyze_dot libm_no_pow (replicate 275 250 ++ [2; 3]) 1 9 0
        (replicate 25 0.0%float) (replicate 25 0.0%float).
Proof.
  assert (∀ x y, 0 ≤ x < 1 → 0 ≤ y < DOTIMG_DST_HEIGHT →
     load (replicate 275 250 ++ [1]) (y * 1 + x)
     = load (replicate 275 250 ++ [2; 3]) (y * 1 + x)) as Hagree.
  { intros x y Hx Hy. change DOTIMG_DST_HEIGHT with 275 in Hy.
    unfold load. case_match; [done|].
    rewrite !lookup_app_l by (rewrite length_replicate; lia). done. }
  split; [exact Hagree|].
  exact (@rs_analyze_dot_rows libm_no_pow _ _ 1 275 9 0 _ _ Hagree).
Defined.

Lemma srgb_flag_on_two_levels_witness :
  (0.78125 <? @c_srgb_to_linear libm_newton (250.0 / 255.0)
              - @c_srgb_to_linear libm_newton (50.0 / 255.0))%float = true
  ∧ (@c_srgb_to_linear libm_newton (250.0 / 255.0)
     - @c_srgb_to_linear libm_newton (50.0 / 255.0) <? 1)%float = true
  ∧ Forall (λ b, b = DARK ∨ b = BRIGHT) (replicate 550 250)
  ∧ @rs_analyze_dot libm_newton (replicate 550 250) 2 275 1
      (replicate 50 0.0%float) (replicate 50 0.0%float)
    = @rs_analyze_dot libm_newton (replicate 550 250) 2 275 0
        (replicate 50 0.0%float) (replicate 50 0.0%float)
  ∧ @rs_analyze_line libm_newton (replicate 550 250) 2 275 1
      (replicate 50 0.0%float) (replicate 50 0.0%float)
    = @rs_analyze_line libm_newton (replicate 550 250) 2 275 0
        (replicate 50 0.0%float) (replicate 50 0.0%float).
Proof.
  assert (Forall (λ b, b = DARK ∨ b = BRIGHT) (replicate 550 250)) as Hbuf.
  { apply Forall_replicate. by right. }
  split; [vm_compute; reflexivity|]. split; [vm_compute; reflexivity|].
  split; [exact Hbuf|].
  apply (@srgb_flag_on_two_levels libm_newton (replicate 550 250) 2 275 1
      (replicate 50 0.0%float) (replicate 50 0.0%float));
    [vm_compute; reflexivity|vm_compute; reflexivity|exact Hbuf].
Defined.

(** ** An image with too few rows *)

Section LoopFailure.
Context {S A : Type}.

(** A fold stops with no result at an element on which the body has none. *)
Lemma foldlM_fail (f : A → S → option S) (l : list A) (a : A) (s : S) :
  a ∈ l → (∀ s, f a s = None) → foldlM f l s = None.
Proof.
  intros Hin Hfail. revert s.
  induction l as [|b l IH]; intros s; [by apply elem_of_nil in Hin|].
  apply elem_of_cons in Hin as [<-|Hin]; simpl.
  - by rewrite Hfail.
  - destruct (f b s); [by apply IH|done].
Qed.

End LoopFailure.

Lemma for_range_fail {S} (body : Z → S → option S) (lo hi k : Z) (s : S) :
  lo ≤ k < hi → (∀ s, body k s = None) → for_range lo hi 1 body s = None.
Proof.
  intros Hk Hfail. rewrite for_range_foldlM by done.
  apply foldlM_fail with (a := k); [|done].
  apply elem_of_range_step; [done|]. exists (k - lo). lia.
Qed.

Section Height.
Context `{Libm}.

(** X13.  [rs_analyze_dot] does not check [h]: it reads the 11 rows of
    every strip at every column that is not skipped.  When one of these
    pixels lies beyond the end of the buffer, as on an image with fewer
    than 275 rows, the read is outside the buffer and the call has no
    result, whatever [h] says. *)
Theorem rs_analyze_dot_short_image buf w h srgb offsets weights strip dstpos row :
  0 ≤ strip < DOTIMG_NUMSTRIPS → 0 ≤ dstpos < w → 0 ≤ row < DOTIMG_STRIPHEIGHT →
  dot_skipped (of_int w / of_int DOTIMG_SRC_WIDTH) w strip dstpos = false →
  Z.of_nat (length buf) ≤ (DOTIMG_STRIPHEIGHT * strip + row) * w + dstpos →
  rs_analyze_dot buf w h srgb offsets weights = None.
Proof.
  intros Hstrip Hd Hrow Hskip Hshort. unfold rs_analyze_dot. cbv zeta.
  rewrite (for_range_fail _ 0 DOTIMG_NUMSTRIPS strip); [done|done|].
  intros st. apply (for_range_fail _ 0 w dstpos); [done|].
  intros st'. unfold analyze_dot_column.
  rewrite nearest_loop_spec. cbn [mbind option_bind].
  unfold dot_skipped in Hskip. rewrite Hskip.
  rewrite (for_range_fail _ 0 DOTIMG_STRIPHEIGHT row); [done|done|].
  intros tot. unfold strip_sum_step, read_pixel.
  rewrite load_None by (by left). reflexivity.
Qed.

End Height.

(** An image of 2 columns and 274 rows: column 1 of the last strip is not
    skipped, and its last row is missing. *)
Lemma rs_analyze_dot_short_image_witness :
  0 ≤ 24 < DOTIMG_NUMSTRIPS ∧ 0 ≤ 1 < 2 ∧ 0 ≤ 10 < DOTIMG_STRIPHEIGHT
  ∧ @dot_skipped (of_int 2 / of_int DOTIMG_SRC_WIDTH) 2 24 1 = false
  ∧ Z.of_nat (length (replicate 548 250)) ≤ (DOTIMG_STRIPHEIGHT * 24 + 10) * 2 + 1
  ∧ @rs_analyze_dot libm_no_pow (replicate 548 250) 2 274 0
      (replicate 50 0.0%float) (replicate 50 0.0%float) = None.
Proof.
  split; [vm_compute; split; congruence|]. split; [lia|].
  split; [vm_compute; split; congruence|].
  split; [vm_compute; reflexivity|].
  split; [vm_compute; discriminate|].
  apply (@rs_analyze_dot_short_image libm_no_pow (replicate 548 250) 2 274 0
           (replicate 50 0.0%float) (replicate 50 0.0%float) 24 1 10);
    [vm_compute; split; congruence|lia|vm_compute; split; congruence
    |vm_compute; reflexivity|vm_compute; discriminate].
Defined.

(** ** A raster of more than [INT_MAX] pixels *)

Section Overflow.
Context `{Libm}.

(** A column whose index does not fit an [int]: the call has no result. *)
Lemma rs_analyze_line_overflow buf w h srgb offsets weights i :
  0 ≤ i < w →
  INT_MAX < line_row h (h ÷ 2) i * w + i →
  read_pixel buf w i (line_row h (h ÷ 2) i) srgb = None
  ∧ rs_analyze_line buf w h srgb offsets weights = None.
Proof.
  intros Hi Hover.
  assert (read_pixel buf w i (line_row h (h ÷ 2) i) srgb = None) as Hread.
  { unfold read_pixel. rewrite load_None by (by right). reflexivity. }
  split; [exact Hread|].
  unfold rs_analyze_line. cbv zeta.
  rewrite (for_range_fail _ 0 w i); [reflexivity|exact Hi|].
  intros st. unfold analyze_line_column. cbv zeta. rewrite Hread. reflexivity.
Qed.

End Overflow.

(** C10 as stated fails.  A raster of 70000 columns and 70000 rows meets
    the conditions of the claim ([w >= 1], [h >= 1], a buffer of [h * w]
    bytes), and the row of column 0 is 34999, inside [0, h-1].  The index
    of that pixel, [34999 * 70000 + 0 = 2449930000], is above [INT_MAX]:
    the [int] multiplication of [read_pixel] overflows, the read is not
    the in-bounds read of the claim, and the call has no result. *)
Lemma line_reads_as_claimed_fail :
  let w := 70000 in
  let h := 70000 in
  let buf := replicate (Z.to_nat 4900000000) 0 in
  (1 ≤ w ∧ 1 ≤ h ∧ h * w ≤ Z.of_nat (length buf))
  ∧ line_row h (h ÷ 2) 0 = 34999
  ∧ INT_MAX < line_row h (h ÷ 2) 0 * w + 0
  ∧ @read_pixel libm_no_pow buf w 0 (line_row h (h ÷ 2) 0) 0 = None
  ∧ ∀ offsets weights, @rs_analyze_line libm_no_pow buf w h 0 offsets weights = None.
Proof.
  intros w h buf.
  assert (line_row h (h ÷ 2) 0 = 34999) as Hrow by (vm_compute; reflexivity).
  assert (INT_MAX < line_row h (h ÷ 2) 0 * w + 0) as Hover.
  { rewrite Hrow. vm_compute. reflexivity. }
  split.
  { split; [unfold w; lia|]. split; [unfold h; lia|].
    unfold buf. rewrite length_replicate. rewrite Z2Nat.id by lia.
    unfold w, h. lia. }
  split; [exact Hrow|]. split; [exact Hover|].
  split.
  - apply (@rs_analyze_line_overflow libm_no_pow buf w h 0 [] [] 0); [unfold w; lia|exact Hover].
  - intros offsets weights.
    apply (@rs_analyze_line_overflow libm_no_pow buf w h 0 offsets weights 0);
      [unfold w; lia|exact Hover].
Qed.

(** ** The patterns analysed as they are *)

Lemma fold_left_ext_in {A B} (f g : A → B → A) (l : list B) (a : A) :
  (∀ a b, b ∈ l → f a b = g a b) → fold_left f l a = fold_left g l a.
Proof.
  revert a. induction l as [|b l IH]; intros a Hfg; simpl; [done|].
  rewrite (Hfg a b) by (apply elem_of_cons; by left).
  apply IH. intros a' b' Hb'. apply Hfg. apply elem_of_cons. by right.
Qed.

Lemma line_image_lookup (p : Z) :
  0 ≤ p < LINEIMG_SRC_WIDTH * LINEIMG_SRC_HEIGHT →
  line_image !! Z.to_nat p
  = Some (if p `mod` LINEIMG_SRC_WIDTH =? LINEIMG_SRC_WIDTH ÷ 2 then BRIGHT else DARK).
Proof.
  intros Hp. unfold line_image.
  rewrite list_lookup_fmap, lookup_seqZ_lt by lia. simpl.
  by rewrite Z2Nat.id by lia.
Qed.

Lemma emitted_take offsets weights (E : list (float * float)) (n : Z) :
  Z.of_nat (length E) = n →
  dot_count (emitted offsets weights E) = n
  ∧ take (Z.to_nat n) (dot_offsets (emitted offsets weights E)) = E.*1
  ∧ take (Z.to_nat n) (dot_weights (emitted offsets weights E)) = E.*2.
Proof.
  intros <-. unfold emitted. cbn [dot_count dot_offsets dot_weights].
  rewrite Nat2Z.id. split; [reflexivity|].
  split; apply take_app_length'; symmetry; apply length_fmap.
Qed.

(** The samples of the dot image at its own width, from the test of the
    generator instead of the pixels. *)
Lemma dot_identity_by_evaluation :
  (λ p : Z * Z,
     rescale (of_int DOTIMG_SRC_WIDTH / of_int DOTIMG_SRC_WIDTH)
       (nearest_offset (of_int DOTIMG_SRC_WIDTH / of_int DOTIMG_SRC_WIDTH)
          DOTIMG_SRC_WIDTH p.1 p.2,
        (fold_left (λ tot row,
             (tot + ((if dot_is_bright p.2 (DOTIMG_STRIPHEIGHT * p.1 + row)
                      then 250.0 else 50.0) - 50.0))%float)
           (seqZ 0 DOTIMG_STRIPHEIGHT) 0.0 / 200.0)%float))
    <$> dot_positions (of_int DOTIMG_SRC_WIDTH / of_int DOTIMG_SRC_WIDTH)
          DOTIMG_SRC_WIDTH DOTIMG_NUMSTRIPS
  = dot_identity_samples
  ∧ Z.of_nat (length dot_identity_samples) = 13325
  ∧ (of_int DOTIMG_SRC_WIDTH / of_int DOTIMG_SRC_WIDTH)%float = 1.0%float.
Proof. split; [|split]; vm_compute; reflexivity. Qed.

Section RoundTrip.
Context `{Libm}.

(** A pixel of the generated dot image, as the analyzer sees it. *)
Lemma dot_pixel_generated img len srgb x y :
  (srgb ≠ 0 →
   (0.78125 <? c_srgb_to_linear (250.0 / 255.0) - c_srgb_to_linear (50.0 / 255.0))%float
     = true
   ∧ (c_srgb_to_linear (250.0 / 255.0) - c_srgb_to_linear (50.0 / 255.0) <? 1)%float
     = true) →
  dot_painted len (DOTIMG_SRC_WIDTH * DOTIMG_SRC_HEIGHT) img →
  0 ≤ x < DOTIMG_SRC_WIDTH → 0 ≤ y < DOTIMG_SRC_HEIGHT →
  pixel img DOTIMG_SRC_WIDTH x y srgb
  = if dot_is_bright x y then 250.0%float else 50.0%float.
Proof.
  intros Hlibm [_ Hpx] Hx Hy.
  assert (0 ≤ y * DOTIMG_SRC_WIDTH + x < DOTIMG_SRC_WIDTH * DOTIMG_SRC_HEIGHT) as Hidx.
  { unfold DOTIMG_SRC_WIDTH, DOTIMG_SRC_HEIGHT, DOTIMG_NUMSTRIPS, DOTIMG_HPIXELSPAN in *.
    lia. }
  specialize (Hpx _ Hidx). rewrite dot_index_mod, dot_index_div in Hpx by done.
  destruct (Z.ltb_spec (y * DOTIMG_SRC_WIDTH + x) (DOTIMG_SRC_WIDTH * DOTIMG_SRC_HEIGHT));
    [|lia].
  simpl andb in Hpx.
  unfold pixel.
  rewrite (read_pixel_level img DOTIMG_SRC_WIDTH x y srgb
             (if dot_is_bright x y then BRIGHT else DARK)).
  - by destruct (dot_is_bright x y).
  - exact Hlibm.
  - rewrite load_Some; [done|].
    unfold DOTIMG_SRC_WIDTH, DOTIMG_SRC_HEIGHT, DOTIMG_NUMSTRIPS, DOTIMG_HPIXELSPAN,
      DOTIMG_STRIPHEIGHT, INT_MAX in *. lia.
  - destruct (dot_is_bright x y); [by right|by left].
Qed.

(** X14.  The dot analyzer applied to the dot image as generated, at its
    own width ([rs_dot_src_width]), finds the identity: the scale factor
    is 1, and for every strip and every column within 12 pixels of a dot
    of the strip it stores the distance to that dot, with weight 1 on the
    dot and weight 0 beside it; there are 13325 samples.  This holds with
    and without [srgb] (for the libm of the section on the sampler) and
    whatever [h] is passed. *)
Theorem dot_pattern_round_trip buf h srgb offsets weights :
  (srgb ≠ 0 →
   (0.78125 <? c_srgb_to_linear (250.0 / 255.0) - c_srgb_to_linear (50.0 / 255.0))%float
     = true
   ∧ (c_srgb_to_linear (250.0 / 255.0) - c_srgb_to_linear (50.0 / 255.0) <? 1)%float
     = true) →
  rs_dot_src_width * rs_dot_src_height ≤ Z.of_nat (length buf) →
  rs_dot_src_width * DOTIMG_NUMSTRIPS ≤ Z.of_nat (length offsets) →
  rs_dot_src_width * DOTIMG_NUMSTRIPS ≤ Z.of_nat (length weights) →
  ∃ img out,
    rs_generate_dot_pattern buf = Some img
    ∧ rs_analyze_dot img rs_dot_src_width h srgb offsets weights = Some (1.0%float, out)
    ∧ dot_count out = 13325
    ∧ take (Z.to_nat 13325) (dot_offsets out) = dot_identity_samples.*1
    ∧ take (Z.to_nat 13325) (dot_weights out) = dot_identity_samples.*2.
Proof.
  unfold rs_dot_src_width, rs_dot_src_height. intros Hlibm Hbuf Ho Hwt.
  destruct (rs_generate_dot_pattern_painted buf Hbuf) as (img & Himg & Hpaint).
  destruct dot_identity_by_evaluation as (Hcalc & Hcount & Hscale).
  set (sf := (of_int DOTIMG_SRC_WIDTH / of_int DOTIMG_SRC_WIDTH)%float) in *.
  assert (dot_samples img DOTIMG_SRC_WIDTH srgb sf DOTIMG_NUMSTRIPS
          = dot_identity_samples) as Hsamples.
  { rewrite dot_samples_pre, dot_pre_samples_positions, <- list_fmap_compose.
    rewrite <- Hcalc. apply Forall_fmap_ext, Forall_forall.
    intros [strip x] Hp. apply elem_of_dot_positions in Hp as (Hstrip & Hx & _).
    simpl in Hstrip, Hx. cbn [fst snd compose].
    unfold dot_pre_sample, strip_tot. do 3 f_equal.
    apply fold_left_ext_in. intros tot row Hrow. apply elem_of_seqZ in Hrow.
    rewrite (dot_pixel_generated img (length buf) srgb x (DOTIMG_STRIPHEIGHT * strip + row));
      [done|done|done|done|].
    unfold DOTIMG_SRC_HEIGHT, DOTIMG_NUMSTRIPS, DOTIMG_HPIXELSPAN, DOTIMG_STRIPHEIGHT in *.
    lia. }
  pose proof (rs_analyze_dot_spec img DOTIMG_SRC_WIDTH h srgb offsets weights) as Hspec.
  cbv zeta in Hspec. fold sf in Hspec. rewrite Hsamples, Hscale in Hspec.
  destruct Hpaint as [Hlen _].
  exists img, (emitted offsets weights dot_identity_samples).
  split; [exact Himg|].
  split; [|by apply emitted_take].
  apply Hspec; [done| |vm_compute; discriminate|exact Ho|exact Hwt].
  rewrite Hlen. exact Hbuf.
Qed.

End RoundTrip.

Section LineRoundTrip.
Context `{Libm}.

(** X15.  The line analyzer applied to the line image as generated, at
    its own size ([rs_line_src_width] by [rs_line_src_height]), finds the
    identity: the scale factor is 1, column [x] gets the offset [x - 7]
    with weight 1 in the middle column and weight 0 elsewhere, and the
    area is 1.  This holds with and without [srgb] (for the libm of the
    section on the sampler). *)
Theorem line_pattern_round_trip buf srgb offsets weights :
  (srgb ≠ 0 →
   (0.78125 <? c_srgb_to_linear (250.0 / 255.0) - c_srgb_to_linear (50.0 / 255.0))%float
     = true
   ∧ (c_srgb_to_linear (250.0 / 255.0) - c_srgb_to_linear (50.0 / 255.0) <? 1)%float
     = true) →
  rs_line_src_width * rs_line_src_height ≤ Z.of_nat (length buf) →
  rs_line_src_width ≤ Z.of_nat (length offsets) →
  rs_line_src_width ≤ Z.of_nat (length weights) →
  ∃ img,
    rs_generate_line_pattern buf = Some img
    ∧ rs_analyze_line img rs_line_src_width rs_line_src_height srgb offsets weights
      = Some (LineOut 1.0%float
                (line_identity_samples.*1 ++ drop (Z.to_nat rs_line_src_width) offsets)
                (line_identity_samples.*2 ++ drop (Z.to_nat rs_line_src_width) weights)
                1.0%float).
Proof.
  unfold rs_line_src_width, rs_line_src_height. intros Hlibm Hbuf Ho Hwt.
  destruct (rs_generate_line_pattern_painted buf Hbuf) as (img & Himg & [Hlen Hpx] & _).
  exists img. split; [exact Himg|].
  transitivity (rs_analyze_line line_image LINEIMG_SRC_WIDTH LINEIMG_SRC_HEIGHT 0
                  offsets weights).
  - apply rs_analyze_line_ext. intros x y Hx Hy.
    change (LINEIMG_SRC_HEIGHT ÷ 2) with 7 in Hy.
    change LINEIMG_SRC_WIDTH with 15 in Hx.
    assert (0 ≤ y * LINEIMG_SRC_WIDTH + x < LINEIMG_SRC_WIDTH * LINEIMG_SRC_HEIGHT)
      as Hidx by (unfold LINEIMG_SRC_WIDTH, LINEIMG_SRC_HEIGHT; lia).
    specialize (Hpx _ Hidx).
    pose proof (line_image_lookup _ Hidx) as Himage.
    replace ((y * LINEIMG_SRC_WIDTH + x) `div` LINEIMG_SRC_WIDTH <? LINEIMG_SRC_HEIGHT)
      with true in Hpx.
    2:{ symmetry. apply Z.ltb_lt. apply Z.div_lt_upper_bound; [done|].
        unfold LINEIMG_SRC_WIDTH, LINEIMG_SRC_HEIGHT in *. lia. }
    simpl andb in Hpx.
    set (b := if (y * LINEIMG_SRC_WIDTH + x) `mod` LINEIMG_SRC_WIDTH
                 =? LINEIMG_SRC_WIDTH ÷ 2 then BRIGHT else DARK) in *.
    assert (b = DARK ∨ b = BRIGHT) as Hb by (unfold b; case_match; [by right|by left]).
    rewrite (read_pixel_level img LINEIMG_SRC_WIDTH x y srgb b); [|exact Hlibm| |exact Hb].
    2:{ rewrite load_Some; [done|].
        unfold LINEIMG_SRC_WIDTH, LINEIMG_SRC_HEIGHT, INT_MAX in *. lia. }
    rewrite (read_pixel_level line_image LINEIMG_SRC_WIDTH x y 0 b); [done|done| |exact Hb].
    rewrite load_Some; [done|].
    unfold LINEIMG_SRC_WIDTH, LINEIMG_SRC_HEIGHT, INT_MAX in *. lia.
  - pose proof (rs_analyze_line_spec line_image LINEIMG_SRC_WIDTH LINEIMG_SRC_HEIGHT 0
                  offsets weights) as Hspec.
    cbv zeta in Hspec.
    rewrite Hspec; [|done|done| |vm_compute; discriminate|exact Ho|exact Hwt].
    + assert ((of_int LINEIMG_SRC_WIDTH / of_int LINEIMG_SRC_WIDTH)%float = 1.0%float
              ∧ line_samples line_image LINEIMG_SRC_WIDTH LINEIMG_SRC_HEIGHT 0
                  (of_int LINEIMG_SRC_WIDTH / of_int LINEIMG_SRC_WIDTH)
                  LINEIMG_SRC_WIDTH = line_identity_samples
              ∧ (line_total line_image LINEIMG_SRC_WIDTH LINEIMG_SRC_HEIGHT 0
                   LINEIMG_SRC_WIDTH
                 / (of_int LINEIMG_SRC_WIDTH / of_int LINEIMG_SRC_WIDTH))%float
                = 1.0%float) as (-> & -> & ->);
        [split; [|split]; vm_compute; reflexivity|reflexivity].
    + rewrite line_image_length. lia.
Qed.

End LineRoundTrip.

Lemma dot_pattern_round_trip_witness :
  let buf := replicate (Z.to_nat 153175) 0 in
  let offsets := replicate (Z.to_nat 13925) 0.0%float in
  let weights := replicate (Z.to_nat 13925) 0.0%float in
  ((0.78125 <? @c_srgb_to_linear libm_newton (250.0 / 255.0)
               - @c_srgb_to_linear libm_newton (50.0 / 255.0))%float = true
   ∧ (@c_srgb_to_linear libm_newton (250.0 / 255.0)
      - @c_srgb_to_linear libm_newton (50.0 / 255.0) <? 1)%float = true)
  ∧ rs_dot_src_width * rs_dot_src_height ≤ Z.of_nat (length buf)
  ∧ rs_dot_src_width * DOTIMG_NUMSTRIPS ≤ Z.of_nat (length offsets)
  ∧ rs_dot_src_width * DOTIMG_NUMSTRIPS ≤ Z.of_nat (length weights)
  ∧ ∃ img out,
      rs_generate_dot_pattern buf = Some img
      ∧ @rs_analyze_dot libm_newton img rs_dot_src_width 0 1 offsets weights
        = Some (1.0%float, out)
      ∧ dot_count out = 13325
      ∧ take (Z.to_nat 13325) (dot_offsets out) = dot_identity_samples.*1
      ∧ take (Z.to_nat 13325) (dot_weights out) = dot_identity_samples.*2.
Proof.
  intros buf offsets weights.
  assert ((0.78125 <? @c_srgb_to_linear libm_newton (250.0 / 255.0)
                      - @c_srgb_to_linear libm_newton (50.0 / 255.0))%float = true
          ∧ (@c_srgb_to_linear libm_newton (250.0 / 255.0)
             - @c_srgb_to_linear libm_newton (50.0 / 255.0) <? 1)%float = true) as Hlibm.
  { split; vm_compute; reflexivity. }
  assert (rs_dot_src_width * rs_dot_src_height ≤ Z.of_nat (length buf)) as Hbuf.
  { unfold buf. rewrite length_replicate, Z2Nat.id by lia. vm_compute. discriminate. }
  assert (rs_dot_src_width * DOTIMG_NUMSTRIPS ≤ Z.of_nat (length offsets)) as Ho.
  { unfold offsets. rewrite length_replicate, Z2Nat.id by lia. vm_compute. discriminate. }
  split; [exact Hlibm|]. split; [exact Hbuf|]. split; [exact Ho|]. split; [exact Ho|].
  exact (@dot_pattern_round_trip libm_newton buf 0 1 offsets weights (λ _, Hlibm)
           Hbuf Ho Ho).
Defined.

Lemma line_pattern_round_trip_witness :
  let buf := replicate 225 0 in
  let offsets := replicate 15 0.0%float in
  let weights := replicate 15 0.0%float in
  ((0.78125 <? @c_srgb_to_linear libm_newton (250.0 / 255.0)
               - @c_srgb_to_linear libm_newton (50.0 / 255.0))%float = true
   ∧ (@c_srgb_to_linear libm_newton (250.0 / 255.0)
      - @c_srgb_to_linear libm_newton (50.0 / 255.0) <? 1)%float = true)
  ∧ rs_line_src_width * rs_line_src_height ≤ Z.of_nat (length buf)
  ∧ rs_line_src_width ≤ Z.of_nat (length offsets)
  ∧ rs_line_src_width ≤ Z.of_nat (length weights)
  ∧ ∃ img,
      rs_generate_line_pattern buf = Some img
      ∧ @rs_analyze_line libm_newton img rs_line_src_width rs_line_src_height 1
          offsets weights
        = Some (LineOut 1.0%float
                  (line_identity_samples.*1 ++ drop (Z.to_nat rs_line_src_width) offsets)
                  (line_identity_samples.*2 ++ drop (Z.to_nat rs_line_src_width) weights)
                  1.0%float).
Proof.
  intros buf offsets weights.
  assert ((0.78125 <? @c_srgb_to_linear libm_newton (250.0 / 255.0)
                      - @c_srgb_to_linear libm_newton (50.0 / 255.0))%float = true
          ∧ (@c_srgb_to_linear libm_newton (250.0 / 255.0)
             - @c_srgb_to_linear libm_newton (50.0 / 255.0) <? 1)%float = true) as Hlibm.
  { split; vm_compute; reflexivity. }
  assert (rs_line_src_width * rs_line_src_height ≤ Z.of_nat (length buf)) as Hbuf.
  { vm_compute. discriminate. }
  assert (rs_line_src_width ≤ Z.of_nat (length offsets)) as Ho.
  { vm_compute. discriminate. }
  split; [exact Hlibm|]. split; [exact Hbuf|]. split; [exact Ho|]. split; [exact Ho|].
  exact (@line_pattern_round_trip libm_newton buf 1 offsets weights (λ _, Hlibm)
           Hbuf Ho Ho).
Defined.

(** The identity samples by evaluation: those of the line image, and the
    first columns of strip 0 of the dot image, whose first dot is at
    column 12. *)
Example identity_samples_examples :
  line_identity_samples
  = [(-7.0, 0.0); (-6.0, 0.0); (-5.0, 0.0); (-4.0, 0.0); (-3.0, 0.0); (-2.0, 0.0);
     (-1.0, 0.0); (0.0, 1.0); (1.0, 0.0); (2.0, 0.0); (3.0, 0.0); (4.0, 0.0);
     (5.0, 0.0); (6.0, 0.0); (7.0, 0.0)]%float
  ∧ take 14 dot_identity_samples
    = [(-12.0, 0.0); (-11.0, 0.0); (-10.0, 0.0); (-9.0, 0.0); (-8.0, 0.0); (-7.0, 0.0);
       (-6.0, 0.0); (-5.0, 0.0); (-4.0, 0.0); (-3.0, 0.0); (-2.0, 0.0); (-1.0, 0.0);
       (0.0, 1.0); (1.0, 0.0)]%float.
Proof. split; vm_compute; reflexivity. Qed.
